(** * Schema generation from Go types (package huma, schema.go)

    A shallow embedding of [GenerateSchema] and [getTagValue] together with
    the parts of the Go standard library they call ([strings.Split],
    [strconv.Atoi], [encoding/json.Unmarshal] into an empty interface and
    the [reflect] view of a type), followed by the properties proved about
    them.

    Conventions of the embedding:
    - a Go [string] is a [string] of bytes;
    - Go's [int] is a [Z] (a 64-bit platform is assumed where a range
      matters); a [float64] is its sign bit and the rational it denotes;
    - a function returning [(T, error)] whose every return is either
      [x, nil] or [nil, err] returns a [result T];
    - a pointer that may be nil is an [option]; a nil slice or nil map is
      [None], distinct from an empty one;
    - [map[string]T] is a [gmap string T]. *)

From Stdlib Require Import ZArith QArith Qabs Qcanon Ascii String List Bool Lia.
From stdpp Require Import base option gmap strings list.

Set Warnings "-register-all".
#[local] Open Scope string_scope.
#[local] Open Scope Z_scope.

(** ** Errors and the result monad *)

(** The two sentinel errors of package strconv. *)
Inductive NumErr := ErrSyntax | ErrRange.

(** The error values the generator can return.  [Errorf msg] is what
    [fmt.Errorf] builds; [NumError] is [*strconv.NumError]; [SyntaxError] is
    [*json.SyntaxError], whose message and offset are left out;
    [UnmarshalTypeError] is [*json.UnmarshalTypeError] with its [Value], the
    description of the JSON value that did not fit (its [Type] is float64
    wherever this program meets the error; the offset is left out). *)
Inductive error :=
| Errorf (msg : string)
| NumError (Func Num : string) (Err_ : NumErr)
| SyntaxError
| UnmarshalTypeError (Value : string).

Inductive result (A : Type) :=
| OK (a : A)
| Err (e : error).
Arguments OK {A} a.
Arguments Err {A} e.

Definition bind {A B} (r : result A) (k : A -> result B) : result B :=
  match r with
  | OK a => k a
  | Err e => Err e
  end.

Notation "x <-- r ;; k" := (bind r (fun x => k))
  (at level 100, r at next level, right associativity).

Definition isOK {A} (r : result A) : bool :=
  match r with OK _ => true | Err _ => false end.

(** ** Floating-point numbers

    A finite [float64] is its sign bit and the rational its magnitude
    denotes, in lowest terms; the two zeros differ by the sign bit.
    Infinities and NaN do not occur: the decoder stores a number only when
    its conversion succeeded. *)
Inductive float64 := Float (sign : bool) (abs : Q).

(** The float64 nearest to [n / d], for [0 <= n] and [0 < d], a tie going
    to the even significand (IEEE 754 round to nearest even): [None] when
    that is beyond the largest finite float64.  [e] is the exponent of the
    leading bit of the quotient and [k] that of the last bit kept: 53 bits
    for a normal number, and never below [2 ^ -1074], the smallest
    subnormal. *)
Definition roundFloat64 (n d : Z) : option Q :=
  if n =? 0 then Some 0%Q else
  let e0 := Z.log2 n - Z.log2 d in
  let e := if (if 0 <=? e0 then d * 2 ^ e0 <=? n else d <=? n * 2 ^ (- e0))
           then e0 else e0 - 1 in
  let k := Z.max (e - 52) (- 1074) in
  let N := if 0 <=? k then n else n * 2 ^ (- k) in
  let D := if 0 <=? k then d * 2 ^ k else d in
  let q := N / D in
  let r := N mod D in
  let m := if 2 * r <? D then q
           else if D <? 2 * r then q + 1
           else if Z.even q then q else q + 1 in
  if 0 <=? k then
    if 2 ^ 1024 <=? m * 2 ^ k then None else Some (Qred (m * 2 ^ k # 1))
  else Some (Qred (m # Z.to_pos (2 ^ (- k)))).

(** ** Package strings *)

Module strings.

(** [strings.Split(s, sep)] for a one-byte separator: the pieces of [s]
    between occurrences of [sep].  The result is never empty: a string
    without the separator (the empty string too) gives one piece. *)
Fixpoint Split (s : string) (sep : ascii) : list string :=
  match s with
  | EmptyString => [EmptyString]
  | String c r =>
      if Ascii.eqb c sep then EmptyString :: Split r sep
      else match Split r sep with
           | h :: t => String c h :: t
           | [] => [String c EmptyString]
           end
  end.

End strings.

(** ** Package strconv *)

Module strconv.

Definition isDigit (c : ascii) : bool :=
  let n := Z.of_nat (nat_of_ascii c) in (48 <=? n) && (n <=? 57).

Definition maxUint64 : Z := 2 ^ 64 - 1.

(** The loop of [ParseUint] in base 10 over a run of bytes: the value of
    the digits; the syntax error at the first byte that is not a digit; the
    range error as soon as the value read so far is beyond a [uint64],
    whatever follows. *)
Fixpoint digits (s : string) (acc : Z) : Z + NumErr :=
  match s with
  | EmptyString => inl acc
  | String c r =>
      if isDigit c then
        let n := acc * 10 + (Z.of_nat (nat_of_ascii c) - 48) in
        if maxUint64 <? n then inr ErrRange else digits r n
      else inr ErrSyntax
  end.

Definition minInt : Z := - 2 ^ 63.
Definition maxInt : Z := 2 ^ 63 - 1.

(** [strconv.Atoi]: an optional sign and at least one decimal digit,
    nothing else; a value that does not fit an [int] is a range error. *)
Definition Atoi (s : string) : result Z :=
  let '(neg, body) :=
    match s with
    | String "-"%char r => (true, r)
    | String "+"%char r => (false, r)
    | _ => (false, s)
    end in
  match body with
  | EmptyString => Err (NumError "Atoi" s ErrSyntax)
  | _ =>
      match digits body 0 with
      | inr e => Err (NumError "Atoi" s e)
      | inl n =>
          let v := if neg then - n else n in
          if (minInt <=? v) && (v <=? maxInt) then OK v
          else Err (NumError "Atoi" s ErrRange)
      end
  end.

(** The longest prefix of decimal digits, and what follows it. *)
Fixpoint takeDigits (s : string) : string * string :=
  match s with
  | String c r =>
      if isDigit c then let '(d, r') := takeDigits r in (String c d, r')
      else (EmptyString, s)
  | EmptyString => (EmptyString, s)
  end.

(** The value of a run of digits. *)
Fixpoint digitsValue (s : string) (acc : Z) : Z :=
  match s with
  | String c r => digitsValue r (acc * 10 + (Z.of_nat (nat_of_ascii c) - 48))
  | EmptyString => acc
  end.

(** The value of the digits of an exponent as [readFloat] accumulates it:
    a digit counts only while the value read so far is below 10000. *)
Fixpoint exponentValue (s : string) (acc : Z) : Z :=
  match s with
  | String c r =>
      exponentValue r
        (if acc <? 10000 then acc * 10 + (Z.of_nat (nat_of_ascii c) - 48) else acc)
  | EmptyString => acc
  end.

(** The exponent part of a decimal literal, which must reach the end of
    the text: nothing, or [e] or [E], an optional sign and at least one
    digit. *)
Definition exponent (s : string) : option Z :=
  match s with
  | EmptyString => Some 0
  | String ("e" | "E")%char r =>
      let '(eneg, r1) :=
        match r with
        | String "-"%char r' => (true, r')
        | String "+"%char r' => (false, r')
        | _ => (false, r)
        end in
      match takeDigits r1 with
      | (String _ _ as ep, EmptyString) =>
          Some (if eneg then - exponentValue ep 0 else exponentValue ep 0)
      | _ => None
      end
  | _ => None
  end.

(** [strconv.ParseFloat(s, 64)] on a decimal literal: an optional sign,
    digits with at most one point among them, at least one digit, and an
    optional exponent.  The result is the float64 nearest to the number the
    literal denotes (with the exponent as [exponentValue] reads it), and the
    range error when that is no finite float64.  The other texts the Go
    function accepts (a base prefix, underscores, the spellings of infinity
    and NaN) are syntax errors here; no number of a JSON text is one of
    them. *)
Definition ParseFloat (s : string) : result float64 :=
  let '(neg, s1) :=
    match s with
    | String "-"%char r => (true, r)
    | String "+"%char r => (false, r)
    | _ => (false, s)
    end in
  let '(ip, s2) := takeDigits s1 in
  let '(fp, s3) :=
    match s2 with
    | String "."%char r => takeDigits r
    | _ => (EmptyString, s2)
    end in
  match ip ++ fp, exponent s3 with
  | String _ _ as mant, Some e =>
      let m := digitsValue mant 0 in
      let e10 := e - Z.of_nat (String.length fp) in
      match (if 0 <=? e10 then roundFloat64 (m * 10 ^ e10) 1
             else roundFloat64 m (10 ^ (- e10))) with
      | Some q => OK (Float neg q)
      | None => Err (NumError "ParseFloat" s ErrRange)
      end
  | _, _ => Err (NumError "ParseFloat" s ErrSyntax)
  end.

End strconv.

(** ** Dynamic values

    What an [interface{}] holds in this program: nil, or one of the values
    [json.Unmarshal] stores into an empty interface (bool, float64, string,
    [[]interface{}], [map[string]interface{}]). *)
Inductive value :=
| VNil
| VBool (b : bool)
| VNumber (f : float64)
| VString (s : string)
| VArray (l : list value)
| VObject (m : gmap string value).

(** ** Package encoding/json

    [json.Unmarshal] into an empty interface, in the two passes of the
    package: the scanner checks the whole text against the grammar of
    RFC 8259 and its limit on nesting; then the values are built, and a
    number that is no float64 is a type error.  The scanner is modelled by
    a parser whose result, a [tree], keeps every number as its literal and
    every member of an object, in the order of the text. *)

Module json.

Inductive tree :=
| TNull
| TBool (b : bool)
| TNumber (lit : string)
| TString (s : string)
| TArray (l : list tree)
| TObject (l : list (string * tree)).

Definition isSpace (c : ascii) : bool :=
  match c with
  | " "%char | "009"%char | "010"%char | "013"%char => true
  | _ => false
  end.

Fixpoint skipSpace (s : string) : string :=
  match s with
  | String c r => if isSpace c then skipSpace r else s
  | EmptyString => s
  end.

Fixpoint stripPrefix (p s : string) : option string :=
  match p, s with
  | EmptyString, _ => Some s
  | String a p', String b s' => if Ascii.eqb a b then stripPrefix p' s' else None
  | String _ _, EmptyString => None
  end.

Definition intPartOK (ip : string) : bool :=
  match ip with
  | EmptyString => false
  | String "0"%char EmptyString => true
  | String "0"%char _ => false
  | _ => true
  end.

(** A number literal at the head of [s], and what follows it: an optional
    minus sign; an integer part, which is a single zero or digits not
    starting with zero; an optional fraction, a dot and at least one digit;
    an optional exponent, e or E, an optional sign and at least one
    digit. *)
Definition number (s : string) : option (string * string) :=
  let s1 := match s with String "-"%char r => r | _ => s end in
  let '(ip, s2) := strconv.takeDigits s1 in
  if negb (intPartOK ip) then None else
  let frac :=
    match s2 with
    | String "."%char r =>
        let '(fp, s3) := strconv.takeDigits r in
        match fp with EmptyString => None | _ => Some s3 end
    | _ => Some s2
    end in
  match frac with
  | None => None
  | Some s3 =>
      let expo :=
        match s3 with
        | String ("e" | "E")%char r =>
            let r1 :=
              match r with
              | String ("-" | "+")%char r' => r'
              | _ => r
              end in
            let '(ep, s4) := strconv.takeDigits r1 in
            match ep with EmptyString => None | _ => Some s4 end
        | _ => Some s3
        end in
      match expo with
      | None => None
      | Some s4 =>
          Some (String.substring 0 (String.length s - String.length s4) s, s4)
      end
  end.

Definition hexDigit (c : ascii) : option Z :=
  let n := Z.of_nat (nat_of_ascii c) in
  if (48 <=? n) && (n <=? 57) then Some (n - 48)
  else if (97 <=? n) && (n <=? 102) then Some (n - 87)
  else if (65 <=? n) && (n <=? 70) then Some (n - 55)
  else None.

Definition hex4 (s : string) : option (Z * string) :=
  match s with
  | String a (String b (String c (String d r))) =>
      match hexDigit a, hexDigit b, hexDigit c, hexDigit d with
      | Some x, Some y, Some z, Some w => Some (((x * 16 + y) * 16 + z) * 16 + w, r)
      | _, _, _, _ => None
      end
  | _ => None
  end.

(** [getu4]: the code unit of a [\uXXXX] escape at the head of [s]. *)
Definition getu4 (s : string) : option (Z * string) :=
  match s with
  | String "\"%char (String "u"%char r) => hex4 r
  | _ => None
  end.

Definition byte (n : Z) : ascii := ascii_of_nat (Z.to_nat n).

Definition RuneError : Z := 65533.

(** [utf8.EncodeRune]. *)
Definition EncodeRune (r : Z) : string :=
  if r <? 128 then String (byte r) EmptyString
  else if r <? 2048 then
    String (byte (192 + r / 64)) (String (byte (128 + r mod 64)) EmptyString)
  else if ((55296 <=? r) && (r <? 57344)) || (1114111 <? r) then
    String (byte 239) (String (byte 191) (String (byte 189) EmptyString))
  else if r <? 65536 then
    String (byte (224 + r / 4096))
      (String (byte (128 + (r / 64) mod 64)) (String (byte (128 + r mod 64)) EmptyString))
  else
    String (byte (240 + r / 262144))
      (String (byte (128 + (r / 4096) mod 64))
         (String (byte (128 + (r / 64) mod 64)) (String (byte (128 + r mod 64)) EmptyString))).

Definition between (lo hi : Z) (c : ascii) : bool :=
  let n := Z.of_nat (nat_of_ascii c) in (lo <=? n) && (n <=? hi).

(** [utf8.DecodeRune] at a first byte of 128 or more, as far as the
    decoder uses it: the bytes of the well-formed encoding at the head of
    [s] and what follows them, or [None] when the head of [s] is no
    well-formed encoding (the rune is then [RuneError] and its width one
    byte).  A second byte is held to the range its first byte allows, which
    excludes the encodings that are too long, the surrogates and the runes
    beyond U+10FFFF. *)
Definition DecodeRune8 (s : string) : option (string * string) :=
  match s with
  | String c0 r =>
      let n := Z.of_nat (nat_of_ascii c0) in
      if (194 <=? n) && (n <=? 223) then
        match r with
        | String c1 r1 =>
            if between 128 191 c1 then Some (String c0 (String c1 EmptyString), r1)
            else None
        | _ => None
        end
      else if (224 <=? n) && (n <=? 239) then
        let lo := if n =? 224 then 160 else 128 in
        let hi := if n =? 237 then 159 else 191 in
        match r with
        | String c1 (String c2 r2) =>
            if between lo hi c1 && between 128 191 c2
            then Some (String c0 (String c1 (String c2 EmptyString)), r2)
            else None
        | _ => None
        end
      else if (240 <=? n) && (n <=? 244) then
        let lo := if n =? 240 then 144 else 128 in
        let hi := if n =? 244 then 143 else 191 in
        match r with
        | String c1 (String c2 (String c3 r3)) =>
            if between lo hi c1 && between 128 191 c2 && between 128 191 c3
            then Some (String c0 (String c1 (String c2 (String c3 EmptyString))), r3)
            else None
        | _ => None
        end
      else None
  | EmptyString => None
  end.

Definition isSurrogate (r : Z) : bool := (55296 <=? r) && (r <? 57344).

(** [utf16.DecodeRune]. *)
Definition DecodeRune (r1 r2 : Z) : Z :=
  if (55296 <=? r1) && (r1 <? 56320) && (56320 <=? r2) && (r2 <? 57344)
  then (r1 - 55296) * 1024 + (r2 - 56320) + 65536
  else RuneError.

Definition simpleEscape (c : ascii) : option ascii :=
  match c with
  | "034"%char => Some "034"%char
  | "\"%char => Some "\"%char
  | "/"%char => Some "/"%char
  | "b"%char => Some "008"%char
  | "f"%char => Some "012"%char
  | "n"%char => Some "010"%char
  | "r"%char => Some "013"%char
  | "t"%char => Some "009"%char
  | _ => None
  end.

(** The body of a string literal, the opening quote already read: the
    decoded text and what follows the closing quote.  Bytes that are not
    well-formed UTF-8 are replaced by the encoding of [RuneError], one for
    each byte. *)
Fixpoint stringLit (fuel : nat) (s : string) : option (string * string) :=
  match fuel with
  | O => None
  | S fuel =>
      match s with
      | EmptyString => None
      | String "034"%char r => Some (EmptyString, r)
      | String "\"%char (String "u"%char r) =>
          match hex4 r with
          | None => None
          | Some (rr, r1) =>
              let '(rune, r2) :=
                if isSurrogate rr then
                  match getu4 r1 with
                  | Some (rr1, r2) =>
                      if DecodeRune rr rr1 =? RuneError then (RuneError, r1)
                      else (DecodeRune rr rr1, r2)
                  | None => (RuneError, r1)
                  end
                else (rr, r1) in
              match stringLit fuel r2 with
              | Some (t, rest) => Some (EncodeRune rune ++ t, rest)
              | None => None
              end
          end
      | String "\"%char (String c r) =>
          match simpleEscape c, stringLit fuel r with
          | Some c', Some (t, rest) => Some (String c' t, rest)
          | _, _ => None
          end
      | String c r =>
          if Z.of_nat (nat_of_ascii c) <? 32 then None
          else if Z.of_nat (nat_of_ascii c) <? 128 then
            match stringLit fuel r with
            | Some (t, rest) => Some (String c t, rest)
            | None => None
            end
          else
            let '(enc, r') :=
              match DecodeRune8 s with
              | Some (enc, r') => (enc, r')
              | None => (EncodeRune RuneError, r)
              end in
            match stringLit fuel r' with
            | Some (t, rest) => Some (enc ++ t, rest)
            | None => None
            end
      end
  end.

Definition keyword (rest : string) (v : tree) (s : string) : option (tree * string) :=
  match stripPrefix rest s with
  | Some r => Some (v, r)
  | None => None
  end.

(** The scanner refuses the array or object that would be nested deeper
    than this. *)
Definition maxNestingDepth : Z := 10000.

(** One value, then the elements of an array and the members of an object
    after the opening bracket.  Each returns what follows the value.
    [depth] is the number of arrays and objects open around the value.  The
    recursion is on [fuel], of which a step needs no more than the bytes it
    reads ([scanner_enough]). *)
Fixpoint value_ (fuel : nat) (depth : Z) (s : string) {struct fuel}
  : option (tree * string) :=
  match fuel with
  | O => None
  | S fuel =>
      match skipSpace s with
      | EmptyString => None
      | String "n"%char r => keyword "ull" TNull r
      | String "t"%char r => keyword "rue" (TBool true) r
      | String "f"%char r => keyword "alse" (TBool false) r
      | String "034"%char r =>
          match stringLit (String.length r) r with
          | Some (t, r') => Some (TString t, r')
          | None => None
          end
      | String "["%char r =>
          if maxNestingDepth <=? depth then None else
          match skipSpace r with
          | String "]"%char r' => Some (TArray [], r')
          | _ => array_ fuel (depth + 1) r []
          end
      | String "{"%char r =>
          if maxNestingDepth <=? depth then None else
          match skipSpace r with
          | String "}"%char r' => Some (TObject [], r')
          | _ => object_ fuel (depth + 1) r []
          end
      | s' =>
          match number s' with
          | Some (lit, r) => Some (TNumber lit, r)
          | None => None
          end
      end
  end
with array_ (fuel : nat) (depth : Z) (s : string) (acc : list tree) {struct fuel}
  : option (tree * string) :=
  match fuel with
  | O => None
  | S fuel =>
      match value_ fuel depth s with
      | None => None
      | Some (v, r) =>
          match skipSpace r with
          | String ","%char r' => array_ fuel depth r' (acc ++ [v])
          | String "]"%char r' => Some (TArray (acc ++ [v]), r')
          | _ => None
          end
      end
  end
with object_ (fuel : nat) (depth : Z) (s : string) (acc : list (string * tree))
    {struct fuel} : option (tree * string) :=
  match fuel with
  | O => None
  | S fuel =>
      match skipSpace s with
      | String "034"%char r =>
          match stringLit (String.length r) r with
          | None => None
          | Some (k, r1) =>
              match skipSpace r1 with
              | String ":"%char r2 =>
                  match value_ fuel depth r2 with
                  | None => None
                  | Some (v, r3) =>
                      match skipSpace r3 with
                      | String ","%char r4 => object_ fuel depth r4 (acc ++ [(k, v)])
                      | String "}"%char r4 => Some (TObject (acc ++ [(k, v)]), r4)
                      | _ => None
                      end
                  end
              | _ => None
              end
          end
      | _ => None
      end
  end.

(** The first pass: one value, surrounded by optional white space, and
    nothing after it. *)
Definition scan (data : string) : option tree :=
  match value_ (S (String.length data)) 0 data with
  | Some (t, r) =>
      match skipSpace r with
      | EmptyString => Some t
      | _ => None
      end
  | None => None
  end.

(** [json.Valid]: the text passes the scanner. *)
Definition Valid (data : string) : bool :=
  match scan data with Some _ => true | None => false end.

(** [convertNumber]: the float64 of a number literal. *)
Definition convertNumber (lit : string) : result float64 :=
  match strconv.ParseFloat lit with
  | OK f => OK f
  | Err _ => Err (UnmarshalTypeError ("number " ++ lit))
  end.

(** The loops of the second pass over the elements of an array and the
    members of an object; [conv] is [convert] itself.  A later member
    replaces an earlier one with the same key. *)
Definition elements (conv : tree -> result value) :=
  fix loop (l : list tree) : result (list value) :=
    match l with
    | [] => OK []
    | x :: rest => v <-- conv x ;; vs <-- loop rest ;; OK (v :: vs)
    end.

Definition members (conv : tree -> result value) :=
  fix loop (l : list (string * tree)) (acc : gmap string value)
    : result (gmap string value) :=
    match l with
    | [] => OK acc
    | (k, x) :: rest => v <-- conv x ;; loop rest (<[k := v]> acc)
    end.

(** The second pass: the value of a tree, or the error of the first number
    in the order of the text that is no float64. *)
Fixpoint convert (t : tree) : result value :=
  match t with
  | TNull => OK VNil
  | TBool b => OK (VBool b)
  | TNumber lit => f <-- convertNumber lit ;; OK (VNumber f)
  | TString s => OK (VString s)
  | TArray l => vs <-- elements convert l ;; OK (VArray vs)
  | TObject l => m <-- members convert l ∅ ;; OK (VObject m)
  end.

(** [json.Unmarshal(data, &v)] for [v] an empty interface. *)
Definition Unmarshal (data : string) : result value :=
  match scan data with
  | Some t => convert t
  | None => Err SyntaxError
  end.

End json.

(** ** Package reflect

    A [reflect.Type] is modelled by the data the generator can observe of
    it: its kind, the element type of a composite, the fields of a struct,
    and its identity.  Two Go types are identical exactly when their
    descriptors are equal: a defined type carries its package path and name,
    a type literal is identified by its structure. *)

Module reflect.

Inductive Kind :=
| Invalid | Bool | Int | Int8 | Int16 | Int32 | Int64
| Uint | Uint8 | Uint16 | Uint32 | Uint64 | Uintptr
| Float32 | Float64 | Complex64 | Complex128
| Array | Chan | Func | Interface | Map | Ptr | Slice | String | Struct
| UnsafePointer.

(** [Kind.String]. *)
Definition Kind_String (k : Kind) : string :=
  match k with
  | Invalid => "invalid" | Bool => "bool" | Int => "int" | Int8 => "int8"
  | Int16 => "int16" | Int32 => "int32" | Int64 => "int64" | Uint => "uint"
  | Uint8 => "uint8" | Uint16 => "uint16" | Uint32 => "uint32"
  | Uint64 => "uint64" | Uintptr => "uintptr" | Float32 => "float32"
  | Float64 => "float64" | Complex64 => "complex64"
  | Complex128 => "complex128" | Array => "array" | Chan => "chan"
  | Func => "func" | Interface => "interface" | Map => "map" | Ptr => "ptr"
  | Slice => "slice" | String => "string" | Struct => "struct"
  | UnsafePointer => "unsafe.Pointer"
  end.

(** The types without inner structure. *)
Inductive basic :=
| bool_t | int_t | int8_t | int16_t | int32_t | int64_t
| uint_t | uint8_t | uint16_t | uint32_t | uint64_t | uintptr_t
| float32_t | float64_t | complex64_t | complex128_t
| string_t | unsafe_pointer_t.

Definition basic_Kind (b : basic) : Kind :=
  match b with
  | bool_t => Bool | int_t => Int | int8_t => Int8 | int16_t => Int16
  | int32_t => Int32 | int64_t => Int64 | uint_t => Uint | uint8_t => Uint8
  | uint16_t => Uint16 | uint32_t => Uint32 | uint64_t => Uint64
  | uintptr_t => Uintptr | float32_t => Float32 | float64_t => Float64
  | complex64_t => Complex64 | complex128_t => Complex128
  | string_t => String | unsafe_pointer_t => UnsafePointer
  end.

(** What every type descriptor records of its own name: [PkgPath()] and
    [Name()], both empty for a type literal, and [String()]. *)
Record rtype := { pkgPath : string; name : string; str : string }.

(** A struct tag as the list of its [key:"value"] pairs, in the order they
    are written. *)
Definition StructTag := list (string * string).

(** [StructTag.Lookup]: the value of the first pair with that key. *)
Fixpoint Lookup (tag : StructTag) (key : string) : option string :=
  match tag with
  | [] => None
  | (k, v) :: rest => if String.eqb k key then Some v else Lookup rest key
  end.

(** [StructTag.Get]: as [Lookup], the empty string when the key is absent. *)
Definition Get (tag : StructTag) (key : string) : string :=
  match Lookup tag key with
  | Some v => v
  | None => EmptyString
  end.

Inductive Type_ :=
| TBasic (h : rtype) (b : basic)
| TArray (h : rtype) (len : N) (elem : Type_)
| TSlice (h : rtype) (elem : Type_)
| TPtr (h : rtype) (elem : Type_)
| TMap (h : rtype) (key elem : Type_)
| TChan (h : rtype) (elem : Type_)
| TFunc (h : rtype)
| TInterface (h : rtype)
| TStruct (h : rtype) (fields : list StructField)
with StructField :=
| mkField (Name : string) (Typ : Type_) (Tag : StructTag).

Definition Name (f : StructField) : string := let 'mkField n _ _ := f in n.
Definition Typ (f : StructField) : Type_ := let 'mkField _ t _ := f in t.
Definition Tag (f : StructField) : StructTag := let 'mkField _ _ g := f in g.

Definition header (t : Type_) : rtype :=
  match t with
  | TBasic h _ | TArray h _ _ | TSlice h _ | TPtr h _ | TMap h _ _
  | TChan h _ | TFunc h | TInterface h | TStruct h _ => h
  end.

(** [Type.Kind]. *)
Definition Kind_ (t : Type_) : Kind :=
  match t with
  | TBasic _ b => basic_Kind b
  | TArray _ _ _ => Array
  | TSlice _ _ => Slice
  | TPtr _ _ => Ptr
  | TMap _ _ _ => Map
  | TChan _ _ => Chan
  | TFunc _ => Func
  | TInterface _ => Interface
  | TStruct _ _ => Struct
  end.

(** [Type.String]. *)
Definition String_ (t : Type_) : string := str (header t).

Definition rtype_eqb (h h' : rtype) : bool :=
  String.eqb (pkgPath h) (pkgPath h') && String.eqb (name h) (name h')
  && String.eqb (str h) (str h').

Definition basic_eqb (a b : basic) : bool :=
  match a, b with
  | bool_t, bool_t | int_t, int_t | int8_t, int8_t | int16_t, int16_t
  | int32_t, int32_t | int64_t, int64_t | uint_t, uint_t | uint8_t, uint8_t
  | uint16_t, uint16_t | uint32_t, uint32_t | uint64_t, uint64_t
  | uintptr_t, uintptr_t | float32_t, float32_t | float64_t, float64_t
  | complex64_t, complex64_t | complex128_t, complex128_t
  | string_t, string_t | unsafe_pointer_t, unsafe_pointer_t => true
  | _, _ => false
  end.

Fixpoint StructTag_eqb (a b : StructTag) : bool :=
  match a, b with
  | [], [] => true
  | (k, v) :: a', (k', v') :: b' =>
      String.eqb k k' && String.eqb v v' && StructTag_eqb a' b'
  | _, _ => false
  end.

(** Comparison of two [reflect.Type] values with [==]: identity of types. *)
Fixpoint Type_eqb (t u : Type_) {struct t} : bool :=
  match t, u with
  | TBasic h b, TBasic h' b' => rtype_eqb h h' && basic_eqb b b'
  | TArray h n e, TArray h' n' e' => rtype_eqb h h' && N.eqb n n' && Type_eqb e e'
  | TSlice h e, TSlice h' e' => rtype_eqb h h' && Type_eqb e e'
  | TPtr h e, TPtr h' e' => rtype_eqb h h' && Type_eqb e e'
  | TMap h k e, TMap h' k' e' => rtype_eqb h h' && Type_eqb k k' && Type_eqb e e'
  | TChan h e, TChan h' e' => rtype_eqb h h' && Type_eqb e e'
  | TFunc h, TFunc h' => rtype_eqb h h'
  | TInterface h, TInterface h' => rtype_eqb h h'
  | TStruct h fs, TStruct h' fs' =>
      rtype_eqb h h' &&
      (fix fields_eqb (fs fs' : list StructField) {struct fs} : bool :=
         match fs, fs' with
         | [], [] => true
         | mkField n t g :: r, mkField n' t' g' :: r' =>
             String.eqb n n' && Type_eqb t t' && StructTag_eqb g g'
             && fields_eqb r r'
         | _, _ => false
         end) fs fs'
  | _, _ => false
  end.

End reflect.

(** ** The schema

    [Schema] of schema.go, field by field.  A [*int] is an [option Z], the
    [*Schema] of [Items] an [option Schema]; [Properties], [Required] and
    [Enum] are [None] while the Go field is nil; [Default] and [Example]
    are [VNil] while the interface is nil. *)
Inductive Schema := mkSchema {
  Type_ : string;
  Description : string;
  Items : option Schema;
  Properties : option (gmap string Schema);
  Required : option (list string);
  Format : string;
  Enum : option (list value);
  Default : value;
  Example : value;
  Minimum : option Z;
  ExclusiveMinimum : option Z;
  Maximum : option Z;
  ExclusiveMaximum : option Z;
  MultipleOf : Z;
  MinLength : option Z;
  MaxLength : option Z;
  Pattern : string;
  MinItems : option Z;
  MaxItems : option Z;
  UniqueItems : bool;
  MinProperties : option Z;
  MaxProperties : option Z
}.

(** [Schema{}], every field at its zero value. *)
Definition emptySchema : Schema :=
  mkSchema "" "" None None None "" None VNil VNil None None None None 0
           None None "" None None false None None.

(** The assignments [s.F = v], one per field that the generator writes. *)
Definition set_Type_ (v : string) (s : Schema) : Schema :=
  let 'mkSchema _ x1 x2 x3 x4 x5 x6 x7 x8 x9 x10 x11 x12 x13 x14 x15 x16 x17 x18 x19 x20 x21 := s in
  mkSchema v x1 x2 x3 x4 x5 x6 x7 x8 x9 x10 x11 x12 x13 x14 x15 x16 x17 x18 x19 x20 x21.
Definition set_Description (v : string) (s : Schema) : Schema :=
  let 'mkSchema x0 _ x2 x3 x4 x5 x6 x7 x8 x9 x10 x11 x12 x13 x14 x15 x16 x17 x18 x19 x20 x21 := s in
  mkSchema x0 v x2 x3 x4 x5 x6 x7 x8 x9 x10 x11 x12 x13 x14 x15 x16 x17 x18 x19 x20 x21.
Definition set_Items (v : option Schema) (s : Schema) : Schema :=
  let 'mkSchema x0 x1 _ x3 x4 x5 x6 x7 x8 x9 x10 x11 x12 x13 x14 x15 x16 x17 x18 x19 x20 x21 := s in
  mkSchema x0 x1 v x3 x4 x5 x6 x7 x8 x9 x10 x11 x12 x13 x14 x15 x16 x17 x18 x19 x20 x21.
Definition set_Properties (v : option (gmap string Schema)) (s : Schema) : Schema :=
  let 'mkSchema x0 x1 x2 _ x4 x5 x6 x7 x8 x9 x10 x11 x12 x13 x14 x15 x16 x17 x18 x19 x20 x21 := s in
  mkSchema x0 x1 x2 v x4 x5 x6 x7 x8 x9 x10 x11 x12 x13 x14 x15 x16 x17 x18 x19 x20 x21.
Definition set_Required (v : option (list string)) (s : Schema) : Schema :=
  let 'mkSchema x0 x1 x2 x3 _ x5 x6 x7 x8 x9 x10 x11 x12 x13 x14 x15 x16 x17 x18 x19 x20 x21 := s in
  mkSchema x0 x1 x2 x3 v x5 x6 x7 x8 x9 x10 x11 x12 x13 x14 x15 x16 x17 x18 x19 x20 x21.
Definition set_Format (v : string) (s : Schema) : Schema :=
  let 'mkSchema x0 x1 x2 x3 x4 _ x6 x7 x8 x9 x10 x11 x12 x13 x14 x15 x16 x17 x18 x19 x20 x21 := s in
  mkSchema x0 x1 x2 x3 x4 v x6 x7 x8 x9 x10 x11 x12 x13 x14 x15 x16 x17 x18 x19 x20 x21.
Definition set_Enum (v : option (list value)) (s : Schema) : Schema :=
  let 'mkSchema x0 x1 x2 x3 x4 x5 _ x7 x8 x9 x10 x11 x12 x13 x14 x15 x16 x17 x18 x19 x20 x21 := s in
  mkSchema x0 x1 x2 x3 x4 x5 v x7 x8 x9 x10 x11 x12 x13 x14 x15 x16 x17 x18 x19 x20 x21.
Definition set_Default (v : value) (s : Schema) : Schema :=
  let 'mkSchema x0 x1 x2 x3 x4 x5 x6 _ x8 x9 x10 x11 x12 x13 x14 x15 x16 x17 x18 x19 x20 x21 := s in
  mkSchema x0 x1 x2 x3 x4 x5 x6 v x8 x9 x10 x11 x12 x13 x14 x15 x16 x17 x18 x19 x20 x21.
Definition set_Example (v : value) (s : Schema) : Schema :=
  let 'mkSchema x0 x1 x2 x3 x4 x5 x6 x7 _ x9 x10 x11 x12 x13 x14 x15 x16 x17 x18 x19 x20 x21 := s in
  mkSchema x0 x1 x2 x3 x4 x5 x6 x7 v x9 x10 x11 x12 x13 x14 x15 x16 x17 x18 x19 x20 x21.
Definition set_Minimum (v : option Z) (s : Schema) : Schema :=
  let 'mkSchema x0 x1 x2 x3 x4 x5 x6 x7 x8 _ x10 x11 x12 x13 x14 x15 x16 x17 x18 x19 x20 x21 := s in
  mkSchema x0 x1 x2 x3 x4 x5 x6 x7 x8 v x10 x11 x12 x13 x14 x15 x16 x17 x18 x19 x20 x21.
Definition set_ExclusiveMinimum (v : option Z) (s : Schema) : Schema :=
  let 'mkSchema x0 x1 x2 x3 x4 x5 x6 x7 x8 x9 _ x11 x12 x13 x14 x15 x16 x17 x18 x19 x20 x21 := s in
  mkSchema x0 x1 x2 x3 x4 x5 x6 x7 x8 x9 v x11 x12 x13 x14 x15 x16 x17 x18 x19 x20 x21.
Definition set_Maximum (v : option Z) (s : Schema) : Schema :=
  let 'mkSchema x0 x1 x2 x3 x4 x5 x6 x7 x8 x9 x10 _ x12 x13 x14 x15 x16 x17 x18 x19 x20 x21 := s in
  mkSchema x0 x1 x2 x3 x4 x5 x6 x7 x8 x9 x10 v x12 x13 x14 x15 x16 x17 x18 x19 x20 x21.
Definition set_ExclusiveMaximum (v : option Z) (s : Schema) : Schema :=
  let 'mkSchema x0 x1 x2 x3 x4 x5 x6 x7 x8 x9 x10 x11 _ x13 x14 x15 x16 x17 x18 x19 x20 x21 := s in
  mkSchema x0 x1 x2 x3 x4 x5 x6 x7 x8 x9 x10 x11 v x13 x14 x15 x16 x17 x18 x19 x20 x21.
Definition set_MultipleOf (v : Z) (s : Schema) : Schema :=
  let 'mkSchema x0 x1 x2 x3 x4 x5 x6 x7 x8 x9 x10 x11 x12 _ x14 x15 x16 x17 x18 x19 x20 x21 := s in
  mkSchema x0 x1 x2 x3 x4 x5 x6 x7 x8 x9 x10 x11 x12 v x14 x15 x16 x17 x18 x19 x20 x21.
Definition set_MinLength (v : option Z) (s : Schema) : Schema :=
  let 'mkSchema x0 x1 x2 x3 x4 x5 x6 x7 x8 x9 x10 x11 x12 x13 _ x15 x16 x17 x18 x19 x20 x21 := s in
  mkSchema x0 x1 x2 x3 x4 x5 x6 x7 x8 x9 x10 x11 x12 x13 v x15 x16 x17 x18 x19 x20 x21.
Definition set_MaxLength (v : option Z) (s : Schema) : Schema :=
  let 'mkSchema x0 x1 x2 x3 x4 x5 x6 x7 x8 x9 x10 x11 x12 x13 x14 _ x16 x17 x18 x19 x20 x21 := s in
  mkSchema x0 x1 x2 x3 x4 x5 x6 x7 x8 x9 x10 x11 x12 x13 x14 v x16 x17 x18 x19 x20 x21.
Definition set_Pattern (v : string) (s : Schema) : Schema :=
  let 'mkSchema x0 x1 x2 x3 x4 x5 x6 x7 x8 x9 x10 x11 x12 x13 x14 x15 _ x17 x18 x19 x20 x21 := s in
  mkSchema x0 x1 x2 x3 x4 x5 x6 x7 x8 x9 x10 x11 x12 x13 x14 x15 v x17 x18 x19 x20 x21.
Definition set_MinItems (v : option Z) (s : Schema) : Schema :=
  let 'mkSchema x0 x1 x2 x3 x4 x5 x6 x7 x8 x9 x10 x11 x12 x13 x14 x15 x16 _ x18 x19 x20 x21 := s in
  mkSchema x0 x1 x2 x3 x4 x5 x6 x7 x8 x9 x10 x11 x12 x13 x14 x15 x16 v x18 x19 x20 x21.
Definition set_MaxItems (v : option Z) (s : Schema) : Schema :=
  let 'mkSchema x0 x1 x2 x3 x4 x5 x6 x7 x8 x9 x10 x11 x12 x13 x14 x15 x16 x17 _ x19 x20 x21 := s in
  mkSchema x0 x1 x2 x3 x4 x5 x6 x7 x8 x9 x10 x11 x12 x13 x14 x15 x16 x17 v x19 x20 x21.
Definition set_UniqueItems (v : bool) (s : Schema) : Schema :=
  let 'mkSchema x0 x1 x2 x3 x4 x5 x6 x7 x8 x9 x10 x11 x12 x13 x14 x15 x16 x17 x18 _ x20 x21 := s in
  mkSchema x0 x1 x2 x3 x4 x5 x6 x7 x8 x9 x10 x11 x12 x13 x14 x15 x16 x17 x18 v x20 x21.
Definition set_MinProperties (v : option Z) (s : Schema) : Schema :=
  let 'mkSchema x0 x1 x2 x3 x4 x5 x6 x7 x8 x9 x10 x11 x12 x13 x14 x15 x16 x17 x18 x19 _ x21 := s in
  mkSchema x0 x1 x2 x3 x4 x5 x6 x7 x8 x9 x10 x11 x12 x13 x14 x15 x16 x17 x18 x19 v x21.
Definition set_MaxProperties (v : option Z) (s : Schema) : Schema :=
  let 'mkSchema x0 x1 x2 x3 x4 x5 x6 x7 x8 x9 x10 x11 x12 x13 x14 x15 x16 x17 x18 x19 x20 _ := s in
  mkSchema x0 x1 x2 x3 x4 x5 x6 x7 x8 x9 x10 x11 x12 x13 x14 x15 x16 x17 x18 x19 x20 v.

(** ** The special types

    The descriptors behind the package variables [timeType], [ipType],
    [uriType] and [byteSliceType], with the fields the standard library
    declares (as of Go 1.19). *)

Definition literal (s : string) : reflect.rtype :=
  {| reflect.pkgPath := ""; reflect.name := ""; reflect.str := s |}.
Definition predeclared (s : string) : reflect.rtype :=
  {| reflect.pkgPath := ""; reflect.name := s; reflect.str := s |}.
Definition defined (pkg short n : string) : reflect.rtype :=
  {| reflect.pkgPath := pkg; reflect.name := n; reflect.str := short ++ "." ++ n |}.

Definition boolType := reflect.TBasic (predeclared "bool") reflect.bool_t.
Definition intType := reflect.TBasic (predeclared "int") reflect.int_t.
Definition int64Type := reflect.TBasic (predeclared "int64") reflect.int64_t.
Definition uint8Type := reflect.TBasic (predeclared "uint8") reflect.uint8_t.
Definition uint64Type := reflect.TBasic (predeclared "uint64") reflect.uint64_t.
Definition stringType := reflect.TBasic (predeclared "string") reflect.string_t.

Definition field (n : string) (t : reflect.Type_) : reflect.StructField :=
  reflect.mkField n t [].

Definition zoneType : reflect.Type_ :=
  reflect.TStruct (defined "time" "time" "zone")
    [field "name" stringType; field "offset" intType; field "isDST" boolType].
Definition zoneTransType : reflect.Type_ :=
  reflect.TStruct (defined "time" "time" "zoneTrans")
    [field "when" int64Type; field "index" uint8Type;
     field "isstd" boolType; field "isutc" boolType].
Definition locationType : reflect.Type_ :=
  reflect.TStruct (defined "time" "time" "Location")
    [field "name" stringType;
     field "zone" (reflect.TSlice (literal "[]time.zone") zoneType);
     field "tx" (reflect.TSlice (literal "[]time.zoneTrans") zoneTransType);
     field "extend" stringType;
     field "cacheStart" int64Type; field "cacheEnd" int64Type;
     field "cacheZone" (reflect.TPtr (literal "*time.zone") zoneType)].
Definition userinfoType : reflect.Type_ :=
  reflect.TStruct (defined "net/url" "url" "Userinfo")
    [field "username" stringType; field "password" stringType;
     field "passwordSet" boolType].

Definition timeType : reflect.Type_ :=
  reflect.TStruct (defined "time" "time" "Time")
    [field "wall" uint64Type; field "ext" int64Type;
     field "loc" (reflect.TPtr (literal "*time.Location") locationType)].
Definition ipType : reflect.Type_ :=
  reflect.TSlice (defined "net" "net" "IP") uint8Type.
Definition uriType : reflect.Type_ :=
  reflect.TStruct (defined "net/url" "url" "URL")
    [field "Scheme" stringType; field "Opaque" stringType;
     field "User" (reflect.TPtr (literal "*url.Userinfo") userinfoType);
     field "Host" stringType; field "Path" stringType;
     field "RawPath" stringType; field "OmitHost" boolType;
     field "ForceQuery" boolType; field "RawQuery" stringType;
     field "Fragment" stringType; field "RawFragment" stringType].
Definition byteSliceType : reflect.Type_ :=
  reflect.TSlice (literal "[]uint8") uint8Type.

(** ** getTagValue *)

(** A value of the schema's type for the given tag string: the string
    itself for a string schema, the decoded JSON text otherwise. *)
Definition getTagValue (s : Schema) (text : string) : result value :=
  if String.eqb (Type_ s) "string" then OK (VString text)
  else json.Unmarshal text.

(** ** The tags of a struct field

    The run of [if t, ok := f.Tag.Lookup(key); ok { ... }] blocks of the
    field loop, in the order of the source.  [s] is the schema the field's
    type produced; each block either writes one field of it or returns the
    error of the conversion. *)

(** [if t, ok := tag.Lookup(key); ok { body }]. *)
Definition whenTag (tag : reflect.StructTag) (key : string)
    (body : string -> Schema -> result Schema) (s : Schema) : result Schema :=
  match reflect.Lookup tag key with
  | Some t => body t s
  | None => OK s
  end.

(** The body shared by the integer-valued keys: [strconv.Atoi], then the
    assignment. *)
Definition atoi {A} (set : A -> Schema -> Schema) (inj : Z -> A)
    (t : string) (s : Schema) : result Schema :=
  n <-- strconv.Atoi t ;; OK (set (inj n) s).

(** The loop over the pieces of the [enum] tag; [acc] is [s.Enum]. *)
Fixpoint enumValues (s : Schema) (parts : list string) (acc : list value)
  : result (list value) :=
  match parts with
  | [] => OK acc
  | v :: rest =>
      parsed <-- getTagValue s v ;;
      enumValues s rest (acc ++ [parsed])%list
  end.

Definition applyTags (tag : reflect.StructTag) (s : Schema) : result Schema :=
  s <-- whenTag tag "description" (fun t s => OK (set_Description t s)) s ;;
  s <-- whenTag tag "format" (fun t s => OK (set_Format t s)) s ;;
  s <-- whenTag tag "enum" (fun t s =>
          vs <-- enumValues s (strings.Split t ",") [] ;;
          OK (set_Enum (Some vs) s)) s ;;
  s <-- whenTag tag "default" (fun t s =>
          v <-- getTagValue s t ;; OK (set_Default v s)) s ;;
  s <-- whenTag tag "example" (fun t s =>
          v <-- getTagValue s t ;; OK (set_Example v s)) s ;;
  s <-- whenTag tag "minimum" (atoi set_Minimum Some) s ;;
  s <-- whenTag tag "exclusiveMinimum" (atoi set_ExclusiveMinimum Some) s ;;
  s <-- whenTag tag "maximum" (atoi set_Maximum Some) s ;;
  s <-- whenTag tag "exclusiveMaximum" (atoi set_ExclusiveMaximum Some) s ;;
  s <-- whenTag tag "multipleOf" (atoi set_MultipleOf id) s ;;
  s <-- whenTag tag "minLength" (atoi set_MinLength Some) s ;;
  s <-- whenTag tag "maxLength" (atoi set_MaxLength Some) s ;;
  s <-- whenTag tag "pattern" (fun t s => OK (set_Pattern t s)) s ;;
  s <-- whenTag tag "minItems" (atoi set_MinItems Some) s ;;
  s <-- whenTag tag "maxItems" (atoi set_MaxItems Some) s ;;
  s <-- whenTag tag "uniqueItems" (fun t s =>
          OK (set_UniqueItems (String.eqb t "true") s)) s ;;
  s <-- whenTag tag "minProperties" (atoi set_MinProperties Some) s ;;
  whenTag tag "maxProperties" (atoi set_MaxProperties Some) s.

(** ** GenerateSchema *)

(** [strings.Split(f.Tag.Get("json"), ",")]. *)
Definition jsonTags (f : reflect.StructField) : list string :=
  strings.Split (reflect.Get (reflect.Tag f) "json") ",".

(** The property name of a field: the field's name, replaced by the first
    piece of the json tag when the list of pieces is not empty. *)
Definition fieldName (f : reflect.StructField) : string :=
  match jsonTags f with
  | first :: _ => first
  | [] => reflect.Name f
  end.

(** Whether one of the pieces after the first is [omitempty]. *)
Definition fieldOptional (f : reflect.StructField) : bool :=
  existsb (fun tag => String.eqb tag "omitempty") (drop 1 (jsonTags f)).

(** The loop over the fields of a struct.  [gen] is [GenerateSchema]
    itself; [properties] and [required] are the two variables the loop
    fills.  The map entry is written before the tags are read, but it holds
    the pointer [s], so the entry is the schema after every tag of the
    field has been applied; an error drops both variables. *)
Definition structFields (gen : reflect.Type_ -> result Schema) :=
  fix loop (fs : list reflect.StructField) (properties : gmap string Schema)
      (required : list string) {struct fs}
    : result (gmap string Schema * list string) :=
    match fs with
    | [] => OK (properties, required)
    | f :: rest =>
        s <-- gen (reflect.Typ f) ;;
        s <-- applyTags (reflect.Tag f) s ;;
        loop rest (<[fieldName f := s]> properties)
             (if fieldOptional f then required else (required ++ [fieldName f])%list)
    end.

(** The end of the struct case: [properties] and [required] are stored in
    the schema only when they are not empty. *)
Definition attach (properties : gmap string Schema) (required : list string)
    (schema : Schema) : Schema :=
  let schema :=
    if (0 <? size properties)%nat then set_Properties (Some properties) schema
    else schema in
  if (0 <? length required)%nat then set_Required (Some required) schema
  else schema.

Definition stringSchema (format : string) : Schema :=
  set_Format format (set_Type_ "string" emptySchema).

(** [GenerateSchema]: the IP type first; then the switch on the kind, in
    which the struct case tests for the time and the URL type before it
    walks the fields.  The recursion follows the descriptor, which is a
    finite tree: a Go type that refers to itself, on which the Go function
    does not return, has no descriptor here. *)
Fixpoint GenerateSchema (t : reflect.Type_) : result Schema :=
  let schema := emptySchema in
  if reflect.Type_eqb t ipType then OK (stringSchema "ipv4") else
  match t with
  | reflect.TStruct _ fields =>
      if reflect.Type_eqb t timeType then OK (stringSchema "date-time")
      else if reflect.Type_eqb t uriType then OK (stringSchema "uri")
      else
        let schema := set_Type_ "object" schema in
        r <-- structFields GenerateSchema fields ∅ [] ;;
        OK (attach r.1 r.2 schema)
  | reflect.TMap _ _ _ => OK schema
  | reflect.TSlice _ elem | reflect.TArray _ _ elem =>
      let schema := set_Type_ "array" schema in
      s <-- GenerateSchema elem ;;
      OK (set_Items (Some s) schema)
  | reflect.TPtr _ elem => GenerateSchema elem
  | _ =>
      match reflect.Kind_ t with
      | reflect.Int | reflect.Int8 | reflect.Int16 | reflect.Int32 | reflect.Int64 =>
          OK (set_Type_ "integer" emptySchema)
      | reflect.Uint | reflect.Uint8 | reflect.Uint16 | reflect.Uint32
      | reflect.Uint64 =>
          OK (set_Minimum (Some 0) (set_Type_ "integer" emptySchema))
      | reflect.Float32 | reflect.Float64 => OK (set_Type_ "number" emptySchema)
      | reflect.Bool => OK (set_Type_ "boolean" emptySchema)
      | reflect.String => OK (set_Type_ "string" emptySchema)
      | k =>
          Err (Errorf ("unsupported type " ++ reflect.Kind_String k ++ " from "
                       ++ reflect.String_ t))
      end
  end.

(** ** Notions used by the statements *)

(** What the loop does with one field before it records the name: the
    schema of the field's type, then the field's tags applied to it. *)
Definition fieldSchema (f : reflect.StructField) : result Schema :=
  s <-- GenerateSchema (reflect.Typ f) ;; applyTags (reflect.Tag f) s.

(** The property names of the fields without the omitempty marker, in the
    order of declaration: the content the specification gives [required]. *)
Definition requiredNames (fs : list reflect.StructField) : list string :=
  map fieldName (filter (fun f => fieldOptional f = false) fs).

(** [T] under pointers, one per header of [hs], the outermost first:
    [*T], [**T] and so on, or defined pointer types. *)
Definition pointers (hs : list reflect.rtype) (T : reflect.Type_) : reflect.Type_ :=
  fold_right reflect.TPtr T hs.

(** The schemas of the integer kinds. *)
Definition intSchema : Schema := set_Type_ "integer" emptySchema.
Definition uintSchema : Schema :=
  set_Minimum (Some 0) (set_Type_ "integer" emptySchema).


(** The kinds without a case in the switch of [GenerateSchema]. *)
Definition unsupportedKind (k : reflect.Kind) : bool :=
  match k with
  | reflect.Invalid | reflect.Uintptr | reflect.Complex64
  | reflect.Complex128 | reflect.Chan | reflect.Func | reflect.Interface
  | reflect.UnsafePointer => true
  | _ => false
  end.

(** The tag keys whose text goes through [strconv.Atoi], and those whose
    text goes through [getTagValue] as a whole. *)
Definition integerKeys : list string :=
  ["minimum"; "exclusiveMinimum"; "maximum"; "exclusiveMaximum";
   "multipleOf"; "minLength"; "maxLength"; "minItems"; "maxItems";
   "minProperties"; "maxProperties"].
Definition literalKeys : list string := ["default"; "example"].

(** The number literals of a scanned text, in the order of the text, and
    the first text of a list that [strconv.ParseFloat] refuses. *)
Fixpoint numbers (t : json.tree) : list string :=
  match t with
  | json.TNumber lit => [lit]
  | json.TArray l => flat_map numbers l
  | json.TObject l => flat_map (fun kv => numbers (snd kv)) l
  | _ => []
  end.

Definition firstRefused (lits : list string) : option string :=
  List.find (fun lit => negb (isOK (strconv.ParseFloat lit))) lits.

(** ** The tags of a field, key by key

    What each field of the schema is after the tags have been applied,
    stated for one key at a time: the value the tag gives when the key is
    present, the value the schema had when it is absent. *)

Definition tagText (tag : reflect.StructTag) (key : string) (old : string) : string :=
  match reflect.Lookup tag key with
  | Some t => t
  | None => old
  end.

Definition tagFlag (tag : reflect.StructTag) (key : string) (old : bool) : bool :=
  match reflect.Lookup tag key with
  | Some t => String.eqb t "true"
  | None => old
  end.

Definition tagInt {A} (inj : Z -> A) (tag : reflect.StructTag) (key : string)
    (old : A) : A :=
  match reflect.Lookup tag key with
  | Some t => match strconv.Atoi t with OK n => inj n | Err _ => old end
  | None => old
  end.

Definition tagLiteral (s : Schema) (tag : reflect.StructTag) (key : string)
    (old : value) : value :=
  match reflect.Lookup tag key with
  | Some t => match getTagValue s t with OK v => v | Err _ => old end
  | None => old
  end.

Definition tagEnum (s : Schema) (tag : reflect.StructTag) (old : option (list value))
  : option (list value) :=
  match reflect.Lookup tag "enum" with
  | Some t =>
      match enumValues s (strings.Split t ",") [] with
      | OK vs => Some vs
      | Err _ => old
      end
  | None => old
  end.

(** The schema [s] with every tag of [tag] applied, each key on its own. *)
Definition tagsApplied (tag : reflect.StructTag) (s : Schema) : Schema :=
  mkSchema
    (Type_ s)
    (tagText tag "description" (Description s))
    (Items s)
    (Properties s)
    (Required s)
    (tagText tag "format" (Format s))
    (tagEnum s tag (Enum s))
    (tagLiteral s tag "default" (Default s))
    (tagLiteral s tag "example" (Example s))
    (tagInt Some tag "minimum" (Minimum s))
    (tagInt Some tag "exclusiveMinimum" (ExclusiveMinimum s))
    (tagInt Some tag "maximum" (Maximum s))
    (tagInt Some tag "exclusiveMaximum" (ExclusiveMaximum s))
    (tagInt id tag "multipleOf" (MultipleOf s))
    (tagInt Some tag "minLength" (MinLength s))
    (tagInt Some tag "maxLength" (MaxLength s))
    (tagText tag "pattern" (Pattern s))
    (tagInt Some tag "minItems" (MinItems s))
    (tagInt Some tag "maxItems" (MaxItems s))
    (tagFlag tag "uniqueItems" (UniqueItems s))
    (tagInt Some tag "minProperties" (MinProperties s))
    (tagInt Some tag "maxProperties" (MaxProperties s)).

(** The tags are well formed for the schema [s]: the text of every
    integer-valued key that is present is an integer and, unless [s] is a
    string schema, the text of [default] and of [example] and every piece
    of [enum] is a literal. *)
Definition tagsWellFormed (tag : reflect.StructTag) (s : Schema) : Prop :=
  (forall key v, In key integerKeys -> reflect.Lookup tag key = Some v ->
                 isOK (strconv.Atoi v) = true) /\
  (Type_ s <> "string" ->
   (forall key v, In key literalKeys -> reflect.Lookup tag key = Some v ->
                  isOK (json.Unmarshal v) = true) /\
   (forall v p, reflect.Lookup tag "enum" = Some v -> In p (strings.Split v ",") ->
                isOK (json.Unmarshal p) = true)).

(** The field of the schema that the block of an integer-valued key
    writes ([MultipleOf] is an [int], the others are [*int]). *)
Definition constraintOf (key : string) (s : Schema) : option Z :=
  if String.eqb key "minimum" then Minimum s
  else if String.eqb key "exclusiveMinimum" then ExclusiveMinimum s
  else if String.eqb key "maximum" then Maximum s
  else if String.eqb key "exclusiveMaximum" then ExclusiveMaximum s
  else if String.eqb key "multipleOf" then Some (MultipleOf s)
  else if String.eqb key "minLength" then MinLength s
  else if String.eqb key "maxLength" then MaxLength s
  else if String.eqb key "minItems" then MinItems s
  else if String.eqb key "maxItems" then MaxItems s
  else if String.eqb key "minProperties" then MinProperties s
  else if String.eqb key "maxProperties" then MaxProperties s
  else None.

(** Every key the field loop looks up, apart from [json]. *)
Definition recognisedKeys : list string :=
  ["description"; "format"; "enum"; "default"; "example"; "minimum";
   "exclusiveMinimum"; "maximum"; "exclusiveMaximum"; "multipleOf";
   "minLength"; "maxLength"; "pattern"; "minItems"; "maxItems";
   "uniqueItems"; "minProperties"; "maxProperties"].

(** The pieces put together again, a comma between two of them. *)
Fixpoint commaJoined (pieces : list string) : string :=
  match pieces with
  | [] => ""
  | [p] => p
  | p :: rest => p ++ "," ++ commaJoined rest
  end.

(** The text of a string value, the empty string for any other value. *)
Definition textOf (v : value) : string :=
  match v with VString t => t | _ => "" end.

(** The last field of [fs] whose property name is [n]. *)
Fixpoint lastNamed (n : string) (fs : list reflect.StructField)
  : option reflect.StructField :=
  match fs with
  | [] => None
  | f :: rest =>
      match lastNamed n rest with
      | Some g => Some g
      | None => if String.eqb (fieldName f) n then Some f else None
      end
  end.

(** The schema of a result, when there is one. *)
Definition schemaOf (r : result Schema) : option Schema :=
  match r with OK s => Some s | Err _ => None end.

(** [g] is the field [f] with its type under zero or more pointers. *)
Definition pointerVariant (f g : reflect.StructField) : Prop :=
  reflect.Name g = reflect.Name f /\ reflect.Tag g = reflect.Tag f /\
  exists hs, reflect.Typ g = pointers hs (reflect.Typ f).

(** The shape every node of a generated schema has: items exactly on an
    array schema; properties and required names only on an object schema,
    never empty when present, every required name a key of the properties;
    and the same for the items and for every property. *)
Inductive wellShaped : Schema -> Prop :=
| wellShaped_node (s : Schema) :
    In (Type_ s) [""; "object"; "array"; "string"; "integer"; "number"; "boolean"] ->
    (Items s <> None <-> Type_ s = "array") ->
    (Properties s <> None -> Type_ s = "object") ->
    (Required s <> None -> Type_ s = "object") ->
    Properties s <> Some ∅ ->
    Required s <> Some [] ->
    (forall req n, Required s = Some req -> In n req ->
       exists props, Properties s = Some props /\ is_Some (props !! n)) ->
    (forall i, Items s = Some i -> wellShaped i) ->
    (forall props k x, Properties s = Some props -> props !! k = Some x ->
       wellShaped x) ->
    wellShaped s.

(** The errors the generator can return: the unsupported-type error of a
    kind without a case, the error of [strconv.Atoi] on the text of a tag,
    the syntax error of the decoder, and the decoder's type error for a
    number that is no float64. *)
Definition knownError (e : error) : Prop :=
  (exists k str, unsupportedKind k = true /\
     e = Errorf ("unsupported type " ++ reflect.Kind_String k ++ " from " ++ str)) \/
  (exists v k, e = NumError "Atoi" v k) \/
  e = SyntaxError \/
  (exists lit, e = UnmarshalTypeError ("number " ++ lit)).

(** The errors the tag blocks can return. *)
Definition tagError (e : error) : Prop :=
  (exists v k, e = NumError "Atoi" v k) \/ e = SyntaxError \/
  (exists lit, e = UnmarshalTypeError ("number " ++ lit)).

(** The text has no comma. *)
Fixpoint commaFree (s : string) : bool :=
  match s with
  | EmptyString => true
  | String c r => negb (Ascii.eqb c ","%char) && commaFree r
  end.

(** A schema that holds nothing a tag could have written, apart from the
    format of a special type and the minimum 0 of an unsigned type. *)
Definition untagged (s : Schema) : Prop :=
  Description s = "" /\ Enum s = None /\ Default s = VNil /\ Example s = VNil /\
  (Minimum s = None \/ Minimum s = Some 0) /\ ExclusiveMinimum s = None /\
  Maximum s = None /\ ExclusiveMaximum s = None /\ MultipleOf s = 0 /\
  MinLength s = None /\ MaxLength s = None /\ Pattern s = "" /\
  MinItems s = None /\ MaxItems s = None /\ UniqueItems s = false /\
  MinProperties s = None /\ MaxProperties s = None /\
  In (Format s) [""; "ipv4"; "date-time"; "uri"].

(** ** Sample types

    [struct { Name string }], a struct whose only field carries no tag. *)
Definition untaggedStruct : reflect.Type_ :=
  reflect.TStruct (literal "struct { Name string }") [field "Name" stringType].

(** [map[string]int]. *)
Definition mapType : reflect.Type_ :=
  reflect.TMap (literal "map[string]int") stringType intType.

(** [chan int] and [func()]. *)
Definition chanType : reflect.Type_ := reflect.TChan (literal "chan int") intType.
Definition funcType : reflect.Type_ := reflect.TFunc (literal "func()").

(** The struct of the specification's scenario:
    [struct { Name string `json:"name"`; Age int `json:"age,omitempty" minimum:"0"` }]. *)
Definition nameField : reflect.StructField :=
  reflect.mkField "Name" stringType [("json", "name")].
Definition ageField : reflect.StructField :=
  reflect.mkField "Age" intType [("json", "age,omitempty"); ("minimum", "0")].
Definition personType : reflect.Type_ :=
  reflect.TStruct (defined "main" "main" "Person") [nameField; ageField].

(** [struct { A string `json:"x"`; B int `json:"x"` }]: two fields with one
    property name. *)
Definition fieldA : reflect.StructField :=
  reflect.mkField "A" stringType [("json", "x")].
Definition fieldB : reflect.StructField :=
  reflect.mkField "B" intType [("json", "x")].
Definition collidingStruct : reflect.Type_ :=
  reflect.TStruct (defined "main" "main" "Pair") [fieldA; fieldB].

(** [struct { A string `json:"x"`; B int `json:"x,omitempty"` }]: the same
    name, required by the first field and optional by the second. *)
Definition fieldBopt : reflect.StructField :=
  reflect.mkField "B" intType [("json", "x,omitempty")].
Definition sharedNameStruct : reflect.Type_ :=
  reflect.TStruct (defined "main" "main" "Shared") [fieldA; fieldBopt].

(** Structs with one field carrying an [enum] tag:
    [E string `json:"e" enum:"a,b,c"`], [E int `json:"e" enum:"1,2,3"`] and
    [E int `json:"e" enum:"1,x,3"`]. *)
Definition enumStringField : reflect.StructField :=
  reflect.mkField "E" stringType [("json", "e"); ("enum", "a,b,c")].
Definition enumIntField : reflect.StructField :=
  reflect.mkField "E" intType [("json", "e"); ("enum", "1,2,3")].
Definition enumBadField : reflect.StructField :=
  reflect.mkField "E" intType [("json", "e"); ("enum", "1,x,3")].
Definition enumBadStruct : reflect.Type_ :=
  reflect.TStruct (defined "main" "main" "Bad") [nameField; enumBadField; ageField].

(** [struct { N float64 `json:"n" default:"1e400"` }]: a default that is a
    number literal beyond the range of a float64. *)
Definition float64Type := reflect.TBasic (predeclared "float64") reflect.float64_t.
Definition hugeDefaultStruct : reflect.Type_ :=
  reflect.TStruct (defined "main" "main" "Huge")
    [reflect.mkField "N" float64Type [("json", "n"); ("default", "1e400")]].

(** The text of [n] arrays, each the only element of the one around it. *)
Definition nested (n : positive) : string :=
  Pos.iter (String "["%char) (Pos.iter (String "]"%char) "" n) n.

(** [struct { A string; B chan int; C func() }]: two fields of unsupported
    kinds. *)
Definition unsupportedStruct : reflect.Type_ :=
  reflect.TStruct (defined "main" "main" "U")
    [field "A" stringType; field "B" chanType; field "C" funcType].

(** * Properties *)

(** ** Induction on type descriptors *)

Section Type_induction.
Variable P : reflect.Type_ -> Prop.
Hypothesis Hbasic : forall h b, P (reflect.TBasic h b).
Hypothesis Harray : forall h n e, P e -> P (reflect.TArray h n e).
Hypothesis Hslice : forall h e, P e -> P (reflect.TSlice h e).
Hypothesis Hptr : forall h e, P e -> P (reflect.TPtr h e).
Hypothesis Hmap : forall h k e, P k -> P e -> P (reflect.TMap h k e).
Hypothesis Hchan : forall h e, P e -> P (reflect.TChan h e).
Hypothesis Hfunc : forall h, P (reflect.TFunc h).
Hypothesis Hinterface : forall h, P (reflect.TInterface h).
Hypothesis Hstruct : forall h fs,
  Forall (fun f => P (reflect.Typ f)) fs -> P (reflect.TStruct h fs).

Fixpoint Type_induction (t : reflect.Type_) : P t :=
  match t with
  | reflect.TBasic h b => Hbasic h b
  | reflect.TArray h n e => Harray h n e (Type_induction e)
  | reflect.TSlice h e => Hslice h e (Type_induction e)
  | reflect.TPtr h e => Hptr h e (Type_induction e)
  | reflect.TMap h k e => Hmap h k e (Type_induction k) (Type_induction e)
  | reflect.TChan h e => Hchan h e (Type_induction e)
  | reflect.TFunc h => Hfunc h
  | reflect.TInterface h => Hinterface h
  | reflect.TStruct h fs =>
      Hstruct h fs
        ((fix each (l : list reflect.StructField)
            : Forall (fun f => P (reflect.Typ f)) l :=
            match l with
            | [] => List.Forall_nil _
            | reflect.mkField n ty g :: r =>
                List.Forall_cons _ (reflect.mkField n ty g) r (Type_induction ty) (each r)
            end) fs)
  end.
End Type_induction.

(** ** [Type_eqb] decides equality of descriptors *)

Lemma rtype_eqb_eq h h' : reflect.rtype_eqb h h' = true <-> h = h'.
Proof.
  destruct h as [p n s], h' as [p' n' s']; unfold reflect.rtype_eqb; simpl.
  rewrite !andb_true_iff, !String.eqb_eq. split.
  - intros [[-> ->] ->]; reflexivity.
  - intros [= -> -> ->]; auto.
Qed.

Lemma basic_eqb_eq a b : reflect.basic_eqb a b = true <-> a = b.
Proof. split; [destruct a, b; simpl; congruence | intros ->; destruct b; reflexivity]. Qed.

Lemma StructTag_eqb_eq a : forall b, reflect.StructTag_eqb a b = true <-> a = b.
Proof.
  induction a as [|[k v] a IH]; intros [|[k' v'] b]; simpl; split; try congruence.
  - rewrite !andb_true_iff, !String.eqb_eq, IH. intros [[-> ->] ->]; reflexivity.
  - intros [= -> -> ->]. rewrite !andb_true_iff, !String.eqb_eq, IH. auto.
Qed.

Lemma Type_eqb_eq t : forall u, reflect.Type_eqb t u = true <-> t = u.
Proof.
  induction t using Type_induction; intros u; destruct u; simpl;
    try (split; congruence);
    rewrite ?andb_true_iff, ?rtype_eqb_eq, ?basic_eqb_eq, ?N.eqb_eq,
      ?IHt, ?IHt1, ?IHt2;
    try (split; [intuition congruence | intros [= -> ->]; auto; fail]);
    try (split; [intuition congruence | intros [= -> -> ->]; auto; fail]);
    try (split; [intuition congruence | intros [= ->]; auto; fail]).
  rename fields into fs'. revert fs'.
  induction H as [|[n ty g] fs Hty Hfs IH]; intros [|[n' ty' g'] fs'];
    try (split; [intros [_ ?] | intros ?]; congruence).
  - split; [intros [-> _] | intros [= ->]]; auto.
  - rewrite !andb_true_iff, String.eqb_eq, StructTag_eqb_eq.
    simpl in Hty. rewrite Hty. split.
    + intros [-> [[[-> ->] ->] Hr]].
      assert (E : reflect.TStruct h0 fs = reflect.TStruct h0 fs').
      { apply IH. split; [reflexivity | exact Hr]. }
      injection E as ->. reflexivity.
    + intros [= -> -> -> -> ->]. repeat split.
      apply (IH fs'). reflexivity.
Qed.

(** ** The result monad *)

Lemma bind_OK {A B} (r : result A) (k : A -> result B) b :
  bind r k = OK b -> exists a, r = OK a /\ k a = OK b.
Proof. destruct r; simpl; [eauto | discriminate]. Qed.

Lemma bind_assoc {A B C} (r : result A) (k : A -> result B) (k' : B -> result C) :
  bind (bind r k) k' = bind r (fun a => bind (k a) k').
Proof. destruct r; reflexivity. Qed.

(** ** Equations of [GenerateSchema] *)

Lemma GenerateSchema_basic h b :
  GenerateSchema (reflect.TBasic h b) =
  match reflect.basic_Kind b with
  | reflect.Int | reflect.Int8 | reflect.Int16 | reflect.Int32 | reflect.Int64 =>
      OK intSchema
  | reflect.Uint | reflect.Uint8 | reflect.Uint16 | reflect.Uint32
  | reflect.Uint64 => OK uintSchema
  | reflect.Float32 | reflect.Float64 => OK (set_Type_ "number" emptySchema)
  | reflect.Bool => OK (set_Type_ "boolean" emptySchema)
  | reflect.String => OK (set_Type_ "string" emptySchema)
  | k => Err (Errorf ("unsupported type " ++ reflect.Kind_String k ++ " from "
                      ++ reflect.str h))
  end.
Proof. destruct b; reflexivity. Qed.

Lemma GenerateSchema_struct h fs :
  reflect.Type_eqb (reflect.TStruct h fs) timeType = false ->
  reflect.Type_eqb (reflect.TStruct h fs) uriType = false ->
  GenerateSchema (reflect.TStruct h fs) =
  (r <-- structFields GenerateSchema fs ∅ [] ;;
   OK (attach r.1 r.2 (set_Type_ "object" emptySchema))).
Proof.
  intros Ht Hu. cbn [GenerateSchema].
  change (reflect.Type_eqb (reflect.TStruct h fs) ipType) with false.
  cbv iota. rewrite Ht, Hu. reflexivity.
Qed.

Lemma GenerateSchema_slice h e :
  reflect.Type_eqb (reflect.TSlice h e) ipType = false ->
  GenerateSchema (reflect.TSlice h e) =
  (s <-- GenerateSchema e ;; OK (set_Items (Some s) (set_Type_ "array" emptySchema))).
Proof. intros Hi. cbn [GenerateSchema]. rewrite Hi. reflexivity. Qed.

Lemma GenerateSchema_ptr h e :
  GenerateSchema (reflect.TPtr h e) = GenerateSchema e.
Proof. reflexivity. Qed.

Lemma GenerateSchema_array h n e :
  GenerateSchema (reflect.TArray h n e) =
  (s <-- GenerateSchema e ;; OK (set_Items (Some s) (set_Type_ "array" emptySchema))).
Proof. reflexivity. Qed.

(** ** The loop over the fields *)

Lemma structFields_cons f rest p r :
  structFields GenerateSchema (f :: rest) p r =
  (s <-- fieldSchema f ;;
   structFields GenerateSchema rest (<[fieldName f := s]> p)
     (if fieldOptional f then r else (r ++ [fieldName f])%list)).
Proof.
  unfold fieldSchema. cbn [structFields].
  destruct (GenerateSchema (reflect.Typ f)); reflexivity.
Qed.

Lemma structFields_app l1 : forall l2 p r,
  structFields GenerateSchema (l1 ++ l2) p r =
  (x <-- structFields GenerateSchema l1 p r ;;
   structFields GenerateSchema l2 x.1 x.2).
Proof.
  induction l1 as [|f l1 IH]; intros l2 p r; [reflexivity|].
  rewrite <- app_comm_cons, !structFields_cons, bind_assoc.
  destruct (fieldSchema f); cbn [bind]; [apply IH | reflexivity].
Qed.

Lemma requiredNames_cons f fs :
  requiredNames (f :: fs) =
  if fieldOptional f then requiredNames fs else fieldName f :: requiredNames fs.
Proof.
  unfold requiredNames. rewrite filter_cons.
  destruct (fieldOptional f); case_decide; simpl; congruence.
Qed.

Lemma structFields_required fs : forall p r p' r',
  structFields GenerateSchema fs p r = OK (p', r') ->
  r' = (r ++ requiredNames fs)%list.
Proof.
  induction fs as [|f fs IH]; intros p r p' r' H.
  - injection H as <- <-. unfold requiredNames. simpl. rewrite app_nil_r. reflexivity.
  - rewrite structFields_cons in H. apply bind_OK in H as (s & _ & H).
    apply IH in H. rewrite H, requiredNames_cons.
    destruct (fieldOptional f); [reflexivity|].
    rewrite <- app_assoc. reflexivity.
Qed.

Lemma structFields_lookup_other fs : forall p r p' r' n,
  structFields GenerateSchema fs p r = OK (p', r') ->
  Forall (fun f => fieldName f <> n) fs ->
  p' !! n = p !! n.
Proof.
  induction fs as [|f fs IH]; intros p r p' r' n H Hn.
  - injection H as <- <-. reflexivity.
  - rewrite structFields_cons in H. apply bind_OK in H as (s & _ & H).
    inversion Hn as [|? ? Hf Hfs]; subst.
    rewrite (IH _ _ _ _ _ H Hfs). apply lookup_insert_ne. exact Hf.
Qed.

Lemma structFields_ok fs : forall p r,
  Forall (fun f => isOK (fieldSchema f) = true) fs ->
  exists p' r', structFields GenerateSchema fs p r = OK (p', r').
Proof.
  induction fs as [|f fs IH]; intros p r Hok; [eauto|].
  inversion Hok as [|? ? Hf Hfs]; subst.
  rewrite structFields_cons. destruct (fieldSchema f); [|discriminate].
  cbn [bind]. apply IH, Hfs.
Qed.

Lemma structFields_fields_ok fs : forall p r x,
  structFields GenerateSchema fs p r = OK x ->
  Forall (fun f => isOK (fieldSchema f) = true) fs.
Proof.
  induction fs as [|f fs IH]; intros p r x H; [constructor|].
  rewrite structFields_cons in H. apply bind_OK in H as (s & Hs & H).
  constructor; [rewrite Hs; reflexivity | eapply IH, H].
Qed.

Lemma structFields_first_error l1 f l2 e p r :
  Forall (fun f' => isOK (fieldSchema f') = true) l1 ->
  fieldSchema f = Err e ->
  structFields GenerateSchema (l1 ++ f :: l2) p r = Err e.
Proof.
  intros Hok He. rewrite structFields_app.
  destruct (structFields_ok l1 p r Hok) as (p' & r' & ->). cbn [bind fst snd].
  rewrite structFields_cons, He. reflexivity.
Qed.

Lemma structFields_nonempty fs : forall p r p' r',
  structFields GenerateSchema fs p r = OK (p', r') ->
  fs <> [] -> (0 <? size p')%nat = true.
Proof.
  intros p r p' r' H Hne.
  destruct (exists_last Hne) as (l & f & ->).
  rewrite structFields_app in H. apply bind_OK in H as ([p1 r1] & _ & H).
  rewrite structFields_cons in H. apply bind_OK in H as (s & _ & H).
  injection H as <- _. apply Nat.ltb_lt.
  assert (Hs : size (<[fieldName f := s]> p1) <> 0%nat).
  { intros Hz. apply map_size_empty_inv in Hz.
    apply (insert_non_empty p1 (fieldName f) s). exact Hz. }
  lia.
Qed.

(** ** The property name of a field (C1) *)

Lemma Split_nonempty s sep : strings.Split s sep <> [].
Proof.
  destruct s as [|c r]; simpl; [discriminate|].
  destruct (Ascii.eqb c sep); [discriminate|].
  destruct (strings.Split r sep); discriminate.
Qed.

(** The name is the first piece of the json tag's text whenever the tag is
    present. *)
Lemma fieldName_tagged f v :
  reflect.Lookup (reflect.Tag f) "json" = Some v ->
  fieldName f = hd "" (strings.Split v ",").
Proof.
  intros H. unfold fieldName, jsonTags, reflect.Get. rewrite H.
  destruct (strings.Split v ",") eqn:E; [|reflexivity].
  exfalso. exact (Split_nonempty _ _ E).
Qed.

(** Without a json tag the text split is empty, its only piece is the empty
    string, and that piece is taken: the declared name is never used. *)
Lemma fieldName_untagged f :
  reflect.Lookup (reflect.Tag f) "json" = None -> fieldName f = "".
Proof.
  intros H. unfold fieldName, jsonTags, reflect.Get. rewrite H. reflexivity.
Qed.

(** C1, at the failing input [struct { Name string }]: the claim gives the
    untagged field the property name [Name]; the generator files its schema
    under the empty name, in [properties] and in [required]. *)
Theorem C1_untagged_field_named_empty :
  fieldName (field "Name" stringType) = "" /\
  GenerateSchema untaggedStruct =
  OK (set_Required (Some [""])
        (set_Properties (Some {[ "" := set_Type_ "string" emptySchema ]})
           (set_Type_ "object" emptySchema))).
Proof. split; reflexivity. Qed.

(** ** Integer kinds (C3) *)




(** ** Pointers (C4) *)

(** C4: the schema of a pointer type is the schema of its element type,
    error or not, whatever the pointer type's own name; so is the schema of
    the type under any number of pointers. *)
Theorem C4_pointer_same_as_element (T : reflect.Type_) :
  (forall h, GenerateSchema (reflect.TPtr h T) = GenerateSchema T) /\
  (forall hs, GenerateSchema (pointers hs T) = GenerateSchema T).
Proof.
  split; [intros h; apply GenerateSchema_ptr|].
  induction hs as [|h hs IH]; [reflexivity|].
  unfold pointers in *. cbn [fold_right]. rewrite GenerateSchema_ptr. exact IH.
Qed.

(** ** Special types (C6) *)

(** C6: a type identical to the IP type yields the schema with type
    string and format ipv4 and nothing else set, and the test comes first,
    whatever the kind (the IP type is a slice, and does not get the array
    schema of the slice case); a type identical to the time or the URL type
    yields the schema with type string and format date-time or uri, from
    inside the struct case. *)
Theorem C6_special_types :
  (forall t, reflect.Type_eqb t ipType = true ->
     GenerateSchema t =
     OK (mkSchema "string" "" None None None "ipv4" None VNil VNil None None
           None None 0 None None "" None None false None None)) /\
  (forall t, reflect.Kind_ t = reflect.Struct ->
     reflect.Type_eqb t timeType = true ->
     GenerateSchema t =
     OK (mkSchema "string" "" None None None "date-time" None VNil VNil None
           None None None 0 None None "" None None false None None)) /\
  (forall t, reflect.Kind_ t = reflect.Struct ->
     reflect.Type_eqb t uriType = true ->
     GenerateSchema t =
     OK (mkSchema "string" "" None None None "uri" None VNil VNil None None
           None None 0 None None "" None None false None None)) /\
  reflect.Kind_ ipType = reflect.Slice /\
  GenerateSchema ipType <> GenerateSchema byteSliceType.
Proof.
  repeat split.
  - intros t H. destruct t; cbn [GenerateSchema]; rewrite H; reflexivity.
  - intros t Hk H. destruct t as [h b| | | | | | | |h fs]; try discriminate Hk;
      [destruct b; discriminate Hk|].
    cbn [GenerateSchema].
    change (reflect.Type_eqb (reflect.TStruct h fs) ipType) with false.
    cbv iota. rewrite H. reflexivity.
  - intros t Hk H. apply Type_eqb_eq in H. rewrite H. reflexivity.
  - discriminate.
Qed.

Lemma C6_special_types_witness :
  (exists s, GenerateSchema ipType = OK s /\
             Type_ s = "string" /\ Format s = "ipv4" /\ Items s = None) /\
  (exists s, GenerateSchema timeType = OK s /\
             Type_ s = "string" /\ Format s = "date-time" /\ Properties s = None) /\
  (exists s, GenerateSchema uriType = OK s /\
             Type_ s = "string" /\ Format s = "uri" /\ Properties s = None).
Proof.
  destruct C6_special_types as (Hip & Htime & Huri & _).
  split; [|split].
  - eexists. split; [apply Hip; reflexivity | repeat split].
  - eexists. split; [apply Htime; reflexivity | repeat split].
  - eexists. split; [apply Huri; reflexivity | repeat split].
Defined.

(** ** Maps (C7) *)

(** C7: a type of kind map yields, without error, the schema with nothing
    set, its type neither. *)
Theorem C7_map_placeholder (t : reflect.Type_) :
  reflect.Kind_ t = reflect.Map -> GenerateSchema t = OK emptySchema.
Proof.
  destruct t as [h b| | | | | | | |]; try discriminate; [|reflexivity].
  destruct b; discriminate.
Qed.

Lemma C7_map_placeholder_witness :
  GenerateSchema mapType = OK emptySchema /\ Type_ emptySchema = "".
Proof. split; [apply C7_map_placeholder|]; reflexivity. Defined.

(** ** Byte slices (C10) *)

(** C10: [[]byte] gets the schema with type array whose items are the
    schema of uint8, type integer and minimum 0, and nothing else set;
    nothing treats it as a string.  So does every slice of a uint8 element
    type other than the IP type; [byteSliceType] itself takes no part in
    the generator. *)
Theorem C10_byte_slice_is_array :
  GenerateSchema byteSliceType =
  OK (mkSchema "array" ""
        (Some (mkSchema "integer" "" None None None "" None VNil VNil (Some 0)
                 None None None 0 None None "" None None false None None))
        None None "" None VNil VNil None None None None 0 None None "" None
        None false None None) /\
  reflect.Type_eqb byteSliceType ipType = false /\
  (forall h e,
     reflect.Kind_ e = reflect.Uint8 ->
     reflect.Type_eqb (reflect.TSlice h e) ipType = false ->
     GenerateSchema (reflect.TSlice h e) =
     OK (mkSchema "array" ""
           (Some (mkSchema "integer" "" None None None "" None VNil VNil (Some 0)
                    None None None 0 None None "" None None false None None))
           None None "" None VNil VNil None None None None 0 None None "" None
           None false None None)).
Proof.
  split; [reflexivity|]. split; [reflexivity|].
  intros h e Hk Hi. rewrite (GenerateSchema_slice _ _ Hi).
  destruct e as [he b| | | | | | | |]; try discriminate Hk.
  rewrite GenerateSchema_basic. destruct b; try discriminate Hk. reflexivity.
Qed.

Lemma C10_byte_slice_is_array_witness :
  exists s item,
    GenerateSchema (reflect.TSlice (defined "main" "main" "Blob") uint8Type) = OK s /\
    Type_ s = "array" /\ Format s = "" /\ Items s = Some item /\
    Type_ item = "integer" /\ Minimum item = Some 0.
Proof.
  eexists. eexists. split.
  - apply (proj2 (proj2 C10_byte_slice_is_array)); reflexivity.
  - repeat split.
Defined.

(** ** The required names of a struct (C2, C9) *)

Lemma Required_attach p r s0 :
  Required (attach p r s0) =
  match r with [] => Required s0 | _ => Some r end.
Proof.
  unfold attach. destruct s0, r, (0 <? size p)%nat; reflexivity.
Qed.

Lemma Properties_attach p r s0 :
  Properties (attach p r s0) =
  if (0 <? size p)%nat then Some p else Properties s0.
Proof.
  unfold attach. destruct s0, r, (0 <? size p)%nat; reflexivity.
Qed.

Lemma requiredNames_app l1 l2 :
  requiredNames (l1 ++ l2) = (requiredNames l1 ++ requiredNames l2)%list.
Proof. unfold requiredNames. rewrite filter_app, map_app. reflexivity. Qed.

Lemma In_requiredNames f fs :
  In f fs -> fieldOptional f = false -> In (fieldName f) (requiredNames fs).
Proof.
  intros Hin Hopt. unfold requiredNames. apply in_map.
  apply list_elem_of_In, list_elem_of_filter. split; [exact Hopt|].
  apply list_elem_of_In, Hin.
Qed.

Lemma requiredNames_all_optional fs :
  (forall f, In f fs -> fieldOptional f = true) -> requiredNames fs = [].
Proof.
  induction fs as [|f fs IH]; intros H; [reflexivity|].
  rewrite requiredNames_cons, (H f (or_introl eq_refl)).
  apply IH. intros g Hg. apply H. right. exact Hg.
Qed.

(** What the struct case returns when it returns a schema. *)
Lemma GenerateSchema_struct_OK h fs s :
  reflect.Type_eqb (reflect.TStruct h fs) timeType = false ->
  reflect.Type_eqb (reflect.TStruct h fs) uriType = false ->
  GenerateSchema (reflect.TStruct h fs) = OK s ->
  exists p,
    structFields GenerateSchema fs ∅ [] = OK (p, requiredNames fs) /\
    s = attach p (requiredNames fs) (set_Type_ "object" emptySchema).
Proof.
  intros Ht Hu H. rewrite (GenerateSchema_struct _ _ Ht Hu) in H.
  apply bind_OK in H as ([p r] & Hloop & H). injection H as <-.
  pose proof (structFields_required _ _ _ _ _ Hloop) as Hr. simpl in Hr. subst r.
  exists p. split; [exact Hloop | reflexivity].
Qed.

Lemma In_requiredNames_iff n fs :
  In n (requiredNames fs) <->
  exists f, In f fs /\ fieldName f = n /\ fieldOptional f = false.
Proof.
  induction fs as [|g fs IH].
  - split; [intros [] | intros (f & [] & _)].
  - rewrite requiredNames_cons. destruct (fieldOptional g) eqn:Hg.
    + rewrite IH. split.
      * intros (f & Hin & Hf). exists f. split; [right; exact Hin | exact Hf].
      * intros (f & [<-|Hin] & Hn & Ho); [congruence|]. exists f. auto.
    + cbn [In]. rewrite IH. split.
      * intros [<-|(f & Hin & Hf)]; [exists g; simpl; auto|].
        exists f. split; [right; exact Hin | exact Hf].
      * intros (f & [<-|Hin] & Hn & Ho); [left; exact Hn|].
        right. exists f. auto.
Qed.

(** C2 as stated fails in two ways.  The time type is a struct type whose
    fields all lack the omitempty marker, and its schema has no [required];
    and in [struct { A string `json:"x"`; B int `json:"x,omitempty"` }] the
    field [B] carries the marker while its property name is required. *)
Lemma C2_counterexample_special_and_shared :
  ~ (forall h fs s f,
       GenerateSchema (reflect.TStruct h fs) = OK s ->
       In f fs -> fieldOptional f = false ->
       exists req, Required s = Some req /\ In (fieldName f) req) /\
  ~ (forall h fs s f req,
       GenerateSchema (reflect.TStruct h fs) = OK s ->
       In f fs -> fieldOptional f = true ->
       Required s = Some req -> ~ In (fieldName f) req).
Proof.
  split; intros H.
  - destruct (H (defined "time" "time" "Time")
                [field "wall" uint64Type; field "ext" int64Type;
                 field "loc" (reflect.TPtr (literal "*time.Location") locationType)]
                (stringSchema "date-time") (field "wall" uint64Type)
                eq_refl (or_introl eq_refl) eq_refl) as (req & Hreq & _).
    discriminate Hreq.
  - apply (H (defined "main" "main" "Shared") [fieldA; fieldBopt]
             (set_Required (Some ["x"])
                (set_Properties
                   (Some (<["x" := intSchema]> {[ "x" := set_Type_ "string" emptySchema ]}))
                   (set_Type_ "object" emptySchema)))
             fieldBopt ["x"] eq_refl (or_intror (or_introl eq_refl)) eq_refl eq_refl).
    left. reflexivity.
Qed.

(** C2, amended.  For a struct type that is walked field by field (neither
    the time nor the URL type) and whose schema is produced, [required] is
    the sequence of the property names of the fields without the omitempty
    marker, in declaration order, one entry for each such field; a name is
    listed exactly when some field without the marker resolves to it, so
    the name of a field with the marker is left out unless a field without
    the marker shares it; and when no field is without the marker,
    [required] is absent, not empty.  The time and the URL type, struct
    types too, get a string schema without [required] or [properties]. *)
Theorem C2_required_names :
  (forall h fs s,
     reflect.Type_eqb (reflect.TStruct h fs) timeType = false ->
     reflect.Type_eqb (reflect.TStruct h fs) uriType = false ->
     GenerateSchema (reflect.TStruct h fs) = OK s ->
     Required s = match requiredNames fs with [] => None | l => Some l end /\
     (forall f, In f fs -> fieldOptional f = false ->
                exists l, Required s = Some l /\ In (fieldName f) l) /\
     (forall n req, Required s = Some req ->
        (In n req <->
         exists f, In f fs /\ fieldName f = n /\ fieldOptional f = false)) /\
     (forall f req, In f fs -> fieldOptional f = true -> Required s = Some req ->
        (In (fieldName f) req <->
         exists g, In g fs /\ fieldName g = fieldName f /\ fieldOptional g = false)) /\
     ((forall f, In f fs -> fieldOptional f = true) -> Required s = None) /\
     Required s <> Some []) /\
  (forall t s,
     reflect.Type_eqb t timeType = true \/ reflect.Type_eqb t uriType = true ->
     GenerateSchema t = OK s ->
     reflect.Kind_ t = reflect.Struct /\
     Type_ s = "string" /\ Required s = None /\ Properties s = None).
Proof.
  split.
  - intros h fs s Ht Hu H.
    destruct (GenerateSchema_struct_OK _ _ _ Ht Hu H) as (p & _ & ->).
    rewrite Required_attach.
    assert (E : match requiredNames fs with
                | [] => Required (set_Type_ "object" emptySchema)
                | _ :: _ => Some (requiredNames fs)
                end = match requiredNames fs with [] => None | l => Some l end).
    { destruct (requiredNames fs); reflexivity. }
    rewrite E. clear E.
    assert (Hreq : forall req,
              match requiredNames fs with [] => None | l => Some l end = Some req ->
              req = requiredNames fs).
    { intros req Hr. destruct (requiredNames fs); [discriminate | congruence]. }
    split; [reflexivity|]. split; [|split; [|split; [|split]]].
    + intros f Hin Hopt. pose proof (In_requiredNames _ _ Hin Hopt) as Hn.
      destruct (requiredNames fs) as [|x l]; [contradiction|]. eauto.
    + intros n req Hr. rewrite (Hreq _ Hr). apply In_requiredNames_iff.
    + intros f req _ _ Hr. rewrite (Hreq _ Hr). apply In_requiredNames_iff.
    + intros Hall. rewrite (requiredNames_all_optional _ Hall). reflexivity.
    + destruct (requiredNames fs); discriminate.
  - intros t s [Ht|Ht] H; apply Type_eqb_eq in Ht; subst t;
      injection H as <-; repeat split.
Qed.

Lemma C2_required_names_witness :
  (exists s, GenerateSchema personType = OK s /\ Required s = Some ["name"]) /\
  (exists s, GenerateSchema sharedNameStruct = OK s /\ Required s = Some ["x"]) /\
  (exists s, GenerateSchema timeType = OK s /\ Required s = None).
Proof.
  destruct C2_required_names as [Hwalk Hspecial].
  split; [|split]; eexists; (split; [reflexivity|]).
  - apply (Hwalk (defined "main" "main" "Person") [nameField; ageField]);
      reflexivity.
  - apply (Hwalk (defined "main" "main" "Shared") [fieldA; fieldBopt]);
      reflexivity.
  - apply (Hspecial timeType); [left|]; reflexivity.
Defined.

Lemma count_requiredNames_other l n :
  Forall (fun f => fieldName f <> n) l ->
  count_occ string_dec (requiredNames l) n = 0%nat.
Proof.
  induction 1 as [|f l Hf _ IH]; [reflexivity|].
  rewrite requiredNames_cons. destruct (fieldOptional f); [exact IH|].
  simpl. destruct (string_dec (fieldName f) n); [contradiction | exact IH].
Qed.

Lemma size_insert_le (m : gmap string Schema) k x :
  (size (<[k := x]> m) <= S (size m))%nat.
Proof. rewrite map_size_insert. destruct (m !! k); simpl; lia. Qed.

Lemma size_insert_present (m : gmap string Schema) k x y :
  m !! k = Some y -> size (<[k := x]> m) = size m.
Proof. intros E. rewrite map_size_insert, E. reflexivity. Qed.

Lemma structFields_size fs : forall p r p' r',
  structFields GenerateSchema fs p r = OK (p', r') ->
  (size p' <= size p + length fs)%nat.
Proof.
  induction fs as [|f fs IH]; intros p r p' r' H.
  - injection H as <- _. simpl. lia.
  - rewrite structFields_cons in H. apply bind_OK in H as (s & _ & H).
    apply IH in H. simpl.
    pose proof (size_insert_le p (fieldName f) s). lia.
Qed.

(** C9: in a struct built field by field, let exactly two fields resolve
    to the name [n], neither with the omitempty marker.  Then [properties]
    has one entry for [n], the schema of the later field (so it has fewer
    entries than the struct has fields), and [required] lists [n] twice. *)
Theorem C9_colliding_names (h : reflect.rtype)
    (l1 l2 l3 : list reflect.StructField) (f1 f2 : reflect.StructField)
    (n : string) (s : Schema) :
  reflect.Type_eqb (reflect.TStruct h (l1 ++ f1 :: l2 ++ f2 :: l3)) timeType = false ->
  reflect.Type_eqb (reflect.TStruct h (l1 ++ f1 :: l2 ++ f2 :: l3)) uriType = false ->
  GenerateSchema (reflect.TStruct h (l1 ++ f1 :: l2 ++ f2 :: l3)) = OK s ->
  fieldName f1 = n -> fieldName f2 = n ->
  fieldOptional f1 = false -> fieldOptional f2 = false ->
  Forall (fun f => fieldName f <> n) (l1 ++ l2 ++ l3) ->
  exists props req s2,
    Properties s = Some props /\ Required s = Some req /\
    fieldSchema f2 = OK s2 /\ props !! n = Some s2 /\
    (size props < length (l1 ++ f1 :: l2 ++ f2 :: l3))%nat /\
    count_occ string_dec req n = 2%nat.
Proof.
  intros Ht Hu H Hn1 Hn2 Ho1 Ho2 Hother.
  apply Forall_app in Hother as [H1 Hother].
  apply Forall_app in Hother as [H2 H3].
  destruct (GenerateSchema_struct_OK _ _ _ Ht Hu H) as (p & Hloop & ->).
  assert (Hne : (l1 ++ f1 :: l2 ++ f2 :: l3)%list <> []) by (destruct l1; discriminate).
  (* the loop, cut at the two fields *)
  pose proof Hloop as Hcut.
  rewrite structFields_app in Hcut. apply bind_OK in Hcut as ([pb rb] & Hl1 & Hcut).
  rewrite structFields_cons in Hcut. apply bind_OK in Hcut as (s1 & Hs1 & Hcut).
  rewrite structFields_app in Hcut. apply bind_OK in Hcut as ([pa ra] & Hl2 & Hcut).
  rewrite structFields_cons in Hcut. apply bind_OK in Hcut as (s2 & Hs2 & Hl3).
  cbn [fst snd] in *. rewrite Hn1 in Hl2. rewrite Hn2 in Hl3.
  assert (Hpa : pa !! n = Some s1).
  { rewrite (structFields_lookup_other _ _ _ _ _ _ Hl2 H2). apply lookup_insert_eq. }
  assert (Hp : p !! n = Some s2).
  { rewrite (structFields_lookup_other _ _ _ _ _ _ Hl3 H3). apply lookup_insert_eq. }
  exists p, (requiredNames (l1 ++ f1 :: l2 ++ f2 :: l3)%list), s2.
  split; [|split; [|split; [|split; [|split]]]].
  - rewrite Properties_attach, (structFields_nonempty _ _ _ _ _ Hloop Hne). reflexivity.
  - rewrite Required_attach.
    destruct (requiredNames (l1 ++ f1 :: l2 ++ f2 :: l3)%list) eqn:E; [|reflexivity].
    exfalso.
    assert (Hin : In (fieldName f1) (requiredNames (l1 ++ f1 :: l2 ++ f2 :: l3)%list)).
    { apply In_requiredNames; [|exact Ho1]. apply in_or_app. right. left. reflexivity. }
    rewrite E in Hin. exact Hin.
  - exact Hs2.
  - exact Hp.
  - apply structFields_size in Hl1, Hl2, Hl3.
    rewrite (size_insert_present _ _ _ _ Hpa) in Hl3.
    pose proof (size_insert_le pb n s1).
    rewrite map_size_empty in Hl1.
    rewrite !length_app. cbn [length]. rewrite !length_app. cbn [length]. lia.
  - rewrite requiredNames_app, requiredNames_cons, Ho1, requiredNames_app,
      requiredNames_cons, Ho2, Hn1, Hn2.
    rewrite count_occ_app. cbn [count_occ].
    destruct (string_dec n n) as [_|Hc]; [|contradiction].
    rewrite count_occ_app. cbn [count_occ].
    destruct (string_dec n n) as [_|Hc]; [|contradiction].
    rewrite !count_requiredNames_other by assumption. reflexivity.
Qed.

Lemma C9_colliding_names_witness :
  exists s, GenerateSchema collidingStruct = OK s /\
  exists props req s2,
    Properties s = Some props /\ Required s = Some req /\
    fieldSchema fieldB = OK s2 /\ props !! "x" = Some s2 /\
    (size props < 2)%nat /\ count_occ string_dec req "x" = 2%nat.
Proof.
  eexists. split; [reflexivity|].
  apply (C9_colliding_names (reflect.header collidingStruct) [] [] [] fieldA fieldB "x");
    try reflexivity.
  constructor.
Defined.

(** ** Tag values (C5) *)

(** *** Rounding to a float64 *)

Lemma Qred_integer_scaled z j :
  0 <= j -> Qred (z * 2 ^ j # Z.to_pos (2 ^ j)) = (z # 1).
Proof.
  intros Hj.
  assert (Hp : 0 < 2 ^ j) by (apply Z.pow_pos_nonneg; lia).
  transitivity (Qred (z # 1)).
  - apply Qred_complete. unfold Qeq. cbn [Qnum Qden].
    rewrite Z2Pos.id by exact Hp. lia.
  - apply Qred_identity. cbn [Qnum Qden]. apply Z.gcd_1_r.
Qed.

(** An integer of magnitude up to [2 ^ 53] is a float64: rounding leaves it
    as it is. *)
Lemma roundFloat64_integer z :
  0 <= z <= 2 ^ 53 -> roundFloat64 z 1 = Some (z # 1).
Proof.
  intros Hz. unfold roundFloat64.
  destruct (Z.eqb_spec z 0) as [->|Hne]; [reflexivity|].
  assert (Hpos : 0 < z) by lia.
  pose proof (Z.log2_spec z Hpos) as [Hlo Hhi].
  pose proof (Z.log2_nonneg z) as He0.
  assert (He : Z.log2 z <= 53).
  { rewrite <- (Z.log2_pow2 53) by lia. apply Z.log2_le_mono. lia. }
  change (Z.log2 1) with 0. rewrite Z.sub_0_r.
  destruct (Z.leb_spec 0 (Z.log2 z)) as [_|]; [|lia].
  rewrite Z.mul_1_l.
  destruct (Z.leb_spec (2 ^ Z.log2 z) z) as [_|]; [|lia].
  destruct (Z.leb_spec 0 (Z.max (Z.log2 z - 52) (- 1074))) as [Hk|Hk].
  - (* the last bit kept is at or above the units *)
    assert (Hcase : Z.log2 z = 52 \/ Z.log2 z = 53) by lia.
    destruct Hcase as [E|E]; rewrite E in *.
    + change (Z.max (52 - 52) (- 1074)) with 0.
      change (1 * 2 ^ 0) with 1. change (2 ^ 0) with 1.
      rewrite Z.div_1_r, Z.mod_1_r, !Z.mul_1_r.
      change (2 * 0 <? 1) with true. cbv iota.
      destruct (Z.leb_spec (2 ^ 1024) z) as [Hbig|_].
      { exfalso.
        assert (2 ^ 53 < 2 ^ 1024) by (apply Z.pow_lt_mono_r; lia). lia. }
      f_equal. apply Qred_identity. cbn [Qnum Qden]. apply Z.gcd_1_r.
    + assert (z = 2 ^ 53) by lia. subst z. vm_compute. reflexivity.
  - assert (Hlt : Z.log2 z < 52) by lia.
    assert (Ek : Z.max (Z.log2 z - 52) (- 1074) = Z.log2 z - 52) by lia.
    rewrite Ek, Z.div_1_r, Z.mod_1_r.
    change (2 * 0 <? 1) with true. cbv iota.
    f_equal. apply Qred_integer_scaled. lia.
Qed.

(** *** The fuel of the scanner is enough *)

Lemma stringLit_S fuel s :
  json.stringLit (S fuel) s =
  match s with
  | EmptyString => None
  | String c r =>
      if Ascii.eqb c "034" then Some (EmptyString, r)
      else if Ascii.eqb c "\" then
        match r with
        | EmptyString => None
        | String c1 r1 =>
            if Ascii.eqb c1 "u" then
              match json.hex4 r1 with
              | None => None
              | Some (rr, r2) =>
                  let '(rune, r3) :=
                    if json.isSurrogate rr then
                      match json.getu4 r2 with
                      | Some (rr1, r3) =>
                          if json.DecodeRune rr rr1 =? json.RuneError
                          then (json.RuneError, r2)
                          else (json.DecodeRune rr rr1, r3)
                      | None => (json.RuneError, r2)
                      end
                    else (rr, r2) in
                  match json.stringLit fuel r3 with
                  | Some (t, rest) => Some (json.EncodeRune rune ++ t, rest)
                  | None => None
                  end
              end
            else
              match json.simpleEscape c1, json.stringLit fuel r1 with
              | Some c', Some (t, rest) => Some (String c' t, rest)
              | _, _ => None
              end
        end
      else if Z.of_nat (nat_of_ascii c) <? 32 then None
      else if Z.of_nat (nat_of_ascii c) <? 128 then
        match json.stringLit fuel r with
        | Some (t, rest) => Some (String c t, rest)
        | None => None
        end
      else
        let '(enc, r') :=
          match json.DecodeRune8 s with
          | Some (enc, r') => (enc, r')
          | None => (json.EncodeRune json.RuneError, r)
          end in
        match json.stringLit fuel r' with
        | Some (t, rest) => Some (enc ++ t, rest)
        | None => None
        end
  end.
Proof.
  cbn [json.stringLit].
  destruct s as [|c r]; [reflexivity|].
  destruct c as [[] [] [] [] [] [] [] []]; cbv [Ascii.eqb Bool.eqb]; cbv iota beta;
    try reflexivity.
  destruct r as [|c1 r1]; [destruct fuel; reflexivity|].
  destruct c1 as [[] [] [] [] [] [] [] []]; reflexivity.
Qed.

Lemma value_S f d s :
  json.value_ (S f) d s =
  match json.skipSpace s with
  | EmptyString => None
  | String c r =>
      if Ascii.eqb c "n" then json.keyword "ull" json.TNull r
      else if Ascii.eqb c "t" then json.keyword "rue" (json.TBool true) r
      else if Ascii.eqb c "f" then json.keyword "alse" (json.TBool false) r
      else if Ascii.eqb c "034" then
        match json.stringLit (String.length r) r with
        | Some (t, r') => Some (json.TString t, r')
        | None => None
        end
      else if Ascii.eqb c "[" then
        if json.maxNestingDepth <=? d then None else
        match json.skipSpace r with
        | String c' r' =>
            if Ascii.eqb c' "]" then Some (json.TArray [], r')
            else json.array_ f (d + 1) r []
        | EmptyString => json.array_ f (d + 1) r []
        end
      else if Ascii.eqb c "{" then
        if json.maxNestingDepth <=? d then None else
        match json.skipSpace r with
        | String c' r' =>
            if Ascii.eqb c' "}" then Some (json.TObject [], r')
            else json.object_ f (d + 1) r []
        | EmptyString => json.object_ f (d + 1) r []
        end
      else
        match json.number (String c r) with
        | Some (lit, r') => Some (json.TNumber lit, r')
        | None => None
        end
  end.
Proof.
  cbn [json.value_].
  destruct (json.skipSpace s) as [|c r]; [reflexivity|].
  destruct c as [[] [] [] [] [] [] [] []]; cbv [Ascii.eqb Bool.eqb]; cbv iota beta;
    try reflexivity;
    destruct (json.maxNestingDepth <=? d); try reflexivity;
    destruct (json.skipSpace r) as [|c' r']; try reflexivity;
    destruct c' as [[] [] [] [] [] [] [] []]; reflexivity.
Qed.

Lemma array_S f d s acc :
  json.array_ (S f) d s acc =
  match json.value_ f d s with
  | None => None
  | Some (v, r) =>
      match json.skipSpace r with
      | String c r' =>
          if Ascii.eqb c "," then json.array_ f d r' (acc ++ [v])
          else if Ascii.eqb c "]" then Some (json.TArray (acc ++ [v]), r')
          else None
      | EmptyString => None
      end
  end.
Proof.
  cbn [json.array_].
  destruct (json.value_ f d s) as [[v r]|]; [|reflexivity].
  destruct (json.skipSpace r) as [|c r']; [reflexivity|].
  destruct c as [[] [] [] [] [] [] [] []]; reflexivity.
Qed.

Lemma object_S f d s acc :
  json.object_ (S f) d s acc =
  match json.skipSpace s with
  | String c r =>
      if Ascii.eqb c "034" then
        match json.stringLit (String.length r) r with
        | None => None
        | Some (k, r1) =>
            match json.skipSpace r1 with
            | String c1 r2 =>
                if Ascii.eqb c1 ":" then
                  match json.value_ f d r2 with
                  | None => None
                  | Some (v, r3) =>
                      match json.skipSpace r3 with
                      | String c2 r4 =>
                          if Ascii.eqb c2 "," then json.object_ f d r4 (acc ++ [(k, v)])
                          else if Ascii.eqb c2 "}"
                          then Some (json.TObject (acc ++ [(k, v)]), r4)
                          else None
                      | EmptyString => None
                      end
                  end
                else None
            | EmptyString => None
            end
        end
      else None
  | EmptyString => None
  end.
Proof.
  cbn [json.object_].
  destruct (json.skipSpace s) as [|c r]; [reflexivity|].
  destruct c as [[] [] [] [] [] [] [] []]; cbv [Ascii.eqb Bool.eqb]; cbv iota beta;
    try reflexivity.
  destruct (json.stringLit (String.length r) r) as [[k r1]|]; [|reflexivity].
  destruct (json.skipSpace r1) as [|c1 r2]; [reflexivity|].
  destruct c1 as [[] [] [] [] [] [] [] []]; cbv [Ascii.eqb Bool.eqb]; cbv iota beta;
    try reflexivity.
  destruct (json.value_ f d r2) as [[v r3]|]; [|reflexivity].
  destruct (json.skipSpace r3) as [|c2 r4]; [reflexivity|].
  destruct c2 as [[] [] [] [] [] [] [] []]; reflexivity.
Qed.

(** What a step of the scanner leaves is shorter than what it was given. *)

Lemma skipSpace_length s :
  (String.length (json.skipSpace s) <= String.length s)%nat.
Proof.
  induction s as [|c s IH]; [reflexivity|].
  cbn [json.skipSpace]. destruct (json.isSpace c); cbn [String.length]; lia.
Qed.

Lemma skipSpace_String s c r :
  json.skipSpace s = String c r -> (String.length r < String.length s)%nat.
Proof.
  intros H. pose proof (skipSpace_length s) as Hl. rewrite H in Hl.
  cbn [String.length] in Hl. lia.
Qed.

Lemma stripPrefix_length p : forall s r,
  json.stripPrefix p s = Some r -> (String.length r <= String.length s)%nat.
Proof.
  induction p as [|a p IH]; intros s r H; cbn [json.stripPrefix] in H.
  - injection H as <-. lia.
  - destruct s as [|b s]; [discriminate|].
    destruct (Ascii.eqb a b); [|discriminate].
    apply IH in H. cbn [String.length]. lia.
Qed.

Lemma keyword_length p v s t r :
  json.keyword p v s = Some (t, r) -> (String.length r <= String.length s)%nat.
Proof.
  unfold json.keyword. destruct (json.stripPrefix p s) as [r'|] eqn:H; [|discriminate].
  intros [= _ <-]. exact (stripPrefix_length _ _ _ H).
Qed.

Lemma takeDigits_length s : forall d r,
  strconv.takeDigits s = (d, r) ->
  String.length s = (String.length d + String.length r)%nat.
Proof.
  induction s as [|c s IH]; intros d r H; cbn [strconv.takeDigits] in H.
  - injection H as <- <-. reflexivity.
  - destruct (strconv.isDigit c).
    + destruct (strconv.takeDigits s) as [d' r'].
      injection H as <- <-. cbn [String.length]. rewrite (IH _ _ eq_refl). lia.
    + injection H as <- <-. reflexivity.
Qed.

Lemma number_length s lit r :
  json.number s = Some (lit, r) -> (String.length r < String.length s)%nat.
Proof.
  unfold json.number.
  assert (H1 : (String.length (match s with
                                | String "-"%char r0 => r0
                                | _ => s
                                end) <= String.length s)%nat).
  { destruct s as [|c s']; [reflexivity|].
    destruct c as [[] [] [] [] [] [] [] []]; cbn [String.length]; lia. }
  destruct (strconv.takeDigits _) as [ip s2] eqn:Hd.
  apply takeDigits_length in Hd.
  destruct (json.intPartOK ip) eqn:Hip; [|discriminate]. cbn [negb].
  assert (Hne : (1 <= String.length ip)%nat).
  { destruct ip; [discriminate Hip | cbn [String.length]; lia]. }
  match goal with
  | |- match ?x with Some _ => _ | None => _ end = _ -> _ =>
      destruct x as [s3|] eqn:Hfrac; [|discriminate]
  end.
  assert (H3 : (String.length s3 <= String.length s2)%nat).
  { destruct s2 as [|c r2]; [injection Hfrac as <-; lia|].
    destruct c as [[] [] [] [] [] [] [] []];
      try (injection Hfrac as <-; lia).
    destruct (strconv.takeDigits r2) as [fp s3'] eqn:Hf.
    destruct fp; [discriminate|]. injection Hfrac as <-.
    apply takeDigits_length in Hf. cbn [String.length] in *. lia. }
  match goal with
  | |- match ?x with Some _ => _ | None => _ end = _ -> _ =>
      destruct x as [s4|] eqn:Hexp; [|discriminate]
  end.
  assert (H4 : (String.length s4 <= String.length s3)%nat).
  { destruct s3 as [|c r3]; [injection Hexp as <-; lia|].
    destruct c as [[] [] [] [] [] [] [] []];
      try (injection Hexp as <-; lia);
      (match type of Hexp with
       | context [strconv.takeDigits ?x] =>
           assert (Hx : (String.length x <= String.length r3)%nat);
           [ destruct r3 as [|c' r3']; [reflexivity|];
             destruct c' as [[] [] [] [] [] [] [] []]; cbn [String.length]; lia
           | destruct (strconv.takeDigits x) as [ep s4'] eqn:He;
             destruct ep; [discriminate|]; injection Hexp as <-;
             apply takeDigits_length in He; cbn [String.length] in *; lia ]
       end). }
  intros [= _ <-]. lia.
Qed.

Lemma hex4_length s rr r :
  json.hex4 s = Some (rr, r) -> String.length s = (4 + String.length r)%nat.
Proof.
  unfold json.hex4.
  destruct s as [|a [|b [|c [|d r']]]]; try discriminate.
  destruct (json.hexDigit a), (json.hexDigit b), (json.hexDigit c),
    (json.hexDigit d); try discriminate.
  intros [= _ <-]. reflexivity.
Qed.

Lemma getu4_length s rr r :
  json.getu4 s = Some (rr, r) -> String.length s = (6 + String.length r)%nat.
Proof.
  unfold json.getu4. destruct s as [|a [|b s']]; try discriminate;
    [destruct a as [[] [] [] [] [] [] [] []]; discriminate|].
  destruct a as [[] [] [] [] [] [] [] []]; try discriminate.
  destruct b as [[] [] [] [] [] [] [] []]; try discriminate.
  intros H. apply hex4_length in H. cbn [String.length]. lia.
Qed.

Lemma DecodeRune8_length s enc r :
  json.DecodeRune8 s = Some (enc, r) -> (String.length r < String.length s)%nat.
Proof.
  unfold json.DecodeRune8. destruct s as [|c0 r0]; [discriminate|].
  repeat match goal with
  | |- context [if ?b then _ else _] => destruct b
  | |- context [match ?x with EmptyString => _ | String _ _ => _ end] => destruct x
  end; try discriminate; intros [= _ <-]; cbn [String.length]; lia.
Qed.

(** A string literal is read with fuel for every byte of it. *)
Lemma stringLit_enough fuel : forall s t r,
  json.stringLit fuel s = Some (t, r) ->
  (String.length r < String.length s)%nat /\
  forall fuel', (String.length s - String.length r <= fuel')%nat ->
                json.stringLit fuel' s = Some (t, r).
Proof.
  induction fuel as [|fuel IH]; intros s t r H; [discriminate|].
  rewrite stringLit_S in H.
  destruct s as [|c s']; [discriminate|].
  destruct (Ascii.eqb c "034") eqn:Hq.
  { injection H as <- <-. split; [cbn [String.length]; lia|].
    intros [|f] Hb; [cbn [String.length] in Hb; lia|].
    rewrite stringLit_S, Hq. reflexivity. }
  destruct (Ascii.eqb c "\") eqn:Hbs.
  { destruct s' as [|c1 r1]; [discriminate|].
    destruct (Ascii.eqb c1 "u") eqn:Hu.
    - destruct (json.hex4 r1) as [[rr r2]|] eqn:Hhex; [|discriminate].
      pose proof (hex4_length _ _ _ Hhex) as Lh.
      destruct (if json.isSurrogate rr then _ else _) as [rune r3] eqn:Hpair.
      assert (L3 : (String.length r3 <= String.length r2)%nat).
      { destruct (json.isSurrogate rr); [|injection Hpair as _ <-; lia].
        destruct (json.getu4 r2) as [[rr1 r3']|] eqn:Hg;
          [|injection Hpair as _ <-; lia].
        apply getu4_length in Hg.
        destruct (_ =? _); injection Hpair as _ <-; lia. }
      destruct (json.stringLit fuel r3) as [[t' rest]|] eqn:E; [|discriminate].
      injection H as <- <-. destruct (IH _ _ _ E) as [Lr Hf].
      split; [cbn [String.length]; lia|].
      intros [|f] Hb; [cbn [String.length] in Hb; lia|].
      rewrite stringLit_S, Hq, Hbs, Hu, Hhex, Hpair, (Hf f); [reflexivity|].
      cbn [String.length] in Hb. lia.
    - destruct (json.simpleEscape c1) as [c'|] eqn:Hesc; [|discriminate].
      destruct (json.stringLit fuel r1) as [[t' rest]|] eqn:E; [|discriminate].
      injection H as <- <-. destruct (IH _ _ _ E) as [Lr Hf].
      split; [cbn [String.length]; lia|].
      intros [|f] Hb; [cbn [String.length] in Hb; lia|].
      rewrite stringLit_S, Hq, Hbs, Hu, Hesc, (Hf f); [reflexivity|].
      cbn [String.length] in Hb. lia. }
  destruct (Z.of_nat (nat_of_ascii c) <? 32) eqn:H32; [discriminate|].
  destruct (Z.of_nat (nat_of_ascii c) <? 128) eqn:H128.
  - destruct (json.stringLit fuel s') as [[t' rest]|] eqn:E; [|discriminate].
    injection H as <- <-. destruct (IH _ _ _ E) as [Lr Hf].
    split; [cbn [String.length]; lia|].
    intros [|f] Hb; [cbn [String.length] in Hb; lia|].
    rewrite stringLit_S, Hq, Hbs, H32, H128, (Hf f); [reflexivity|].
    cbn [String.length] in Hb. lia.
  - destruct (match json.DecodeRune8 (String c s') with
              | Some (enc, r') => (enc, r')
              | None => (json.EncodeRune json.RuneError, s')
              end) as [enc r'] eqn:Hpair.
    assert (L3 : (String.length r' <= String.length s')%nat).
    { destruct (json.DecodeRune8 (String c s')) as [[enc0 r0]|] eqn:Hd.
      - apply DecodeRune8_length in Hd. injection Hpair as _ <-.
        cbn [String.length] in Hd. lia.
      - injection Hpair as _ <-. lia. }
    destruct (json.stringLit fuel r') as [[t' rest]|] eqn:E; [|discriminate].
    injection H as <- <-. destruct (IH _ _ _ E) as [Lr Hf].
    split; [cbn [String.length]; lia|].
    intros [|f] Hb; [cbn [String.length] in Hb; lia|].
    rewrite stringLit_S, Hq, Hbs, H32, H128, Hpair, (Hf f); [reflexivity|].
    cbn [String.length] in Hb. lia.
Qed.

(** So is a value: the scanner gives the same answer with any fuel that is
    at least the number of bytes it reads. *)
Lemma scanner_enough f :
  (forall d s t r, json.value_ f d s = Some (t, r) ->
     (String.length r < String.length s)%nat /\
     forall f', (String.length s - String.length r <= f')%nat ->
                json.value_ f' d s = Some (t, r)) /\
  (forall d s acc t r, json.array_ f d s acc = Some (t, r) ->
     (String.length r < String.length s)%nat /\
     forall f', (String.length s - String.length r <= f')%nat ->
                json.array_ f' d s acc = Some (t, r)) /\
  (forall d s acc t r, json.object_ f d s acc = Some (t, r) ->
     (String.length r < String.length s)%nat /\
     forall f', (String.length s - String.length r <= f')%nat ->
                json.object_ f' d s acc = Some (t, r)).
Proof.
  induction f as [|f (IHv & IHa & IHo)];
    [split; [|split]; intros; discriminate|].
  split; [|split].
  - intros d s t r H. rewrite value_S in H.
    destruct (json.skipSpace s) as [|c s'] eqn:Hs; [discriminate|].
    pose proof (skipSpace_String _ _ _ Hs) as Ls.
    destruct (Ascii.eqb c "n") eqn:C1.
    { pose proof (keyword_length _ _ _ _ _ H) as Lk. split; [lia|].
      intros [|f'] Hb; [lia|]. rewrite value_S, Hs, C1. exact H. }
    destruct (Ascii.eqb c "t") eqn:C2.
    { pose proof (keyword_length _ _ _ _ _ H) as Lk. split; [lia|].
      intros [|f'] Hb; [lia|]. rewrite value_S, Hs, C1, C2. exact H. }
    destruct (Ascii.eqb c "f") eqn:C3.
    { pose proof (keyword_length _ _ _ _ _ H) as Lk. split; [lia|].
      intros [|f'] Hb; [lia|]. rewrite value_S, Hs, C1, C2, C3. exact H. }
    destruct (Ascii.eqb c "034") eqn:C4.
    { destruct (json.stringLit (String.length s') s') as [[t' r']|] eqn:E;
        [|discriminate].
      injection H as <- <-. destruct (stringLit_enough _ _ _ _ E) as [Lr _].
      split; [lia|].
      intros [|f'] Hb; [lia|]. rewrite value_S, Hs, C1, C2, C3, C4, E. reflexivity. }
    destruct (Ascii.eqb c "[") eqn:C5.
    { destruct (json.maxNestingDepth <=? d) eqn:Hd; [discriminate|].
      destruct (json.skipSpace s') as [|c' r'] eqn:Hs'.
      - destruct (IHa _ _ _ _ _ H) as [Lr Hf]. split; [lia|].
        intros [|f'] Hb; [lia|].
        rewrite value_S, Hs, C1, C2, C3, C4, C5, Hd, Hs'. apply Hf. lia.
      - destruct (Ascii.eqb c' "]") eqn:C6.
        + injection H as <- <-. pose proof (skipSpace_String _ _ _ Hs') as Ls'.
          split; [lia|].
          intros [|f'] Hb; [lia|].
          rewrite value_S, Hs, C1, C2, C3, C4, C5, Hd, Hs', C6. reflexivity.
        + destruct (IHa _ _ _ _ _ H) as [Lr Hf]. split; [lia|].
          intros [|f'] Hb; [lia|].
          rewrite value_S, Hs, C1, C2, C3, C4, C5, Hd, Hs', C6. apply Hf. lia. }
    destruct (Ascii.eqb c "{") eqn:C6.
    { destruct (json.maxNestingDepth <=? d) eqn:Hd; [discriminate|].
      destruct (json.skipSpace s') as [|c' r'] eqn:Hs'.
      - destruct (IHo _ _ _ _ _ H) as [Lr Hf]. split; [lia|].
        intros [|f'] Hb; [lia|].
        rewrite value_S, Hs, C1, C2, C3, C4, C5, C6, Hd, Hs'. apply Hf. lia.
      - destruct (Ascii.eqb c' "}") eqn:C7.
        + injection H as <- <-. pose proof (skipSpace_String _ _ _ Hs') as Ls'.
          split; [lia|].
          intros [|f'] Hb; [lia|].
          rewrite value_S, Hs, C1, C2, C3, C4, C5, C6, Hd, Hs', C7. reflexivity.
        + destruct (IHo _ _ _ _ _ H) as [Lr Hf]. split; [lia|].
          intros [|f'] Hb; [lia|].
          rewrite value_S, Hs, C1, C2, C3, C4, C5, C6, Hd, Hs', C7. apply Hf. lia. }
    destruct (json.number (String c s')) as [[lit r']|] eqn:E; [|discriminate].
    injection H as <- <-. pose proof (number_length _ _ _ E) as Ln.
    cbn [String.length] in Ln. split; [lia|].
    intros [|f'] Hb; [lia|].
    rewrite value_S, Hs, C1, C2, C3, C4, C5, C6, E. reflexivity.
  - intros d s acc t r H. rewrite array_S in H.
    destruct (json.value_ f d s) as [[v r1]|] eqn:Hv; [|discriminate].
    destruct (IHv _ _ _ _ Hv) as [L1 Hf1].
    destruct (json.skipSpace r1) as [|c r2] eqn:Hs; [discriminate|].
    pose proof (skipSpace_String _ _ _ Hs) as Ls.
    destruct (Ascii.eqb c ",") eqn:C1.
    { destruct (IHa _ _ _ _ _ H) as [L2 Hf2]. split; [lia|].
      intros [|f'] Hb; [lia|].
      rewrite array_S, (Hf1 f'), Hs, C1 by lia. apply Hf2. lia. }
    destruct (Ascii.eqb c "]") eqn:C2; [|discriminate].
    injection H as <- <-. split; [lia|].
    intros [|f'] Hb; [lia|].
    rewrite array_S, (Hf1 f'), Hs, C1, C2 by lia. reflexivity.
  - intros d s acc t r H. rewrite object_S in H.
    destruct (json.skipSpace s) as [|c s'] eqn:Hs; [discriminate|].
    pose proof (skipSpace_String _ _ _ Hs) as Ls.
    destruct (Ascii.eqb c "034") eqn:C1; [|discriminate].
    destruct (json.stringLit (String.length s') s') as [[k r1]|] eqn:E;
      [|discriminate].
    destruct (stringLit_enough _ _ _ _ E) as [L1 _].
    destruct (json.skipSpace r1) as [|c1 r2] eqn:Hs1; [discriminate|].
    pose proof (skipSpace_String _ _ _ Hs1) as Ls1.
    destruct (Ascii.eqb c1 ":") eqn:C2; [|discriminate].
    destruct (json.value_ f d r2) as [[v r3]|] eqn:Hv; [|discriminate].
    destruct (IHv _ _ _ _ Hv) as [L3 Hf3].
    destruct (json.skipSpace r3) as [|c2 r4] eqn:Hs3; [discriminate|].
    pose proof (skipSpace_String _ _ _ Hs3) as Ls3.
    destruct (Ascii.eqb c2 ",") eqn:C3.
    { destruct (IHo _ _ _ _ _ H) as [L4 Hf4]. split; [lia|].
      intros [|f'] Hb; [lia|].
      rewrite object_S, Hs, C1, E, Hs1, C2, (Hf3 f'), Hs3, C3 by lia.
      apply Hf4. lia. }
    destruct (Ascii.eqb c2 "}") eqn:C4; [|discriminate].
    injection H as <- <-. split; [lia|].
    intros [|f'] Hb; [lia|].
    rewrite object_S, Hs, C1, E, Hs1, C2, (Hf3 f'), Hs3, C3, C4 by lia.
    reflexivity.
Qed.

(** The fuel [json.scan] gives the scanner is enough: whatever fuel makes
    the scanner return, it returns the same with that of [json.scan]; and
    more fuel changes nothing. *)
Lemma value_fuel fuel d s x :
  json.value_ fuel d s = Some x ->
  json.value_ (S (String.length s)) d s = Some x.
Proof.
  destruct x as [t r]. intros H.
  destruct (proj1 (scanner_enough fuel) _ _ _ _ H) as [L Hf]. apply Hf. lia.
Qed.

Lemma value_fuel_more fuel d s :
  (S (String.length s) <= fuel)%nat ->
  json.value_ fuel d s = json.value_ (S (String.length s)) d s.
Proof.
  intros Hle.
  destruct (json.value_ (S (String.length s)) d s) as [[t r]|] eqn:E.
  - destruct (proj1 (scanner_enough _) _ _ _ _ E) as [L Hf]. apply Hf. lia.
  - destruct (json.value_ fuel d s) as [x|] eqn:E'; [|reflexivity].
    apply value_fuel in E'. congruence.
Qed.

Lemma stringLit_fuel fuel s x :
  json.stringLit fuel s = Some x -> json.stringLit (String.length s) s = Some x.
Proof.
  destruct x as [t r]. intros H.
  destruct (stringLit_enough _ _ _ _ H) as [L Hf]. apply Hf. lia.
Qed.

Lemma scan_any_fuel data t :
  json.scan data = Some t <->
  exists fuel r, json.value_ fuel 0 data = Some (t, r) /\ json.skipSpace r = "".
Proof.
  unfold json.scan. split.
  - destruct (json.value_ (S (String.length data)) 0 data) as [[t' r]|] eqn:E;
      [|discriminate].
    destruct (json.skipSpace r) eqn:Hs; [|discriminate].
    intros [= <-]. eauto.
  - intros (fuel & r & H & Hs). rewrite (value_fuel _ _ _ _ H), Hs. reflexivity.
Qed.

(** *** The two passes of the decoder *)

Section tree_induction.
Variable P : json.tree -> Prop.
Hypothesis Hnull : P json.TNull.
Hypothesis Hbool : forall b, P (json.TBool b).
Hypothesis Hnumber : forall lit, P (json.TNumber lit).
Hypothesis Hstring : forall s, P (json.TString s).
Hypothesis Harray : forall l, Forall P l -> P (json.TArray l).
Hypothesis Hobject : forall l, Forall (fun kv => P (snd kv)) l -> P (json.TObject l).

Fixpoint tree_induction (t : json.tree) : P t :=
  match t with
  | json.TNull => Hnull
  | json.TBool b => Hbool b
  | json.TNumber lit => Hnumber lit
  | json.TString s => Hstring s
  | json.TArray l =>
      Harray l
        ((fix each (l : list json.tree) : Forall P l :=
            match l with
            | [] => List.Forall_nil _
            | x :: r => List.Forall_cons _ x r (tree_induction x) (each r)
            end) l)
  | json.TObject l =>
      Hobject l
        ((fix each (l : list (string * json.tree))
            : Forall (fun kv => P (snd kv)) l :=
            match l with
            | [] => List.Forall_nil _
            | (k, x) :: r =>
                List.Forall_cons _ (k, x) r (tree_induction x) (each r)
            end) l)
  end.
End tree_induction.

Lemma elements_cons conv x l :
  json.elements conv (x :: l) =
  (v <-- conv x ;; vs <-- json.elements conv l ;; OK (v :: vs)).
Proof. reflexivity. Qed.

Lemma members_cons conv k x l acc :
  json.members conv ((k, x) :: l) acc =
  (v <-- conv x ;; json.members conv l (<[k := v]> acc)).
Proof. reflexivity. Qed.

Lemma firstRefused_app l1 l2 :
  firstRefused (l1 ++ l2) =
  match firstRefused l1 with Some x => Some x | None => firstRefused l2 end.
Proof.
  unfold firstRefused. induction l1 as [|x l1 IH]; [reflexivity|].
  cbn [app List.find]. destruct (negb _); [reflexivity | exact IH].
Qed.

Lemma firstRefused_Some lits lit :
  firstRefused lits = Some lit ->
  In lit lits /\ isOK (strconv.ParseFloat lit) = false.
Proof.
  intros H. apply List.find_some in H as [Hin Hb]. split; [exact Hin|].
  destruct (isOK _); [discriminate | reflexivity].
Qed.

Lemma firstRefused_None lits :
  firstRefused lits = None <->
  Forall (fun lit => isOK (strconv.ParseFloat lit) = true) lits.
Proof.
  unfold firstRefused. induction lits as [|x l IH]; cbn [List.find].
  - split; [constructor | reflexivity].
  - destruct (isOK (strconv.ParseFloat x)) eqn:Hx; cbn [negb].
    + rewrite IH. split; [constructor; assumption|].
      intros Hall. inversion Hall; assumption.
    + split; [discriminate|]. intros Hall. inversion Hall; congruence.
Qed.

(** The second pass returns a value when [strconv.ParseFloat] accepts every
    number of the text, and otherwise the type error of the first number
    it refuses. *)
Lemma convert_numbers t :
  match firstRefused (numbers t) with
  | Some lit => json.convert t = Err (UnmarshalTypeError ("number " ++ lit))
  | None => exists v, json.convert t = OK v
  end.
Proof.
  induction t as [|b|lit|s|l IH|l IH] using tree_induction.
  - cbn. eauto.
  - cbn. eauto.
  - cbn [numbers json.convert]. unfold firstRefused, json.convertNumber.
    cbn [List.find]. destruct (strconv.ParseFloat lit); cbn; eauto.
  - cbn. eauto.
  - cbn [numbers json.convert].
    assert (H : match firstRefused (flat_map numbers l) with
                | Some lit =>
                    json.elements json.convert l =
                    Err (UnmarshalTypeError ("number " ++ lit))
                | None => exists vs, json.elements json.convert l = OK vs
                end).
    { induction IH as [|x l Hx _ IHl]; [cbn; eauto|].
      cbn [flat_map]. rewrite firstRefused_app, elements_cons.
      destruct (firstRefused (numbers x)) as [lit|]; [rewrite Hx; reflexivity|].
      destruct Hx as (v & ->). cbn [bind].
      destruct (firstRefused (flat_map numbers l)) as [lit|];
        [rewrite IHl; reflexivity|].
      destruct IHl as (vs & ->). cbn. eauto. }
    destruct (firstRefused (flat_map numbers l)) as [lit|];
      [rewrite H; reflexivity|].
    destruct H as (vs & ->). cbn. eauto.
  - cbn [numbers json.convert].
    assert (H : forall acc,
              match firstRefused (flat_map (fun kv => numbers (snd kv)) l) with
              | Some lit =>
                  json.members json.convert l acc =
                  Err (UnmarshalTypeError ("number " ++ lit))
              | None => exists m, json.members json.convert l acc = OK m
              end).
    { induction IH as [|[k x] l Hx _ IHl]; intros acc; [cbn; eauto|].
      cbn [flat_map snd] in *. rewrite firstRefused_app, members_cons.
      destruct (firstRefused (numbers x)) as [lit|]; [rewrite Hx; reflexivity|].
      destruct Hx as (v & ->). cbn [bind]. apply IHl. }
    specialize (H ∅).
    destruct (firstRefused (flat_map (fun kv => numbers (snd kv)) l)) as [lit|];
      [rewrite H; reflexivity|].
    destruct H as (m & ->). cbn. eauto.
Qed.

Lemma convert_Err t e :
  json.convert t = Err e ->
  exists lit, firstRefused (numbers t) = Some lit /\
              e = UnmarshalTypeError ("number " ++ lit).
Proof.
  intros H. pose proof (convert_numbers t) as Hn.
  destruct (firstRefused (numbers t)) as [lit|].
  - rewrite H in Hn. injection Hn as ->. eauto.
  - destruct Hn as (v & Hv). congruence.
Qed.

Lemma Unmarshal_scan v :
  json.Unmarshal v =
  match json.scan v with Some t => json.convert t | None => Err SyntaxError end.
Proof. reflexivity. Qed.

(** The decoder fails with the syntax error exactly on a text the scanner
    refuses, and otherwise only with the type error of a number. *)
Lemma Unmarshal_SyntaxError v :
  json.Unmarshal v = Err SyntaxError <-> json.Valid v = false.
Proof.
  rewrite Unmarshal_scan. unfold json.Valid.
  destruct (json.scan v) as [t|]; [|split; reflexivity].
  split; [|discriminate].
  intros H. apply convert_Err in H as (lit & _ & H). discriminate H.
Qed.

Lemma Unmarshal_Err v e :
  json.Unmarshal v = Err e ->
  e = SyntaxError \/
  exists lit, e = UnmarshalTypeError ("number " ++ lit) /\
              isOK (strconv.ParseFloat lit) = false.
Proof.
  rewrite Unmarshal_scan. destruct (json.scan v) as [t|].
  - intros H. apply convert_Err in H as (lit & Hl & ->). right. exists lit.
    split; [reflexivity | apply (firstRefused_Some _ _ Hl)].
  - intros [= <-]. left. reflexivity.
Qed.

(** *** [getTagValue] *)

Lemma getTagValue_string s v :
  Type_ s = "string" -> getTagValue s v = OK (VString v).
Proof. intros H. unfold getTagValue. rewrite H. reflexivity. Qed.

Lemma getTagValue_other s v :
  Type_ s <> "string" -> getTagValue s v = json.Unmarshal v.
Proof.
  intros H. unfold getTagValue.
  destruct (String.eqb_spec (Type_ s) "string"); [contradiction | reflexivity].
Qed.

Lemma enumValues_string s parts : forall acc,
  Type_ s = "string" ->
  enumValues s parts acc = OK (acc ++ map VString parts)%list.
Proof.
  induction parts as [|v parts IH]; intros acc H; simpl.
  - rewrite app_nil_r. reflexivity.
  - rewrite (getTagValue_string _ _ H). cbn [bind].
    rewrite (IH _ H), <- app_assoc. reflexivity.
Qed.

Lemma enumValues_other_OK s parts : forall acc vs,
  Type_ s <> "string" ->
  enumValues s parts acc = OK vs <->
  exists ws, Forall2 (fun p w => json.Unmarshal p = OK w) parts ws /\
             vs = (acc ++ ws)%list.
Proof.
  induction parts as [|v parts IH]; intros acc vs H; simpl.
  - split.
    + intros [= <-]. exists []. split; [constructor | rewrite app_nil_r; reflexivity].
    + intros (ws & Hws & ->). inversion Hws. rewrite app_nil_r. reflexivity.
  - rewrite (getTagValue_other _ _ H). split.
    + intros Hb. apply bind_OK in Hb as (w & Hw & Hb).
      apply (IH _ _ H) in Hb as (ws & Hws & ->).
      exists (w :: ws). split; [constructor; assumption|].
      rewrite <- app_assoc. reflexivity.
    + intros (ws & Hws & ->). inversion Hws as [|? w ? ws' Hw Hws']; subst.
      rewrite Hw. cbn [bind]. apply (IH _ _ H). exists ws'. split; [assumption|].
      rewrite <- app_assoc. reflexivity.
Qed.

Lemma enumValues_other_fails s parts : forall acc,
  Type_ s <> "string" ->
  isOK (enumValues s parts acc) = false <->
  exists p, In p parts /\ isOK (json.Unmarshal p) = false.
Proof.
  induction parts as [|v parts IH]; intros acc H; simpl.
  - split; [discriminate | intros (p & [] & _)].
  - rewrite (getTagValue_other _ _ H).
    destruct (json.Unmarshal v) as [w|e] eqn:Hv; cbn [bind].
    + rewrite (IH _ H). split.
      * intros (p & Hp & Hf). exists p. auto.
      * intros (p & [<-|Hp] & Hf); [rewrite Hv in Hf; discriminate | eauto].
    + split; [intros _; exists v; rewrite Hv; auto | reflexivity].
Qed.

(** C5 as stated fails at the text [1e400] on an integer schema: the text
    is a number literal, which the scanner accepts, and the call fails all
    the same, because the number is beyond the range of a float64. *)
Lemma C5_counterexample_number_out_of_range :
  ~ (forall s v, Type_ s <> "string" ->
       (isOK (getTagValue s v) = false <-> json.Valid v = false)).
Proof.
  intros H.
  destruct (H intSchema "1e400" ltac:(discriminate)) as [Hfails _].
  assert (E : isOK (getTagValue intSchema "1e400") = false)
    by (vm_compute; reflexivity).
  specialize (Hfails E). vm_compute in Hfails. discriminate Hfails.
Qed.

(** C5, amended.  On a string schema the tag text is returned as it is,
    without error.  On any other schema the result is the decoder's: the
    syntax error exactly when the text is not a literal (number, boolean,
    null, string, array, object) that the scanner accepts, which takes
    arrays and objects nested 10000 deep and no deeper; a value exactly
    when the text is such a literal and [strconv.ParseFloat] accepts each
    of its numbers; and otherwise the type error that names the first
    number it refuses, as [1e400], which is beyond the range of a
    float64.  For the [enum] tag: on a string schema the pieces between
    commas, as strings; on another schema the decoded pieces, or an error
    as soon as the decoder fails on one piece, which fails the whole
    call. *)
Theorem C5_tag_value :
  (forall s v, Type_ s = "string" -> getTagValue s v = OK (VString v)) /\
  (forall s v, Type_ s <> "string" ->
     getTagValue s v = json.Unmarshal v /\
     (getTagValue s v = Err SyntaxError <-> json.Valid v = false) /\
     (isOK (getTagValue s v) = true <->
      exists t, json.scan v = Some t /\
                Forall (fun lit => isOK (strconv.ParseFloat lit) = true)
                       (numbers t)) /\
     (forall t lit,
        json.scan v = Some t -> firstRefused (numbers t) = Some lit ->
        getTagValue s v = Err (UnmarshalTypeError ("number " ++ lit)))) /\
  (json.Unmarshal "1.5e1" = OK (VNumber (Float false 15)) /\
   json.Unmarshal "-0.5" = OK (VNumber (Float true (1 # 2))) /\
   json.Unmarshal "true" = OK (VBool true) /\
   json.Unmarshal "null" = OK VNil /\
   json.Unmarshal "[1, false]" = OK (VArray [VNumber (Float false 1); VBool false]) /\
   json.Unmarshal "{ }" = OK (VObject ∅) /\
   json.Unmarshal "x" = Err SyntaxError /\
   json.Unmarshal "1e400" = Err (UnmarshalTypeError "number 1e400") /\
   isOK (json.Unmarshal (nested 10000)) = true /\
   json.Unmarshal (nested 10001) = Err SyntaxError) /\
  (forall s t, Type_ s = "string" ->
     enumValues s (strings.Split t ",") [] = OK (map VString (strings.Split t ","))) /\
  (forall s t, Type_ s <> "string" ->
     isOK (enumValues s (strings.Split t ",") []) = false <->
     exists p, In p (strings.Split t ",") /\ isOK (json.Unmarshal p) = false) /\
  fieldSchema enumStringField =
    OK (mkSchema "string" "" None None None ""
          (Some [VString "a"; VString "b"; VString "c"])
          VNil VNil None None None None 0 None None "" None None false None None) /\
  fieldSchema enumIntField =
    OK (mkSchema "integer" "" None None None ""
          (Some [VNumber (Float false 1); VNumber (Float false 2);
                 VNumber (Float false 3)])
          VNil VNil None None None None 0 None None "" None None false None None) /\
  fieldSchema enumBadField = Err SyntaxError /\
  GenerateSchema enumBadStruct = Err SyntaxError.
Proof.
  split; [exact getTagValue_string|].
  split.
  { intros s v H. rewrite (getTagValue_other _ _ H).
    split; [reflexivity|]. split; [apply Unmarshal_SyntaxError|].
    rewrite Unmarshal_scan. split.
    - split.
      + intros Hok. destruct (json.scan v) as [t|]; [|discriminate Hok].
        exists t. split; [reflexivity|]. apply firstRefused_None.
        pose proof (convert_numbers t) as Hn.
        destruct (firstRefused (numbers t)); [|reflexivity].
        rewrite Hn in Hok. discriminate Hok.
      + intros (t & -> & Hall). apply firstRefused_None in Hall.
        pose proof (convert_numbers t) as Hn. rewrite Hall in Hn.
        destruct Hn as (w & ->). reflexivity.
    - intros t lit -> Hl. pose proof (convert_numbers t) as Hn.
      rewrite Hl in Hn. exact Hn. }
  split; [repeat split; vm_compute; reflexivity|].
  split; [intros s t H; apply (enumValues_string s _ [] H)|].
  split; [intros s t H; apply (enumValues_other_fails s _ [] H)|].
  repeat split; vm_compute; reflexivity.
Qed.

Lemma C5_tag_value_witness :
  getTagValue (set_Type_ "string" emptySchema) "1,x" = OK (VString "1,x") /\
  getTagValue intSchema "12" = OK (VNumber (Float false 12)) /\
  getTagValue intSchema "1,x" = Err SyntaxError /\
  getTagValue intSchema "[1, 1e400]" = Err (UnmarshalTypeError "number 1e400") /\
  isOK (enumValues intSchema (strings.Split "1,x,3" ",") []) = false.
Proof.
  destruct C5_tag_value as (Hs & Ho & _ & _ & He & _).
  split; [apply Hs; reflexivity|].
  split; [rewrite (proj1 (Ho intSchema "12" ltac:(discriminate))); reflexivity|].
  split.
  { apply (proj2 (proj1 (proj2 (Ho intSchema "1,x" ltac:(discriminate))))).
    reflexivity. }
  split.
  { apply (proj2 (proj2 (proj2 (Ho intSchema "[1, 1e400]" ltac:(discriminate))))
             (json.TArray [json.TNumber "1"; json.TNumber "1e400"]) "1e400");
      vm_compute; reflexivity. }
  apply (proj2 (He intSchema "1,x,3" ltac:(discriminate))).
  exists "x". split; [simpl; auto | reflexivity].
Defined.

(** ** Errors abort the whole call (C8) *)

Lemma whenTag_atoi_Err {A} tag key v e (set : A -> Schema -> Schema) inj s :
  reflect.Lookup tag key = Some v -> strconv.Atoi v = Err e ->
  whenTag tag key (atoi set inj) s = Err e.
Proof. intros Hl He. unfold whenTag, atoi. rewrite Hl, He. reflexivity. Qed.

(** A block that only assigns, or assigns after a conversion, leaves the
    type of the schema as it was. *)
Lemma whenTag_keeps_Type tag key body s s' :
  (forall t x x', body t x = OK x' -> Type_ x' = Type_ x) ->
  whenTag tag key body s = OK s' -> Type_ s' = Type_ s.
Proof.
  intros Hb H. unfold whenTag in H.
  destruct (reflect.Lookup tag key); [eapply Hb, H | congruence].
Qed.

Ltac keeps_Type :=
  intros ? x ? Hx;
  try (apply bind_OK in Hx as (? & _ & Hx));
  injection Hx as <-; destruct x; reflexivity.

(** One step down the chain of [applyTags]: either the block at the head
    fails, and so does the chain, or it gives a schema to go on with. *)
Ltac chain_step :=
  lazymatch goal with
  | |- isOK (bind ?r _) = false =>
      let E := fresh "E" in
      destruct r eqn:E; [cbn [bind] | reflexivity]
  end.

Lemma applyTags_integer_key tag s key v :
  In key integerKeys -> reflect.Lookup tag key = Some v ->
  isOK (strconv.Atoi v) = false ->
  isOK (applyTags tag s) = false.
Proof.
  intros Hin Hl Hv. destruct (strconv.Atoi v) as [|e] eqn:He; [discriminate|].
  unfold applyTags.
  repeat destruct Hin as [<-|Hin]; try contradiction;
    repeat first
      [ rewrite (whenTag_atoi_Err _ _ _ _ _ _ _ Hl He); reflexivity
      | chain_step ].
Qed.

Lemma applyTags_enum tag s v p :
  Type_ s <> "string" -> reflect.Lookup tag "enum" = Some v ->
  In p (strings.Split v ",") -> isOK (json.Unmarshal p) = false ->
  isOK (applyTags tag s) = false.
Proof.
  intros Hty Hl Hp Hbad. unfold applyTags.
  chain_step. apply whenTag_keeps_Type in E; [|keeps_Type].
  chain_step. apply whenTag_keeps_Type in E0; [|keeps_Type].
  assert (Hty' : Type_ a0 <> "string") by congruence.
  unfold whenTag at 1. rewrite Hl.
  assert (Hf : isOK (enumValues a0 (strings.Split v ",") []) = false).
  { apply (enumValues_other_fails _ _ _ Hty'). eauto. }
  destruct (enumValues a0 (strings.Split v ",") []); [discriminate | reflexivity].
Qed.

Lemma applyTags_literal_key tag s key v :
  Type_ s <> "string" -> In key literalKeys ->
  reflect.Lookup tag key = Some v -> isOK (json.Unmarshal v) = false ->
  isOK (applyTags tag s) = false.
Proof.
  intros Hty Hin Hl Hbad. unfold applyTags.
  chain_step. apply whenTag_keeps_Type in E; [|keeps_Type].
  chain_step. apply whenTag_keeps_Type in E0; [|keeps_Type].
  chain_step. apply whenTag_keeps_Type in E1; [|keeps_Type].
  destruct Hin as [<-|[<-|[]]].
  - assert (Hty' : Type_ a1 <> "string") by congruence.
    unfold whenTag at 1. rewrite Hl, (getTagValue_other _ _ Hty').
    destruct (json.Unmarshal v); [discriminate | reflexivity].
  - chain_step. apply whenTag_keeps_Type in E2; [|keeps_Type].
    assert (Hty' : Type_ a2 <> "string") by congruence.
    unfold whenTag at 1. rewrite Hl, (getTagValue_other _ _ Hty').
    destruct (json.Unmarshal v); [discriminate | reflexivity].
Qed.

(** The fields of the time and the URL type all have schemas. *)
Lemma special_fields_ok h fs :
  reflect.Type_eqb (reflect.TStruct h fs) timeType = true \/
  reflect.Type_eqb (reflect.TStruct h fs) uriType = true ->
  Forall (fun f => isOK (fieldSchema f) = true) fs.
Proof.
  intros [H|H]; apply Type_eqb_eq in H; injection H as -> ->;
    repeat constructor.
Qed.

Lemma GenerateSchema_struct_first_error h l1 f l2 e :
  Forall (fun f' => isOK (fieldSchema f') = true) l1 ->
  fieldSchema f = Err e ->
  GenerateSchema (reflect.TStruct h (l1 ++ f :: l2)) = Err e.
Proof.
  intros Hok He.
  assert (Hbad : ~ Forall (fun f' => isOK (fieldSchema f') = true) (l1 ++ f :: l2)).
  { intros Hall. apply Forall_app in Hall as [_ Hall].
    inversion Hall as [|? ? Hf _]; subst. rewrite He in Hf. discriminate. }
  destruct (reflect.Type_eqb (reflect.TStruct h (l1 ++ f :: l2)) timeType) eqn:Ht.
  { exfalso. apply Hbad, (special_fields_ok h). auto. }
  destruct (reflect.Type_eqb (reflect.TStruct h (l1 ++ f :: l2)) uriType) eqn:Hu.
  { exfalso. apply Hbad, (special_fields_ok h). auto. }
  rewrite (GenerateSchema_struct _ _ Ht Hu),
    (structFields_first_error _ _ _ _ _ _ Hok He).
  reflexivity.
Qed.

Lemma GenerateSchema_slice_error h T e :
  GenerateSchema T = Err e -> GenerateSchema (reflect.TSlice h T) = Err e.
Proof.
  intros He.
  destruct (reflect.Type_eqb (reflect.TSlice h T) ipType) eqn:Hi.
  - apply Type_eqb_eq in Hi. injection Hi as -> ->. discriminate He.
  - rewrite (GenerateSchema_slice _ _ Hi), He. reflexivity.
Qed.

(** A failing field can be taken to be the first one that fails. *)
Lemma first_failing_field fs f :
  In f fs -> isOK (fieldSchema f) = false ->
  exists l1 f' l2 e,
    fs = (l1 ++ f' :: l2)%list /\
    Forall (fun g => isOK (fieldSchema g) = true) l1 /\
    fieldSchema f' = Err e.
Proof.
  induction fs as [|g fs IH]; intros Hin Hbad; [contradiction|].
  destruct (fieldSchema g) as [sg|e] eqn:Hg.
  - destruct Hin as [->|Hin]; [rewrite Hg in Hbad; discriminate|].
    destruct (IH Hin Hbad) as (l1 & f' & l2 & e & -> & Hok & He).
    exists (g :: l1), f', l2, e. split; [reflexivity|]. split; [|exact He].
    constructor; [rewrite Hg; reflexivity | exact Hok].
  - exists [], g, fs, e. split; [reflexivity|]. split; [constructor | exact Hg].
Qed.

(** C8: every failure ends the call with the error and no schema.
    - A type whose kind has no case yields the error whose message names
      the kind and the type.
    - The error of an element type is the result for the pointer, slice or
      array around it.
    - In a struct, the error of the first field that fails, in declaration
      order, is the result, whatever the fields after it.
    - A field fails with the error of its type; it fails when the text of
      an integer-valued tag is not an integer, and, its schema not being a
      string schema, when the text of [default] or [example], or a piece of
      [enum], is not a literal.
    - So a struct with a failing field yields no schema. *)
Theorem C8_fail_fast :
  (forall t, unsupportedKind (reflect.Kind_ t) = true ->
     GenerateSchema t =
     Err (Errorf ("unsupported type " ++ reflect.Kind_String (reflect.Kind_ t)
                  ++ " from " ++ reflect.String_ t))) /\
  (forall h n T e, GenerateSchema T = Err e ->
     GenerateSchema (reflect.TPtr h T) = Err e /\
     GenerateSchema (reflect.TSlice h T) = Err e /\
     GenerateSchema (reflect.TArray h n T) = Err e) /\
  (forall h l1 f l2 e,
     Forall (fun f' => isOK (fieldSchema f') = true) l1 ->
     fieldSchema f = Err e ->
     GenerateSchema (reflect.TStruct h (l1 ++ f :: l2)) = Err e) /\
  (forall f e, GenerateSchema (reflect.Typ f) = Err e -> fieldSchema f = Err e) /\
  (forall f s key v,
     GenerateSchema (reflect.Typ f) = OK s ->
     reflect.Lookup (reflect.Tag f) key = Some v ->
     (In key integerKeys /\ isOK (strconv.Atoi v) = false) \/
     (Type_ s <> "string" /\ In key literalKeys /\
      isOK (json.Unmarshal v) = false) \/
     (Type_ s <> "string" /\ key = "enum" /\
      exists p, In p (strings.Split v ",") /\ isOK (json.Unmarshal p) = false) ->
     isOK (fieldSchema f) = false) /\
  (forall h fs f, In f fs -> isOK (fieldSchema f) = false ->
     isOK (GenerateSchema (reflect.TStruct h fs)) = false).
Proof.
  split; [|split; [|split; [|split; [|split]]]].
  - intros t Hk. destruct t as [h b| | | | | | | |]; try discriminate Hk;
      try reflexivity.
    rewrite GenerateSchema_basic. destruct b; try discriminate Hk; reflexivity.
  - intros h n T e He. split; [|split].
    + rewrite GenerateSchema_ptr. exact He.
    + apply GenerateSchema_slice_error, He.
    + rewrite GenerateSchema_array, He. reflexivity.
  - exact GenerateSchema_struct_first_error.
  - intros f e He. unfold fieldSchema. rewrite He. reflexivity.
  - intros f s key v Hs Hl Hcase. unfold fieldSchema. rewrite Hs. cbn [bind].
    destruct Hcase as [[Hin Hv]|[(Hty & Hin & Hv)|(Hty & -> & p & Hp & Hv)]].
    + eapply applyTags_integer_key; eassumption.
    + eapply applyTags_literal_key; eassumption.
    + eapply applyTags_enum; eassumption.
  - intros h fs f Hin Hbad.
    destruct (first_failing_field _ _ Hin Hbad) as (l1 & f' & l2 & e & -> & Hok & He).
    rewrite (GenerateSchema_struct_first_error _ _ _ _ _ Hok He). reflexivity.
Qed.

Lemma C8_fail_fast_witness :
  GenerateSchema funcType = Err (Errorf "unsupported type func from func()") /\
  GenerateSchema unsupportedStruct =
    Err (Errorf "unsupported type chan from chan int") /\
  isOK (fieldSchema (reflect.mkField "Age" intType [("maximum", "1.5")])) = false /\
  isOK (GenerateSchema enumBadStruct) = false.
Proof.
  destruct C8_fail_fast as (Hkind & _ & Hfirst & Hty & Htag & Hstruct).
  split; [apply (Hkind funcType); reflexivity|].
  split.
  { apply (Hfirst (defined "main" "main" "U") [field "A" stringType]
             (field "B" chanType) [field "C" funcType]).
    - repeat constructor.
    - apply Hty. apply (Hkind chanType). reflexivity. }
  split.
  { apply (Htag _ intSchema "maximum" "1.5"); [reflexivity | reflexivity|].
    left. split; [simpl; auto 10 | reflexivity]. }
  apply (Hstruct _ _ enumBadField); [simpl; auto|].
  apply (Htag _ intSchema "enum" "1,x,3"); [reflexivity | reflexivity|].
  right. right. split; [discriminate|]. split; [reflexivity|].
  exists "x". split; [simpl; auto | reflexivity].
Defined.

(** ** The scenarios of the specification *)

(** The struct with a required [name] and an optional [age] that has a
    minimum. *)
Example personType_schema :
  GenerateSchema personType =
  OK (set_Required (Some ["name"])
        (set_Properties
           (Some (<["age" := set_Minimum (Some 0) intSchema]>
                    {[ "name" := set_Type_ "string" emptySchema ]}))
           (set_Type_ "object" emptySchema))).
Proof. reflexivity. Qed.

(** An integer field tagged [minimum:"0" maximum:"150"]. *)
Example bounded_integer_field :
  fieldSchema (reflect.mkField "Age" intType [("minimum", "0"); ("maximum", "150")]) =
  OK (set_Maximum (Some 150) (set_Minimum (Some 0) intSchema)).
Proof. reflexivity. Qed.

(** A [uint8] field without tags, and one whose [minimum] tag replaces the
    bound the kind gave. *)
Example uint8_field :
  fieldSchema (field "N" uint8Type) = OK uintSchema /\
  fieldSchema (reflect.mkField "N" uint8Type [("minimum", "5")]) =
  OK (set_Minimum (Some 5) intSchema).
Proof. split; reflexivity. Qed.

(** [strconv.Atoi] on texts that are no [int]: the syntax error at a byte
    that is not a digit, unless the digits before it are already beyond a
    [uint64], which is the range error; the range error beyond an [int]. *)
Example Atoi_errors :
  strconv.Atoi "" = Err (NumError "Atoi" "" ErrSyntax) /\
  strconv.Atoi "-" = Err (NumError "Atoi" "-" ErrSyntax) /\
  strconv.Atoi "12x" = Err (NumError "Atoi" "12x" ErrSyntax) /\
  strconv.Atoi "1.5" = Err (NumError "Atoi" "1.5" ErrSyntax) /\
  strconv.Atoi "99999999999999999999x" =
    Err (NumError "Atoi" "99999999999999999999x" ErrRange) /\
  strconv.Atoi "9223372036854775808" =
    Err (NumError "Atoi" "9223372036854775808" ErrRange) /\
  strconv.Atoi "-9223372036854775808" = OK (- 9223372036854775808) /\
  strconv.Atoi "+7" = OK 7.
Proof. repeat split; vm_compute; reflexivity. Qed.

(** The conversion of number literals: the nearest float64, the even one
    of two that are as near; the largest float64 and the first literal
    beyond it; the smallest one and the first literal that is zero. *)
Example ParseFloat_rounding :
  strconv.ParseFloat "0.1" = OK (Float false (3602879701896397 # 36028797018963968)) /\
  strconv.ParseFloat "9007199254740993" = OK (Float false 9007199254740992) /\
  strconv.ParseFloat "-0" = OK (Float true 0) /\
  isOK (strconv.ParseFloat "1.7976931348623158e308") = true /\
  strconv.ParseFloat "1.7976931348623159e308" =
    Err (NumError "ParseFloat" "1.7976931348623159e308" ErrRange) /\
  isOK (strconv.ParseFloat "5e-324") = true /\
  strconv.ParseFloat "2e-324" = OK (Float false 0).
Proof. repeat split; vm_compute; reflexivity. Qed.

(** * Further properties *)

(** ** The tag blocks, one at a time *)

Lemma getTagValue_Type s s' v :
  Type_ s = Type_ s' -> getTagValue s v = getTagValue s' v.
Proof. intros H. unfold getTagValue. rewrite H. reflexivity. Qed.

Lemma enumValues_Type s s' parts : forall acc,
  Type_ s = Type_ s' -> enumValues s parts acc = enumValues s' parts acc.
Proof.
  induction parts as [|v parts IH]; intros acc H; [reflexivity|].
  simpl. rewrite (getTagValue_Type _ _ _ H).
  destruct (getTagValue s' v); [apply IH, H | reflexivity].
Qed.

Lemma tagEnum_Type s s' tag old :
  Type_ s = Type_ s' -> tagEnum s tag old = tagEnum s' tag old.
Proof.
  intros H. unfold tagEnum. destruct (reflect.Lookup tag "enum"); [|reflexivity].
  rewrite (enumValues_Type _ _ _ _ H). reflexivity.
Qed.

Lemma tagLiteral_Type s s' tag key old :
  Type_ s = Type_ s' -> tagLiteral s tag key old = tagLiteral s' tag key old.
Proof.
  intros H. unfold tagLiteral. destruct (reflect.Lookup tag key); [|reflexivity].
  rewrite (getTagValue_Type _ _ _ H). reflexivity.
Qed.

Lemma whenTag_verbatim {A} tag key (f : string -> A) (X : Schema -> A) set s s' :
  (forall x, set (X x) x = x) ->
  whenTag tag key (fun t s => OK (set (f t) s)) s = OK s' ->
  s' = set (match reflect.Lookup tag key with Some t => f t | None => X s end) s.
Proof.
  intros Hid H. unfold whenTag in H.
  destruct (reflect.Lookup tag key); injection H as <-; [reflexivity | symmetry; apply Hid].
Qed.

Lemma whenTag_atoi_OK {A} tag key (inj : Z -> A) (X : Schema -> A) set s s' :
  (forall x, set (X x) x = x) ->
  whenTag tag key (atoi set inj) s = OK s' ->
  s' = set (tagInt inj tag key (X s)) s.
Proof.
  intros Hid H. unfold whenTag, atoi in H. unfold tagInt.
  destruct (reflect.Lookup tag key).
  - destruct (strconv.Atoi s0); [injection H as <-; reflexivity | discriminate].
  - injection H as <-. symmetry. apply Hid.
Qed.

Lemma whenTag_literal_OK tag key (X : Schema -> value) set s s' :
  (forall x, set (X x) x = x) ->
  whenTag tag key (fun t s => v <-- getTagValue s t ;; OK (set v s)) s = OK s' ->
  s' = set (tagLiteral s tag key (X s)) s.
Proof.
  intros Hid H. unfold whenTag in H. unfold tagLiteral.
  destruct (reflect.Lookup tag key).
  - destruct (getTagValue s s0); [injection H as <-; reflexivity | discriminate].
  - injection H as <-. symmetry. apply Hid.
Qed.

Lemma whenTag_enum_OK tag s s' :
  whenTag tag "enum" (fun t s =>
      vs <-- enumValues s (strings.Split t ",") [] ;;
      OK (set_Enum (Some vs) s)) s = OK s' ->
  s' = set_Enum (tagEnum s tag (Enum s)) s.
Proof.
  intros H. unfold whenTag in H. unfold tagEnum.
  destruct (reflect.Lookup tag "enum").
  - destruct (enumValues s _ []); [injection H as <-; reflexivity | discriminate].
  - injection H as <-. destruct s; reflexivity.
Qed.

Ltac set_same := intros x; destruct x; reflexivity.

(** One block of the chain that returned a schema: [lem] says which
    schema, written out on the fields of the one before. *)
Ltac block_result H lem X set :=
  let s' := fresh "s" in
  let E := fresh "E" in
  apply bind_OK in H as (s' & E & H);
  apply lem in E; [|set_same];
  cbn [X set] in E; subst s'.

(** The blocks do not interfere: when [applyTags] returns a schema, it is
    the schema in which each key was applied on its own. *)
Lemma applyTags_OK tag s s' :
  applyTags tag s = OK s' -> s' = tagsApplied tag s.
Proof.
  intros H. unfold applyTags in H.
  destruct s as [ty de it pr rq fo en df ex mi xmi ma xma mo mil mal pa mii mai un mip map].
  set (s0 := mkSchema ty de it pr rq fo en df ex mi xmi ma xma mo mil mal pa
                      mii mai un mip map).
  block_result H (whenTag_verbatim tag "description" (fun t => t) Description set_Description)
    Description set_Description.
  block_result H (whenTag_verbatim tag "format" (fun t => t) Format set_Format)
    Format set_Format.
  apply bind_OK in H as (s3 & E & H). apply whenTag_enum_OK in E.
  match type of E with
  | context [tagEnum ?x tag ?o] => rewrite (tagEnum_Type x s0 tag o eq_refl) in E
  end.
  cbn [Enum set_Enum] in E. subst s3.
  apply bind_OK in H as (s4 & E & H).
  apply (whenTag_literal_OK tag "default" Default set_Default) in E; [|set_same].
  match type of E with
  | context [tagLiteral ?x tag ?k ?o] => rewrite (tagLiteral_Type x s0 tag k o eq_refl) in E
  end.
  cbn [Default set_Default] in E. subst s4.
  apply bind_OK in H as (s5 & E & H).
  apply (whenTag_literal_OK tag "example" Example set_Example) in E; [|set_same].
  match type of E with
  | context [tagLiteral ?x tag ?k ?o] => rewrite (tagLiteral_Type x s0 tag k o eq_refl) in E
  end.
  cbn [Example set_Example] in E. subst s5.
  block_result H (whenTag_atoi_OK tag "minimum" Some Minimum set_Minimum)
    Minimum set_Minimum.
  block_result H
    (whenTag_atoi_OK tag "exclusiveMinimum" Some ExclusiveMinimum set_ExclusiveMinimum)
    ExclusiveMinimum set_ExclusiveMinimum.
  block_result H (whenTag_atoi_OK tag "maximum" Some Maximum set_Maximum)
    Maximum set_Maximum.
  block_result H
    (whenTag_atoi_OK tag "exclusiveMaximum" Some ExclusiveMaximum set_ExclusiveMaximum)
    ExclusiveMaximum set_ExclusiveMaximum.
  block_result H (whenTag_atoi_OK tag "multipleOf" id MultipleOf set_MultipleOf)
    MultipleOf set_MultipleOf.
  block_result H (whenTag_atoi_OK tag "minLength" Some MinLength set_MinLength)
    MinLength set_MinLength.
  block_result H (whenTag_atoi_OK tag "maxLength" Some MaxLength set_MaxLength)
    MaxLength set_MaxLength.
  block_result H (whenTag_verbatim tag "pattern" (fun t => t) Pattern set_Pattern)
    Pattern set_Pattern.
  block_result H (whenTag_atoi_OK tag "minItems" Some MinItems set_MinItems)
    MinItems set_MinItems.
  block_result H (whenTag_atoi_OK tag "maxItems" Some MaxItems set_MaxItems)
    MaxItems set_MaxItems.
  block_result H
    (whenTag_verbatim tag "uniqueItems" (fun t => String.eqb t "true")
       UniqueItems set_UniqueItems)
    UniqueItems set_UniqueItems.
  block_result H (whenTag_atoi_OK tag "minProperties" Some MinProperties set_MinProperties)
    MinProperties set_MinProperties.
  apply (whenTag_atoi_OK tag "maxProperties" Some MaxProperties set_MaxProperties) in H;
    [|set_same].
  cbn [MaxProperties set_MaxProperties] in H. subst s'. reflexivity.
Qed.

Lemma whenTag_ok tag key body s :
  (forall t, reflect.Lookup tag key = Some t ->
             exists s', body t s = OK s' /\ Type_ s' = Type_ s) ->
  exists s', whenTag tag key body s = OK s' /\ Type_ s' = Type_ s.
Proof.
  intros H. unfold whenTag. destruct (reflect.Lookup tag key) as [t|]; [|eauto].
  apply H. reflexivity.
Qed.

Lemma atoi_ok {A} (set : A -> Schema -> Schema) inj t s :
  (forall x v, Type_ (set v x) = Type_ x) ->
  isOK (strconv.Atoi t) = true ->
  exists s', atoi set inj t s = OK s' /\ Type_ s' = Type_ s.
Proof.
  intros Hset Hok. unfold atoi. destruct (strconv.Atoi t); [|discriminate].
  eexists. split; [reflexivity | apply Hset].
Qed.

Lemma getTagValue_ok s t :
  (Type_ s <> "string" -> isOK (json.Unmarshal t) = true) ->
  exists v, getTagValue s t = OK v.
Proof.
  intros H. destruct (String.eqb_spec (Type_ s) "string") as [E|E].
  - rewrite (getTagValue_string _ _ E). eauto.
  - rewrite (getTagValue_other _ _ E). specialize (H E).
    destruct (json.Unmarshal t); [eauto | discriminate].
Qed.

Lemma enumValues_ok s parts :
  (Type_ s <> "string" -> forall p, In p parts -> isOK (json.Unmarshal p) = true) ->
  exists vs, enumValues s parts [] = OK vs.
Proof.
  intros H. destruct (String.eqb_spec (Type_ s) "string") as [E|E].
  - rewrite (enumValues_string _ _ _ E). eauto.
  - destruct (enumValues s parts []) as [vs|e] eqn:Hv; [eauto|].
    assert (Hf : isOK (enumValues s parts []) = false) by (rewrite Hv; reflexivity).
    apply (enumValues_other_fails _ _ _ E) in Hf as (p & Hp & Hbad).
    rewrite (H E p Hp) in Hbad. discriminate.
Qed.

Ltac keeps := intros x v; destruct x; reflexivity.

(** One block of the chain that succeeds: name its schema [s'], record in
    [T'] that its type is the type of the first schema, and go on. *)
Ltac block_ok T s' T' :=
  lazymatch goal with
  | |- exists r, bind (whenTag ?tag ?key ?body ?s) _ = OK r =>
      let E := fresh "E" in
      let T1 := fresh "T1" in
      destruct (whenTag_ok tag key body s) as (s' & E & T1);
      [ | rewrite E; cbn [bind]; pose proof (eq_trans T1 T) as T'; clear E T1 ]
  end.

Lemma applyTags_wellFormed_OK tag s :
  tagsWellFormed tag s -> exists s', applyTags tag s = OK s'.
Proof.
  intros [Hint Hlit].
  assert (Hi : forall key x (set : option Z -> Schema -> Schema),
            In key integerKeys ->
            (forall y v, Type_ (set v y) = Type_ y) ->
            forall t, reflect.Lookup tag key = Some t ->
            exists s', atoi set Some t x = OK s' /\ Type_ s' = Type_ x).
  { intros key x set Hin Hset t Ht. apply atoi_ok; [exact Hset | eapply Hint; eassumption]. }
  assert (Hl : forall key x, Type_ x = Type_ s -> In key literalKeys ->
            forall t, reflect.Lookup tag key = Some t ->
            exists v, getTagValue x t = OK v).
  { intros key x Hx Hin t Ht. apply getTagValue_ok. rewrite Hx. intros Hne.
    eapply (proj1 (Hlit Hne)); eassumption. }
  unfold applyTags.
  assert (T0 : Type_ s = Type_ s) by reflexivity.
  block_ok T0 s1 T1.
  { intros t _. eexists. split; [reflexivity | destruct s; reflexivity]. }
  block_ok T1 s2 T2.
  { intros t _. eexists. split; [reflexivity | destruct s1; reflexivity]. }
  block_ok T2 s3 T3.
  { intros t Ht. destruct (enumValues_ok s2 (strings.Split t ",")) as (vs & ->).
    - rewrite T2. intros Hne p Hp. eapply (proj2 (Hlit Hne)); eassumption.
    - eexists. split; [reflexivity | destruct s2; reflexivity]. }
  block_ok T3 s4 T4.
  { intros t Ht. destruct (Hl "default" s3 T3 ltac:(simpl; auto) t Ht) as (v & ->).
    eexists. split; [reflexivity | destruct s3; reflexivity]. }
  block_ok T4 s5 T5.
  { intros t Ht. destruct (Hl "example" s4 T4 ltac:(simpl; auto) t Ht) as (v & ->).
    eexists. split; [reflexivity | destruct s4; reflexivity]. }
  block_ok T5 s6 T6. { apply Hi; [simpl; auto 20 | keeps]. }
  block_ok T6 s7 T7. { apply Hi; [simpl; auto 20 | keeps]. }
  block_ok T7 s8 T8. { apply Hi; [simpl; auto 20 | keeps]. }
  block_ok T8 s9 T9. { apply Hi; [simpl; auto 20 | keeps]. }
  block_ok T9 s10 T10.
  { intros t Ht. apply atoi_ok; [keeps | eapply Hint; [|exact Ht]; simpl; auto 20]. }
  block_ok T10 s11 T11. { apply Hi; [simpl; auto 20 | keeps]. }
  block_ok T11 s12 T12. { apply Hi; [simpl; auto 20 | keeps]. }
  block_ok T12 s13 T13.
  { intros t _. eexists. split; [reflexivity | destruct s12; reflexivity]. }
  block_ok T13 s14 T14. { apply Hi; [simpl; auto 20 | keeps]. }
  block_ok T14 s15 T15. { apply Hi; [simpl; auto 20 | keeps]. }
  block_ok T15 s16 T16.
  { intros t _. eexists. split; [reflexivity | destruct s15; reflexivity]. }
  block_ok T16 s17 T17. { apply Hi; [simpl; auto 20 | keeps]. }
  destruct (whenTag_ok tag "maxProperties" (atoi set_MaxProperties Some) s17)
    as (s' & E & _); [|eauto].
  apply Hi; [simpl; auto 20 | keeps].
Qed.

(** ** What the tags do to a schema *)

(** X1: the tag blocks return a schema exactly when the tags are well
    formed for the schema they are applied to: every integer-valued key
    present holds an integer and, on a schema that is not a string schema,
    [default], [example] and each piece of [enum] hold a literal. *)
Theorem X1_tags_succeed_iff_well_formed (tag : reflect.StructTag) (s : Schema) :
  isOK (applyTags tag s) = true <-> tagsWellFormed tag s.
Proof.
  split.
  - intros Hok. split; [|intros Hty; split].
    + intros key v Hin Hl.
      destruct (isOK (strconv.Atoi v)) eqn:Hv; [reflexivity|].
      rewrite (applyTags_integer_key _ _ _ _ Hin Hl Hv) in Hok. discriminate.
    + intros key v Hin Hl.
      destruct (isOK (json.Unmarshal v)) eqn:Hv; [reflexivity|].
      rewrite (applyTags_literal_key _ _ _ _ Hty Hin Hl Hv) in Hok. discriminate.
    + intros v p Hl Hp.
      destruct (isOK (json.Unmarshal p)) eqn:Hv; [reflexivity|].
      rewrite (applyTags_enum _ _ _ _ Hty Hl Hp Hv) in Hok. discriminate.
  - intros Hwf. destruct (applyTags_wellFormed_OK _ _ Hwf) as (s' & ->). reflexivity.
Qed.

Lemma X1_tags_succeed_iff_well_formed_witness :
  isOK (applyTags [("json", "age,omitempty"); ("minimum", "0")] intSchema) = true.
Proof.
  apply X1_tags_succeed_iff_well_formed. split.
  - intros key v Hin Hl. simpl in Hin.
    repeat destruct Hin as [<-|Hin]; try contradiction; simpl in Hl;
      try discriminate Hl.
    injection Hl as <-. reflexivity.
  - intros _. split.
    + intros key v Hin Hl. simpl in Hin.
      repeat destruct Hin as [<-|Hin]; try contradiction; discriminate Hl.
    + intros v p Hl. discriminate Hl.
Defined.

(** X2: the blocks do not interfere with one another.  When they return a
    schema, it is the one in which each key has been applied on its own to
    the schema given: the order of the blocks cannot be observed. *)
Theorem X2_tags_apply_independently (tag : reflect.StructTag) (s s' : Schema) :
  applyTags tag s = OK s' -> s' = tagsApplied tag s.
Proof. exact (applyTags_OK tag s s'). Qed.

Lemma X2_tags_apply_independently_witness :
  set_Maximum (Some 150) (set_Minimum (Some 0) intSchema) =
  tagsApplied [("maximum", "150"); ("minimum", "0")] intSchema.
Proof. apply X2_tags_apply_independently. reflexivity. Defined.

(** X3: the tags of a field never touch the structure of its schema: the
    type, the items, the properties and the required names are those of the
    schema of the field's type. *)
Theorem X3_tags_keep_structure (tag : reflect.StructTag) (s s' : Schema) :
  applyTags tag s = OK s' ->
  Type_ s' = Type_ s /\ Items s' = Items s /\
  Properties s' = Properties s /\ Required s' = Required s.
Proof. intros H. rewrite (applyTags_OK _ _ _ H). repeat split. Qed.

Lemma X3_tags_keep_structure_witness :
  exists s', applyTags [("description", "a list"); ("minItems", "1")]
               (set_Items (Some intSchema) (set_Type_ "array" emptySchema)) = OK s' /\
             Type_ s' = "array" /\ Items s' = Some intSchema.
Proof.
  eexists. split; [reflexivity|].
  destruct (X3_tags_keep_structure
              [("description", "a list"); ("minItems", "1")]
              (set_Items (Some intSchema) (set_Type_ "array" emptySchema)) _ eq_refl)
    as (Ht & Hi & _).
  split; [exact Ht | exact Hi].
Defined.

Lemma tagText_absent tag key old :
  reflect.Lookup tag key = None -> tagText tag key old = old.
Proof. intros H. unfold tagText. rewrite H. reflexivity. Qed.

Lemma tagInt_absent {A} (inj : Z -> A) tag key old :
  reflect.Lookup tag key = None -> tagInt inj tag key old = old.
Proof. intros H. unfold tagInt. rewrite H. reflexivity. Qed.

(** X4: a tag without any of the recognised keys changes nothing: the
    field's schema is the schema of the field's type, as it is. *)
Theorem X4_no_recognised_key_no_change (tag : reflect.StructTag) (s : Schema) :
  (forall key, In key recognisedKeys -> reflect.Lookup tag key = None) ->
  applyTags tag s = OK s.
Proof.
  intros Hnone.
  assert (Hwf : tagsWellFormed tag s).
  { split; [|intros _; split].
    - intros key v Hin Hl. rewrite Hnone in Hl; [discriminate|].
      simpl in Hin. simpl.
      repeat destruct Hin as [<-|Hin]; try contradiction; auto 20.
    - intros key v Hin Hl. rewrite Hnone in Hl; [discriminate|].
      simpl in Hin. simpl. repeat destruct Hin as [<-|Hin]; try contradiction; auto 20.
    - intros v p Hl. rewrite Hnone in Hl; [discriminate | simpl; auto]. }
  destruct (applyTags_wellFormed_OK _ _ Hwf) as (s' & H).
  rewrite H. f_equal. rewrite (applyTags_OK _ _ _ H).
  unfold tagsApplied, tagEnum, tagLiteral, tagFlag.
  rewrite !tagText_absent, !tagInt_absent by (apply Hnone; simpl; auto 20).
  rewrite !Hnone by (simpl; auto 20).
  destruct s; reflexivity.
Qed.

Lemma X4_no_recognised_key_no_change_witness :
  applyTags [("json", "name"); ("xml", "n")] uintSchema = OK uintSchema.
Proof.
  apply X4_no_recognised_key_no_change.
  intros key Hin. simpl in Hin.
  repeat destruct Hin as [<-|Hin]; try contradiction; reflexivity.
Defined.

Lemma applyTags_OK_wellFormed tag s s' :
  applyTags tag s = OK s' -> tagsWellFormed tag s.
Proof.
  intros Hok. split; [|intros Hty; split].
  - intros key v Hin Hl.
    destruct (isOK (strconv.Atoi v)) eqn:Hv; [reflexivity|].
    pose proof (applyTags_integer_key _ s _ _ Hin Hl Hv) as Hf.
    rewrite Hok in Hf. discriminate.
  - intros key v Hin Hl.
    destruct (isOK (json.Unmarshal v)) eqn:Hv; [reflexivity|].
    pose proof (applyTags_literal_key _ _ _ _ Hty Hin Hl Hv) as Hf.
    rewrite Hok in Hf. discriminate.
  - intros v p Hl Hp.
    destruct (isOK (json.Unmarshal p)) eqn:Hv; [reflexivity|].
    pose proof (applyTags_enum _ _ _ _ Hty Hl Hp Hv) as Hf.
    rewrite Hok in Hf. discriminate.
Qed.

Lemma Atoi_range v n :
  strconv.Atoi v = OK n -> strconv.minInt <= n <= strconv.maxInt.
Proof.
  unfold strconv.Atoi.
  destruct (match v with
            | String "-"%char r => (true, r)
            | String "+"%char r => (false, r)
            | _ => (false, v)
            end) as [neg body].
  destruct body; [discriminate|].
  destruct (strconv.digits _ 0) as [m|]; [|discriminate].
  destruct ((strconv.minInt <=? (if neg then - m else m)) &&
            ((if neg then - m else m) <=? strconv.maxInt)) eqn:Hr; [|discriminate].
  intros [= <-]. apply andb_true_iff in Hr as [H1 H2]. lia.
Qed.

(** X5: for each integer-valued key, when the tags are applied without
    error: if the key is present, its text is an integer of the range of
    [int] and the constraint is that integer, whatever the schema held
    before (the minimum 0 of an unsigned type too); if the key is absent,
    the constraint is what the schema held. *)
Theorem X5_integer_constraints (tag : reflect.StructTag) (s s' : Schema)
    (key : string) :
  In key integerKeys -> applyTags tag s = OK s' ->
  match reflect.Lookup tag key with
  | Some v =>
      exists n, strconv.Atoi v = OK n /\ constraintOf key s' = Some n /\
                strconv.minInt <= n <= strconv.maxInt
  | None => constraintOf key s' = constraintOf key s
  end.
Proof.
  intros Hin H.
  destruct (reflect.Lookup tag key) as [v|] eqn:Hl.
  - destruct (strconv.Atoi v) as [n|e] eqn:Hv.
    + exists n. split; [reflexivity|]. split; [|exact (Atoi_range _ _ Hv)].
      rewrite (applyTags_OK _ _ _ H). simpl in Hin.
      repeat destruct Hin as [<-|Hin]; try contradiction;
        cbn [constraintOf String.eqb Ascii.eqb Bool.eqb tagsApplied
             Minimum ExclusiveMinimum Maximum ExclusiveMaximum MultipleOf
             MinLength MaxLength MinItems MaxItems MinProperties MaxProperties];
        unfold tagInt; rewrite Hl, Hv; reflexivity.
    + assert (Hf : isOK (applyTags tag s) = false).
      { eapply applyTags_integer_key; [exact Hin | exact Hl | rewrite Hv; reflexivity]. }
      rewrite H in Hf. discriminate.
  - rewrite (applyTags_OK _ _ _ H). simpl in Hin.
    repeat destruct Hin as [<-|Hin]; try contradiction;
      cbn [constraintOf String.eqb Ascii.eqb Bool.eqb tagsApplied
           Minimum ExclusiveMinimum Maximum ExclusiveMaximum MultipleOf
           MinLength MaxLength MinItems MaxItems MinProperties MaxProperties];
      unfold tagInt; rewrite Hl; reflexivity.
Qed.

Lemma X5_integer_constraints_witness :
  exists n, strconv.Atoi "5" = OK n /\
            constraintOf "minimum" (set_Minimum (Some 5) intSchema) = Some n /\
            strconv.minInt <= n <= strconv.maxInt.
Proof.
  apply (X5_integer_constraints [("minimum", "5")] uintSchema
           (set_Minimum (Some 5) intSchema) "minimum").
  - simpl. auto.
  - reflexivity.
Defined.

(** X6: when the tags are applied without error, [description], [format]
    and [pattern] hold the text of their tag as it is when the tag is
    present (a [format] tag replaces the format a special type gave) and
    what the schema held otherwise; [uniqueItems] is true for the text
    [true] and false for any other text. *)
Theorem X6_verbatim_keys (tag : reflect.StructTag) (s s' : Schema) :
  applyTags tag s = OK s' ->
  (forall t, reflect.Lookup tag "description" = Some t -> Description s' = t) /\
  (forall t, reflect.Lookup tag "format" = Some t -> Format s' = t) /\
  (forall t, reflect.Lookup tag "pattern" = Some t -> Pattern s' = t) /\
  (forall t, reflect.Lookup tag "uniqueItems" = Some t ->
             (UniqueItems s' = true <-> t = "true")) /\
  (reflect.Lookup tag "description" = None -> Description s' = Description s) /\
  (reflect.Lookup tag "format" = None -> Format s' = Format s) /\
  (reflect.Lookup tag "pattern" = None -> Pattern s' = Pattern s) /\
  (reflect.Lookup tag "uniqueItems" = None -> UniqueItems s' = UniqueItems s).
Proof.
  intros H. rewrite (applyTags_OK _ _ _ H).
  cbn [tagsApplied Description Format Pattern UniqueItems].
  unfold tagText, tagFlag.
  repeat split; try (intros t Ht; rewrite Ht; reflexivity);
    try (intros Ht; rewrite Ht; reflexivity).
  - intros Hu. rewrite H0 in Hu. apply String.eqb_eq, Hu.
  - intros ->. rewrite H0. reflexivity.
Qed.

Lemma X6_verbatim_keys_witness :
  exists s', fieldSchema (reflect.mkField "At" timeType
                            [("format", "date"); ("uniqueItems", "TRUE")]) = OK s' /\
             Format s' = "date" /\ UniqueItems s' <> true.
Proof.
  eexists. split; [reflexivity|].
  destruct (X6_verbatim_keys [("format", "date"); ("uniqueItems", "TRUE")]
              (stringSchema "date-time") _ eq_refl) as (_ & Hf & _ & Hu & _).
  split; [apply Hf; reflexivity|].
  intros Ht. apply (Hu "TRUE" eq_refl) in Ht. discriminate Ht.
Defined.

(** ** The enum tag *)

Lemma commaJoined_cons p rest :
  rest <> [] -> commaJoined (p :: rest) = p ++ "," ++ commaJoined rest.
Proof. destruct rest; [contradiction | reflexivity]. Qed.

(** Splitting at the commas loses nothing. *)
Lemma commaJoined_Split t : commaJoined (strings.Split t ",") = t.
Proof.
  induction t as [|c r IH]; [reflexivity|].
  cbn [strings.Split]. destruct (Ascii.eqb_spec c ","%char) as [->|Hc].
  - rewrite commaJoined_cons by apply Split_nonempty. rewrite IH. reflexivity.
  - destruct (strings.Split r ",") as [|h tl] eqn:E.
    + exfalso. exact (Split_nonempty _ _ E).
    + destruct tl as [|h' tl'].
      * simpl in IH |- *. rewrite IH. reflexivity.
      * rewrite commaJoined_cons by discriminate.
        rewrite commaJoined_cons in IH by discriminate.
        simpl. rewrite <- IH. reflexivity.
Qed.

Lemma map_textOf_VString l : map textOf (map VString l) = l.
Proof. induction l as [|x l IH]; [reflexivity|]. simpl. rewrite IH. reflexivity. Qed.

(** X7: when the tags are applied without error and the [enum] key is
    present, [enum] is a list with one value per piece of the tag text, so
    never the empty list.  On a string schema the values are the pieces
    themselves, and putting them together with commas gives the tag text
    back; on another schema each value is the decoded piece. *)
Theorem X7_enum_values (tag : reflect.StructTag) (s s' : Schema) (t : string) :
  applyTags tag s = OK s' -> reflect.Lookup tag "enum" = Some t ->
  exists vs,
    Enum s' = Some vs /\ vs <> [] /\
    length vs = length (strings.Split t ",") /\
    (Type_ s = "string" ->
     vs = map VString (strings.Split t ",") /\ commaJoined (map textOf vs) = t) /\
    (Type_ s <> "string" ->
     Forall2 (fun p w => json.Unmarshal p = OK w) (strings.Split t ",") vs).
Proof.
  intros H Hl.
  pose proof (applyTags_OK_wellFormed _ _ _ H) as Hwf.
  rewrite (applyTags_OK _ _ _ H). cbn [tagsApplied Enum]. unfold tagEnum. rewrite Hl.
  destruct (String.eqb_spec (Type_ s) "string") as [E|E].
  - rewrite (enumValues_string _ _ _ E). cbn [app].
    exists (map VString (strings.Split t ",")).
    split; [reflexivity|]. split.
    { pose proof (Split_nonempty t ","%char) as Hne.
      destruct (strings.Split t ","); [contradiction | discriminate]. }
    split; [apply length_map|]. split; [|contradiction].
    intros _. split; [reflexivity|].
    rewrite map_textOf_VString. apply commaJoined_Split.
  - destruct (enumValues_ok s (strings.Split t ",")) as (vs & Hvs).
    { intros Hne p Hp. eapply (proj2 (proj2 Hwf Hne)); eassumption. }
    rewrite Hvs. apply (enumValues_other_OK _ _ _ _ E) in Hvs as (ws & Hws & ->).
    cbn [app]. exists ws. split; [reflexivity|].
    pose proof (Split_nonempty t ","%char) as Hne.
    split; [|split; [|split; [contradiction | intros _; exact Hws]]].
    + inversion Hws; subst; [congruence | discriminate].
    + symmetry. eapply Forall2_length, Hws.
Qed.

Lemma X7_enum_values_witness :
  exists vs,
    Enum (set_Enum (Some [VString "a"; VString "b"; VString "c"])
            (set_Type_ "string" emptySchema)) = Some vs /\ vs <> [] /\
    length vs = length (strings.Split "a,b,c" ",") /\
    (Type_ (set_Type_ "string" emptySchema) = "string" ->
     vs = map VString (strings.Split "a,b,c" ",") /\
     commaJoined (map textOf vs) = "a,b,c") /\
    (Type_ (set_Type_ "string" emptySchema) <> "string" ->
     Forall2 (fun p w => json.Unmarshal p = OK w) (strings.Split "a,b,c" ",") vs).
Proof.
  apply (X7_enum_values [("json", "e"); ("enum", "a,b,c")]
           (set_Type_ "string" emptySchema)); reflexivity.
Defined.

(** A comma in the text separates what is split before it from what is
    split after it. *)
Lemma Split_app_comma a b :
  strings.Split (a ++ String ","%char b) "," =
  (strings.Split a "," ++ strings.Split b ",")%list.
Proof.
  induction a as [|c r IH].
  - reflexivity.
  - change (String c r ++ String ","%char b) with (String c (r ++ String ","%char b)).
    cbn [strings.Split]. rewrite IH.
    destruct (Ascii.eqb c ","%char); [reflexivity|].
    destruct (strings.Split r ",") as [|h tl] eqn:E; [|reflexivity].
    exfalso. exact (Split_nonempty _ _ E).
Qed.

(** X8: on a schema that is not a string schema, an [enum] tag with an
    empty piece makes the tags fail: the empty text, a text that begins or
    ends with a comma, a text with two commas in a row. *)
Theorem X8_empty_enum_piece_fails (tag : reflect.StructTag) (s : Schema)
    (t : string) :
  Type_ s <> "string" -> reflect.Lookup tag "enum" = Some t ->
  t = "" \/ (exists a, t = String ","%char a) \/
  (exists a, t = a ++ ",") \/ (exists a b, t = a ++ ",," ++ b) ->
  isOK (applyTags tag s) = false.
Proof.
  intros Hty Hl Hcase.
  apply (applyTags_enum tag s t "" Hty Hl); [|reflexivity].
  destruct Hcase as [->|[(a & ->)|[(a & ->)|(a & b & ->)]]].
  - simpl. auto.
  - simpl. auto.
  - change (a ++ ",") with (a ++ String ","%char ""). rewrite Split_app_comma.
    apply in_or_app. right. simpl. auto.
  - change (a ++ ",," ++ b) with (a ++ String ","%char (String ","%char b)).
    rewrite Split_app_comma. apply in_or_app. right. simpl. auto.
Qed.

Lemma X8_empty_enum_piece_fails_witness :
  isOK (applyTags [("enum", "1,2,")] intSchema) = false.
Proof.
  apply (X8_empty_enum_piece_fails _ _ "1,2,").
  - discriminate.
  - reflexivity.
  - right. right. left. exists "1,2". reflexivity.
Defined.

(** ** Which types have a schema *)

Lemma fieldSchema_OK_iff f :
  isOK (fieldSchema f) = true <->
  exists s, GenerateSchema (reflect.Typ f) = OK s /\ tagsWellFormed (reflect.Tag f) s.
Proof.
  unfold fieldSchema. split.
  - destruct (GenerateSchema (reflect.Typ f)) as [s|e]; [|discriminate].
    cbn [bind]. intros H. exists s. split; [reflexivity|].
    destruct (applyTags (reflect.Tag f) s) as [s'|] eqn:E; [|discriminate].
    exact (applyTags_OK_wellFormed _ _ _ E).
  - intros (s & -> & Hwf). cbn [bind].
    destruct (applyTags_wellFormed_OK _ _ Hwf) as (s' & ->). reflexivity.
Qed.

Lemma GenerateSchema_struct_isOK h fs :
  isOK (GenerateSchema (reflect.TStruct h fs)) = true <->
  Forall (fun f => isOK (fieldSchema f) = true) fs.
Proof.
  destruct (reflect.Type_eqb (reflect.TStruct h fs) timeType) eqn:Ht.
  { split; [intros _; apply (special_fields_ok h); auto|].
    intros _. apply Type_eqb_eq in Ht. rewrite Ht. reflexivity. }
  destruct (reflect.Type_eqb (reflect.TStruct h fs) uriType) eqn:Hu.
  { split; [intros _; apply (special_fields_ok h); auto|].
    intros _. apply Type_eqb_eq in Hu. rewrite Hu. reflexivity. }
  rewrite (GenerateSchema_struct _ _ Ht Hu). split.
  - intros H.
    destruct (structFields GenerateSchema fs ∅ []) as [x|] eqn:E; [|discriminate].
    exact (structFields_fields_ok _ _ _ _ E).
  - intros H. destruct (structFields_ok fs ∅ [] H) as (p & r & ->). reflexivity.
Qed.

Lemma GenerateSchema_slice_isOK h T :
  isOK (GenerateSchema (reflect.TSlice h T)) = isOK (GenerateSchema T).
Proof.
  destruct (reflect.Type_eqb (reflect.TSlice h T) ipType) eqn:Hi.
  - apply Type_eqb_eq in Hi. injection Hi as -> ->. reflexivity.
  - rewrite (GenerateSchema_slice _ _ Hi). destruct (GenerateSchema T); reflexivity.
Qed.

(** X9: a type has a schema exactly when its parts have one.  A struct:
    when each field has a schema; a field: when its type has a schema for
    which the field's tags are well formed; a slice, an array, a pointer:
    when the element type has one; a map: always; a channel, a function, an
    interface: never. *)
Theorem X9_schema_iff_parts :
  (forall h fs,
     isOK (GenerateSchema (reflect.TStruct h fs)) = true <->
     Forall (fun f => isOK (fieldSchema f) = true) fs) /\
  (forall f,
     isOK (fieldSchema f) = true <->
     exists s, GenerateSchema (reflect.Typ f) = OK s /\
               tagsWellFormed (reflect.Tag f) s) /\
  (forall h n T,
     isOK (GenerateSchema (reflect.TSlice h T)) = isOK (GenerateSchema T) /\
     isOK (GenerateSchema (reflect.TArray h n T)) = isOK (GenerateSchema T) /\
     isOK (GenerateSchema (reflect.TPtr h T)) = isOK (GenerateSchema T)) /\
  (forall h k e, isOK (GenerateSchema (reflect.TMap h k e)) = true) /\
  (forall h e,
     isOK (GenerateSchema (reflect.TChan h e)) = false /\
     isOK (GenerateSchema (reflect.TFunc h)) = false /\
     isOK (GenerateSchema (reflect.TInterface h)) = false).
Proof.
  split; [exact GenerateSchema_struct_isOK|].
  split; [exact fieldSchema_OK_iff|].
  split; [|split; [reflexivity | repeat split]].
  intros h n T. split; [apply GenerateSchema_slice_isOK|]. split.
  - rewrite GenerateSchema_array. destruct (GenerateSchema T); reflexivity.
  - rewrite GenerateSchema_ptr. reflexivity.
Qed.

(** ** The properties of a struct *)

Lemma structFields_lookup fs : forall p r p' r' n,
  structFields GenerateSchema fs p r = OK (p', r') ->
  p' !! n = match lastNamed n fs with
            | Some f => schemaOf (fieldSchema f)
            | None => p !! n
            end.
Proof.
  induction fs as [|f fs IH]; intros p r p' r' n H.
  - injection H as <- <-. reflexivity.
  - rewrite structFields_cons in H. apply bind_OK in H as (s & Hs & H).
    rewrite (IH _ _ _ _ n H). cbn [lastNamed].
    destruct (lastNamed n fs); [reflexivity|].
    destruct (String.eqb_spec (fieldName f) n) as [->|Hne].
    + rewrite lookup_insert_eq, Hs. reflexivity.
    + apply lookup_insert_ne. exact Hne.
Qed.

Lemma lastNamed_Some n fs f :
  lastNamed n fs = Some f -> In f fs /\ fieldName f = n.
Proof.
  induction fs as [|g fs IH]; [discriminate|]. cbn [lastNamed].
  destruct (lastNamed n fs) as [x|].
  - intros [= <-]. destruct (IH eq_refl) as [Hin Hn]. split; [right; exact Hin | exact Hn].
  - destruct (String.eqb_spec (fieldName g) n) as [E|E]; [|discriminate].
    intros [= <-]. split; [left; reflexivity | exact E].
Qed.

Lemma lastNamed_None n fs :
  lastNamed n fs = None -> Forall (fun f => fieldName f <> n) fs.
Proof.
  induction fs as [|g fs IH]; [constructor|]. cbn [lastNamed].
  destruct (lastNamed n fs) as [x|]; [discriminate|].
  destruct (String.eqb_spec (fieldName g) n) as [E|E]; [discriminate|].
  intros _. constructor; [exact E | apply IH; reflexivity].
Qed.

(** X10: in the schema of a struct that is walked field by field,
    [properties] is absent when the struct has no field, and otherwise
    holds, under each name, the schema of the last field that resolves to
    that name, and nothing under any other name; it has at most one entry
    per field. *)
Theorem X10_properties_by_name (h : reflect.rtype)
    (fs : list reflect.StructField) (s : Schema) :
  reflect.Type_eqb (reflect.TStruct h fs) timeType = false ->
  reflect.Type_eqb (reflect.TStruct h fs) uriType = false ->
  GenerateSchema (reflect.TStruct h fs) = OK s ->
  Type_ s = "object" /\
  (fs = [] -> Properties s = None) /\
  (fs <> [] ->
   exists props,
     Properties s = Some props /\
     (forall n, props !! n = match lastNamed n fs with
                             | Some f => schemaOf (fieldSchema f)
                             | None => None
                             end) /\
     (forall n, is_Some (props !! n) <-> exists f, In f fs /\ fieldName f = n) /\
     (size props <= length fs)%nat).
Proof.
  intros Ht Hu H.
  destruct (GenerateSchema_struct_OK _ _ _ Ht Hu H) as (p & Hloop & ->).
  split; [|split].
  - unfold attach. destruct (0 <? size p)%nat, (0 <? length (requiredNames fs))%nat;
      reflexivity.
  - intros ->. injection Hloop as <-. reflexivity.
  - intros Hne. exists p.
    pose proof (structFields_fields_ok _ _ _ _ Hloop) as Hok.
    assert (Hlook : forall n, p !! n = match lastNamed n fs with
                                       | Some f => schemaOf (fieldSchema f)
                                       | None => None
                                       end).
    { intros n. rewrite (structFields_lookup _ _ _ _ _ n Hloop).
      destruct (lastNamed n fs); [reflexivity | apply lookup_empty]. }
    split; [|split; [exact Hlook|split]].
    + rewrite Properties_attach, (structFields_nonempty _ _ _ _ _ Hloop Hne). reflexivity.
    + intros n. rewrite Hlook. split.
      * destruct (lastNamed n fs) as [f|] eqn:E; [|intros [x Hx]; discriminate].
        intros _. exists f. exact (lastNamed_Some _ _ _ E).
      * intros (f & Hin & Hn).
        destruct (lastNamed n fs) as [g|] eqn:E.
        -- destruct (lastNamed_Some _ _ _ E) as [Hg _].
           rewrite List.Forall_forall in Hok. specialize (Hok g Hg).
           destruct (fieldSchema g); [eexists; reflexivity | discriminate].
        -- apply lastNamed_None in E. rewrite List.Forall_forall in E.
           exfalso. exact (E f Hin Hn).
    + apply structFields_size in Hloop. rewrite map_size_empty in Hloop. exact Hloop.
Qed.

Lemma X10_properties_by_name_witness :
  exists s props,
    GenerateSchema collidingStruct = OK s /\ Properties s = Some props /\
    props !! "x" = Some intSchema /\ props !! "A" = None.
Proof.
  eexists.
  destruct (X10_properties_by_name (reflect.header collidingStruct) [fieldA; fieldB]
              _ eq_refl eq_refl eq_refl) as (_ & _ & Hp).
  destruct (Hp ltac:(discriminate)) as (props & Hprops & Hlook & _).
  exists props. split; [reflexivity|]. split; [exact Hprops|].
  split; [rewrite Hlook; reflexivity | rewrite Hlook; reflexivity].
Defined.

(** ** Pointer fields *)

Lemma GenerateSchema_pointers hs T :
  GenerateSchema (pointers hs T) = GenerateSchema T.
Proof.
  induction hs as [|h hs IH]; [reflexivity|].
  unfold pointers in *. cbn [fold_right]. rewrite GenerateSchema_ptr. exact IH.
Qed.

Lemma structFields_congruence fs : forall gs p r,
  Forall2 (fun f g => fieldName g = fieldName f /\
                      fieldOptional g = fieldOptional f /\
                      fieldSchema g = fieldSchema f) fs gs ->
  structFields GenerateSchema gs p r = structFields GenerateSchema fs p r.
Proof.
  induction fs as [|f fs IH]; intros gs p r H; inversion H as [|? g ? gs' (Hn & Ho & Hs) Hrest];
    subst; [reflexivity|].
  rewrite !structFields_cons, Hn, Ho, Hs.
  destruct (fieldSchema f); [cbn [bind]; apply IH, Hrest | reflexivity].
Qed.

Lemma not_special_by_name h fs :
  h <> reflect.header timeType -> h <> reflect.header uriType ->
  reflect.Type_eqb (reflect.TStruct h fs) timeType = false /\
  reflect.Type_eqb (reflect.TStruct h fs) uriType = false.
Proof.
  intros Ht Hu. split.
  - destruct (reflect.Type_eqb (reflect.TStruct h fs) timeType) eqn:E; [|reflexivity].
    apply Type_eqb_eq in E. injection E as -> _. contradiction.
  - destruct (reflect.Type_eqb (reflect.TStruct h fs) uriType) eqn:E; [|reflexivity].
    apply Type_eqb_eq in E. injection E as -> _. contradiction.
Qed.

(** X11: a field of pointer type is described as a field of the element
    type: putting the types of fields under pointers changes nothing in the
    schema of a struct (other than the time and the URL type); the field
    becomes neither optional nor nullable. *)
Theorem X11_pointer_fields (h : reflect.rtype)
    (fs gs : list reflect.StructField) :
  h <> reflect.header timeType -> h <> reflect.header uriType ->
  Forall2 pointerVariant fs gs ->
  GenerateSchema (reflect.TStruct h gs) = GenerateSchema (reflect.TStruct h fs).
Proof.
  intros Ht Hu Hv.
  destruct (not_special_by_name h fs Ht Hu) as [Ht1 Hu1].
  destruct (not_special_by_name h gs Ht Hu) as [Ht2 Hu2].
  rewrite (GenerateSchema_struct _ _ Ht1 Hu1), (GenerateSchema_struct _ _ Ht2 Hu2).
  rewrite (structFields_congruence fs gs); [reflexivity|].
  eapply Forall2_impl; [exact Hv|].
  intros f g (Hname & Htag & hs & Htyp).
  unfold fieldName, fieldOptional, jsonTags, fieldSchema.
  rewrite Hname, Htag, Htyp, GenerateSchema_pointers. auto.
Qed.

Lemma X11_pointer_fields_witness :
  GenerateSchema
    (reflect.TStruct (defined "main" "main" "Person")
       [reflect.mkField "Name" (reflect.TPtr (literal "*string") stringType)
          [("json", "name")];
        ageField]) =
  GenerateSchema personType.
Proof.
  apply X11_pointer_fields; [discriminate | discriminate|].
  constructor.
  - split; [reflexivity|]. split; [reflexivity|].
    exists [literal "*string"]. reflexivity.
  - constructor; [|constructor].
    split; [reflexivity|]. split; [reflexivity|]. exists []. reflexivity.
Defined.

(** ** The shape of a generated schema *)

Lemma wellShaped_structure s s' :
  wellShaped s ->
  Type_ s' = Type_ s -> Items s' = Items s ->
  Properties s' = Properties s -> Required s' = Required s ->
  wellShaped s'.
Proof.
  intros [x H1 H2 H3 H4 H5 H6 H7 H8 H9] Ht Hi Hp Hr.
  constructor; rewrite ?Ht, ?Hi, ?Hp, ?Hr; assumption.
Qed.

Lemma wellShaped_leaf s :
  In (Type_ s) [""; "object"; "string"; "integer"; "number"; "boolean"] ->
  Items s = None -> Properties s = None -> Required s = None ->
  wellShaped s.
Proof.
  intros Ht Hi Hp Hr. constructor; rewrite ?Hi, ?Hp, ?Hr; try congruence.
  - simpl in Ht |- *. tauto.
  - split; [congruence|]. intros E. rewrite E in Ht. simpl in Ht.
    repeat destruct Ht as [Ht|Ht]; try discriminate Ht; contradiction.
Qed.

Lemma applyTags_wellShaped tag s s' :
  applyTags tag s = OK s' -> wellShaped s -> wellShaped s'.
Proof.
  intros H Hs. rewrite (applyTags_OK _ _ _ H).
  apply (wellShaped_structure s); [exact Hs | reflexivity..].
Qed.

Lemma structFields_wellShaped fs : forall p r p' r',
  structFields GenerateSchema fs p r = OK (p', r') ->
  Forall (fun f => forall s, GenerateSchema (reflect.Typ f) = OK s -> wellShaped s) fs ->
  (forall k x, p !! k = Some x -> wellShaped x) ->
  (forall n, In n r -> is_Some (p !! n)) ->
  (forall k x, p' !! k = Some x -> wellShaped x) /\
  (forall n, In n r' -> is_Some (p' !! n)).
Proof.
  induction fs as [|f fs IH]; intros p r p' r' H Hfs Hp Hr.
  - injection H as <- <-. auto.
  - rewrite structFields_cons in H. apply bind_OK in H as (s & Hs & H).
    inversion Hfs as [|? ? Hf Hrest]; subst.
    unfold fieldSchema in Hs. apply bind_OK in Hs as (s0 & Hs0 & Htags).
    apply (IH _ _ _ _ H Hrest).
    + intros k x. destruct (String.eqb_spec (fieldName f) k) as [->|Hne].
      * rewrite lookup_insert_eq. intros [= <-].
        exact (applyTags_wellShaped _ _ _ Htags (Hf _ Hs0)).
      * rewrite lookup_insert_ne by exact Hne. apply Hp.
    + intros n Hn.
      destruct (String.eqb_spec (fieldName f) n) as [->|Hne].
      * rewrite lookup_insert_eq. eauto.
      * rewrite lookup_insert_ne by exact Hne. apply Hr.
        destruct (fieldOptional f); [exact Hn|].
        apply in_app_or in Hn as [Hn|[Hn|[]]]; [exact Hn | contradiction].
Qed.

Lemma Type_attach p r s0 : Type_ (attach p r s0) = Type_ s0.
Proof. unfold attach. destruct s0, (0 <? size p)%nat, (0 <? length r)%nat; reflexivity. Qed.

Lemma Items_attach p r s0 : Items (attach p r s0) = Items s0.
Proof. unfold attach. destruct s0, (0 <? size p)%nat, (0 <? length r)%nat; reflexivity. Qed.

Lemma GenerateSchema_wellShaped t : forall s,
  GenerateSchema t = OK s -> wellShaped s.
Proof.
  induction t as [h b|h n e IH|h e IH|h e IH|h k e _ _|h e _|h|h|h fs IH]
    using Type_induction; intros s H.
  - rewrite GenerateSchema_basic in H.
    destruct b; try discriminate H; injection H as <-;
      apply wellShaped_leaf; simpl; auto 10.
  - rewrite GenerateSchema_array in H. apply bind_OK in H as (x & Hx & H).
    injection H as <-. constructor; simpl; try congruence; auto 10.
    + split; [reflexivity | congruence].
    + intros i [= <-]. exact (IH _ Hx).
  - destruct (reflect.Type_eqb (reflect.TSlice h e) ipType) eqn:Hi.
    + apply Type_eqb_eq in Hi. rewrite Hi in H. injection H as <-.
      apply wellShaped_leaf; simpl; auto 10.
    + rewrite (GenerateSchema_slice _ _ Hi) in H. apply bind_OK in H as (x & Hx & H).
      injection H as <-. constructor; simpl; try congruence; auto 10.
      * split; [reflexivity | congruence].
      * intros i [= <-]. exact (IH _ Hx).
  - rewrite GenerateSchema_ptr in H. exact (IH _ H).
  - injection H as <-. apply wellShaped_leaf; simpl; auto 10.
  - discriminate H.
  - discriminate H.
  - discriminate H.
  - destruct (reflect.Type_eqb (reflect.TStruct h fs) timeType) eqn:Ht.
    { apply Type_eqb_eq in Ht. rewrite Ht in H. injection H as <-.
      apply wellShaped_leaf; simpl; auto 10. }
    destruct (reflect.Type_eqb (reflect.TStruct h fs) uriType) eqn:Hu.
    { apply Type_eqb_eq in Hu. rewrite Hu in H. injection H as <-.
      apply wellShaped_leaf; simpl; auto 10. }
    destruct (GenerateSchema_struct_OK _ _ _ Ht Hu H) as (p & Hloop & ->).
    destruct (structFields_wellShaped _ _ _ _ _ Hloop IH) as [Hchild Hreq].
    { intros k x Hk. rewrite lookup_empty in Hk. discriminate. }
    { intros n []. }
    constructor;
      rewrite ?Type_attach, ?Items_attach, ?Properties_attach, ?Required_attach.
    + simpl. auto.
    + simpl. split; [congruence | discriminate].
    + reflexivity.
    + reflexivity.
    + destruct (0 <? size p)%nat eqn:Hs; [|discriminate].
      intros [= ->]. rewrite map_size_empty in Hs. discriminate.
    + destruct (requiredNames fs); discriminate.
    + intros req n Hr Hn.
      assert (req = requiredNames fs) as ->.
      { destruct (requiredNames fs); [discriminate | congruence]. }
      assert (Hne : fs <> []).
      { intros ->. exact Hn. }
      rewrite (structFields_nonempty _ _ _ _ _ Hloop Hne).
      exists p. split; [reflexivity | exact (Hreq n Hn)].
    + intros i Hi. discriminate Hi.
    + intros props k x Hp Hk.
      destruct (0 <? size p)%nat; [|discriminate].
      injection Hp as <-. exact (Hchild k x Hk).
Qed.

(** X12: every schema the generator returns is well shaped at every node:
    its type is one of object, array, string, integer, number, boolean or
    none; it has items exactly when it is an array schema; it has
    properties or required names only as an object schema, never as an
    empty map or an empty list; every required name is a key of its
    properties; and its items and each of its properties are well shaped
    in the same way. *)
Theorem X12_generated_schema_well_shaped (t : reflect.Type_) (s : Schema) :
  GenerateSchema t = OK s -> wellShaped s.
Proof. apply GenerateSchema_wellShaped. Qed.

Lemma X12_generated_schema_well_shaped_witness :
  exists s, GenerateSchema personType = OK s /\ wellShaped s.
Proof.
  eexists. split; [reflexivity|].
  apply (X12_generated_schema_well_shaped personType). reflexivity.
Defined.

(** ** The errors of the generator *)

Lemma Atoi_Err v e :
  strconv.Atoi v = Err e -> exists k, e = NumError "Atoi" v k.
Proof.
  unfold strconv.Atoi.
  destruct (match v with
            | String "-"%char r => (true, r)
            | String "+"%char r => (false, r)
            | _ => (false, v)
            end) as [neg body].
  destruct body; [intros [= <-]; eauto|].
  destruct (strconv.digits _ 0) as [m|]; [|intros [= <-]; eauto].
  destruct ((strconv.minInt <=? (if neg then - m else m)) &&
            ((if neg then - m else m) <=? strconv.maxInt));
    [discriminate | intros [= <-]; eauto].
Qed.

Lemma getTagValue_Err s v e :
  getTagValue s v = Err e ->
  e = SyntaxError \/ exists lit, e = UnmarshalTypeError ("number " ++ lit).
Proof.
  unfold getTagValue. destruct (String.eqb (Type_ s) "string"); [discriminate|].
  intros H. destruct (Unmarshal_Err _ _ H) as [->|(lit & -> & _)]; eauto.
Qed.

Lemma enumValues_Err s parts : forall acc e,
  enumValues s parts acc = Err e ->
  e = SyntaxError \/ exists lit, e = UnmarshalTypeError ("number " ++ lit).
Proof.
  induction parts as [|v parts IH]; intros acc e H; [discriminate|].
  simpl in H. destruct (getTagValue s v) as [w|e'] eqn:Hv.
  - eapply IH, H.
  - injection H as <-. eapply getTagValue_Err, Hv.
Qed.

Lemma whenTag_verbatim_Err {A} tag key (f : string -> A) set s e :
  whenTag tag key (fun t s => OK (set (f t) s)) s = Err e -> tagError e.
Proof. unfold whenTag. destruct (reflect.Lookup tag key); discriminate. Qed.

Lemma whenTag_atoi_Err_inv {A} tag key (set : A -> Schema -> Schema) inj s e :
  whenTag tag key (atoi set inj) s = Err e -> tagError e.
Proof.
  unfold whenTag, atoi. destruct (reflect.Lookup tag key) as [t|]; [|discriminate].
  destruct (strconv.Atoi t) as [n|e'] eqn:Hv; [discriminate|].
  intros [= <-]. left. destruct (Atoi_Err _ _ Hv) as (k & ->). eauto.
Qed.

Lemma whenTag_literal_Err tag key set s e :
  whenTag tag key (fun t s => v <-- getTagValue s t ;; OK (set v s)) s = Err e ->
  tagError e.
Proof.
  unfold whenTag. destruct (reflect.Lookup tag key) as [t|]; [|discriminate].
  destruct (getTagValue s t) as [v|e'] eqn:Hv; [discriminate|].
  intros [= <-]. right. eapply getTagValue_Err, Hv.
Qed.

Lemma whenTag_enum_Err tag s e :
  whenTag tag "enum" (fun t s =>
      vs <-- enumValues s (strings.Split t ",") [] ;;
      OK (set_Enum (Some vs) s)) s = Err e ->
  tagError e.
Proof.
  unfold whenTag. destruct (reflect.Lookup tag "enum") as [t|]; [|discriminate].
  destruct (enumValues s _ []) as [v|e'] eqn:Hv; [discriminate|].
  intros [= <-]. right. eapply enumValues_Err, Hv.
Qed.

(** One block of a chain that ended in an error: the error is the block's,
    or the block gave a schema and the error comes from further on. *)
Ltac block_error H :=
  lazymatch type of H with
  | bind ?r _ = Err _ =>
      let E := fresh "E" in
      destruct r eqn:E; cbn [bind] in H;
      [ clear E
      | injection H as <-;
        first [ exact (whenTag_atoi_Err_inv _ _ _ _ _ _ E)
              | exact (whenTag_literal_Err _ _ _ _ _ E)
              | exact (whenTag_enum_Err _ _ _ E)
              | exact (whenTag_verbatim_Err _ _ (fun t => t) _ _ _ E)
              | exact (whenTag_verbatim_Err _ _ (fun t => String.eqb t "true") _ _ _ E) ] ]
  end.

Lemma applyTags_Err tag s e : applyTags tag s = Err e -> tagError e.
Proof.
  intros H. unfold applyTags in H.
  do 17 block_error H.
  exact (whenTag_atoi_Err_inv _ _ _ _ _ _ H).
Qed.

Lemma structFields_Err fs : forall p r e,
  structFields GenerateSchema fs p r = Err e ->
  exists f, In f fs /\ fieldSchema f = Err e.
Proof.
  induction fs as [|f fs IH]; intros p r e H; [discriminate|].
  rewrite structFields_cons in H.
  destruct (fieldSchema f) as [s|e'] eqn:Hf; cbn [bind] in H.
  - destruct (IH _ _ _ H) as (g & Hg & He). exists g. split; [right; exact Hg | exact He].
  - injection H as <-. exists f. split; [left; reflexivity | exact Hf].
Qed.

Lemma GenerateSchema_knownError t : forall e,
  GenerateSchema t = Err e -> knownError e.
Proof.
  induction t as [h b|h n e0 IH|h e0 IH|h e0 IH|h k e0 _ _|h e0 _|h|h|h fs IH]
    using Type_induction; intros e H.
  - rewrite GenerateSchema_basic in H.
    left. exists (reflect.basic_Kind b), (reflect.str h).
    destruct b; try discriminate H; injection H as <-; split; reflexivity.
  - rewrite GenerateSchema_array in H.
    destruct (GenerateSchema e0) eqn:He; [discriminate|].
    injection H as <-. apply IH. reflexivity.
  - destruct (reflect.Type_eqb (reflect.TSlice h e0) ipType) eqn:Hi.
    + apply Type_eqb_eq in Hi. rewrite Hi in H. discriminate H.
    + rewrite (GenerateSchema_slice _ _ Hi) in H.
      destruct (GenerateSchema e0) eqn:He; [discriminate|].
      injection H as <-. apply IH. reflexivity.
  - rewrite GenerateSchema_ptr in H. exact (IH _ H).
  - discriminate H.
  - injection H as <-. left. exists reflect.Chan, (reflect.str h). split; reflexivity.
  - injection H as <-. left. exists reflect.Func, (reflect.str h). split; reflexivity.
  - injection H as <-. left. exists reflect.Interface, (reflect.str h). split; reflexivity.
  - destruct (reflect.Type_eqb (reflect.TStruct h fs) timeType) eqn:Ht.
    { apply Type_eqb_eq in Ht. rewrite Ht in H. discriminate H. }
    destruct (reflect.Type_eqb (reflect.TStruct h fs) uriType) eqn:Hu.
    { apply Type_eqb_eq in Hu. rewrite Hu in H. discriminate H. }
    rewrite (GenerateSchema_struct _ _ Ht Hu) in H.
    destruct (structFields GenerateSchema fs ∅ []) as [x|e'] eqn:Hloop; [discriminate|].
    injection H as <-.
    destruct (structFields_Err _ _ _ _ Hloop) as (f & Hin & Hf).
    unfold fieldSchema in Hf.
    destruct (GenerateSchema (reflect.Typ f)) as [s|e''] eqn:Hty; cbn [bind] in Hf.
    + right. exact (applyTags_Err _ _ _ Hf).
    + injection Hf as <-. rewrite List.Forall_forall in IH. exact (IH f Hin _ Hty).
Qed.

(** X13: whatever the type, an error of the generator is one of four:
    the unsupported-type error, naming a kind that has no case in the
    switch; the error of [strconv.Atoi], carrying the text it was given; the
    syntax error of the decoder; the type error of the decoder, naming a
    number that is no float64. *)
Theorem X13_errors_are_known (t : reflect.Type_) (e : error) :
  GenerateSchema t = Err e -> knownError e.
Proof. apply GenerateSchema_knownError. Qed.

Lemma X13_errors_are_known_witness :
  knownError (Errorf "unsupported type chan from chan int") /\
  knownError SyntaxError /\
  knownError (UnmarshalTypeError "number 1e400").
Proof.
  split; [|split].
  - apply (X13_errors_are_known unsupportedStruct). reflexivity.
  - apply (X13_errors_are_known enumBadStruct). reflexivity.
  - apply (X13_errors_are_known hugeDefaultStruct). vm_compute. reflexivity.
Defined.

(** ** The json tag *)

Lemma Split_pieces_commaFree s : forall p,
  In p (strings.Split s ",") -> commaFree p = true.
Proof.
  induction s as [|c r IH]; intros p Hp.
  - destruct Hp as [<-|[]]. reflexivity.
  - cbn [strings.Split] in Hp. destruct (Ascii.eqb c ","%char) eqn:Hc.
    + destruct Hp as [<-|Hp]; [reflexivity | exact (IH _ Hp)].
    + destruct (strings.Split r ",") as [|h tl] eqn:E.
      * exfalso. exact (Split_nonempty _ _ E).
      * destruct Hp as [<-|Hp].
        -- cbn [commaFree]. rewrite Hc. apply IH. left. reflexivity.
        -- apply IH. right. exact Hp.
Qed.

Lemma Split_commaFree s : commaFree s = true -> strings.Split s "," = [s].
Proof.
  induction s as [|c r IH]; [reflexivity|].
  cbn [commaFree strings.Split]. intros H. apply andb_true_iff in H as [Hc Hr].
  apply negb_true_iff in Hc. rewrite Hc, (IH Hr). reflexivity.
Qed.

(** X14: a property name never holds a comma; and a json tag whose text
    has no comma names the property by its whole text and leaves the field
    required, the text [omitempty] as any other: the marker is only looked
    for after the first comma. *)
Theorem X14_json_tag_names :
  (forall f, commaFree (fieldName f) = true) /\
  (forall f v, reflect.Lookup (reflect.Tag f) "json" = Some v ->
               commaFree v = true ->
               fieldName f = v /\ fieldOptional f = false).
Proof.
  split.
  - intros f. unfold fieldName.
    destruct (jsonTags f) as [|first rest] eqn:E.
    + exfalso. exact (Split_nonempty _ _ E).
    + apply (Split_pieces_commaFree (reflect.Get (reflect.Tag f) "json")).
      unfold jsonTags in E. rewrite E. left. reflexivity.
  - intros f v Hl Hv. unfold fieldName, fieldOptional, jsonTags, reflect.Get.
    rewrite Hl, (Split_commaFree _ Hv). split; reflexivity.
Qed.

Lemma X14_json_tag_names_witness :
  fieldName (reflect.mkField "F" stringType [("json", "omitempty")]) = "omitempty" /\
  fieldOptional (reflect.mkField "F" stringType [("json", "omitempty")]) = false.
Proof.
  apply (proj2 X14_json_tag_names
           (reflect.mkField "F" stringType [("json", "omitempty")]) "omitempty");
    reflexivity.
Defined.

(** ** The schema of a type carries no tag data *)

Lemma untagged_leaf ty fo mi :
  In fo [""; "ipv4"; "date-time"; "uri"] -> mi = None \/ mi = Some 0 ->
  forall it pr rq,
  untagged (mkSchema ty "" it pr rq fo None VNil VNil mi None None None 0
                     None None "" None None false None None).
Proof. intros Hf Hm it pr rq. unfold untagged. simpl. tauto. Qed.

Lemma GenerateSchema_untagged t : forall s,
  GenerateSchema t = OK s -> untagged s.
Proof.
  induction t as [h b|h n e IH|h e IH|h e IH|h k e _ _|h e _|h|h|h fs _]
    using Type_induction; intros s H.
  - rewrite GenerateSchema_basic in H.
    destruct b; try discriminate H; injection H as <-;
      apply untagged_leaf; simpl; auto.
  - rewrite GenerateSchema_array in H. apply bind_OK in H as (x & _ & H).
    injection H as <-. apply untagged_leaf; simpl; auto.
  - destruct (reflect.Type_eqb (reflect.TSlice h e) ipType) eqn:Hi.
    + apply Type_eqb_eq in Hi. rewrite Hi in H. injection H as <-.
      apply untagged_leaf; simpl; auto.
    + rewrite (GenerateSchema_slice _ _ Hi) in H. apply bind_OK in H as (x & _ & H).
      injection H as <-. apply untagged_leaf; simpl; auto.
  - rewrite GenerateSchema_ptr in H. exact (IH _ H).
  - injection H as <-. apply untagged_leaf; simpl; auto.
  - discriminate H.
  - discriminate H.
  - discriminate H.
  - destruct (reflect.Type_eqb (reflect.TStruct h fs) timeType) eqn:Ht.
    { apply Type_eqb_eq in Ht. rewrite Ht in H. injection H as <-.
      apply untagged_leaf; simpl; auto. }
    destruct (reflect.Type_eqb (reflect.TStruct h fs) uriType) eqn:Hu.
    { apply Type_eqb_eq in Hu. rewrite Hu in H. injection H as <-.
      apply untagged_leaf; simpl; auto 10. }
    destruct (GenerateSchema_struct_OK _ _ _ Ht Hu H) as (p & _ & ->).
    unfold attach.
    destruct (0 <? size p)%nat, (0 <? length (requiredNames fs))%nat;
      apply untagged_leaf; simpl; auto.
Qed.

(** X15: the schema of the type handed to the generator carries nothing
    that comes from a tag: no description, enum, default, example or
    pattern, no constraint other than the minimum 0 of an unsigned type,
    and no format other than the one of a special type.  Tags reach the
    schemas of fields only. *)
Theorem X15_type_schema_is_untagged (t : reflect.Type_) (s : Schema) :
  GenerateSchema t = OK s -> untagged s.
Proof. apply GenerateSchema_untagged. Qed.

Lemma X15_type_schema_is_untagged_witness : untagged uintSchema.
Proof. apply (X15_type_schema_is_untagged uint8Type). reflexivity. Defined.

(** ** Which names are required *)

Lemma count_requiredNames n fs :
  count_occ string_dec (requiredNames fs) n =
  length (List.filter
            (fun f => String.eqb (fieldName f) n && negb (fieldOptional f)) fs).
Proof.
  induction fs as [|g fs IH]; [reflexivity|].
  rewrite requiredNames_cons. cbn [List.filter].
  destruct (fieldOptional g).
  - rewrite andb_false_r. exact IH.
  - rewrite andb_true_r. cbn [count_occ].
    destruct (string_dec (fieldName g) n) as [E|E].
    + rewrite E, String.eqb_refl. cbn [length]. rewrite IH. reflexivity.
    + apply String.eqb_neq in E. rewrite E. exact IH.
Qed.

(** X16: in the schema of a struct that is walked field by field, a name
    is among the required names exactly when some field without the
    omitempty marker resolves to it, and it is listed once for each such
    field: a field with the marker does not take out a name that another
    field put in. *)
Theorem X16_required_membership (h : reflect.rtype)
    (fs : list reflect.StructField) (s : Schema) :
  reflect.Type_eqb (reflect.TStruct h fs) timeType = false ->
  reflect.Type_eqb (reflect.TStruct h fs) uriType = false ->
  GenerateSchema (reflect.TStruct h fs) = OK s ->
  forall n,
    ((exists req, Required s = Some req /\ In n req) <->
     (exists f, In f fs /\ fieldName f = n /\ fieldOptional f = false)) /\
    (forall req, Required s = Some req ->
       count_occ string_dec req n =
       length (List.filter
                 (fun f => String.eqb (fieldName f) n && negb (fieldOptional f)) fs)).
Proof.
  intros Ht Hu H n.
  destruct (GenerateSchema_struct_OK _ _ _ Ht Hu H) as (p & _ & ->).
  rewrite Required_attach.
  assert (E : match requiredNames fs with
              | [] => Required (set_Type_ "object" emptySchema)
              | _ :: _ => Some (requiredNames fs)
              end = match requiredNames fs with [] => None | l => Some l end).
  { destruct (requiredNames fs); reflexivity. }
  rewrite E. clear E. split.
  - rewrite <- In_requiredNames_iff. split.
    + intros (req & Hr & Hn). destruct (requiredNames fs); [discriminate|].
      injection Hr as <-. exact Hn.
    + intros Hn. exists (requiredNames fs). split; [|exact Hn].
      destruct (requiredNames fs); [contradiction | reflexivity].
  - intros req Hr. rewrite <- count_requiredNames.
    destruct (requiredNames fs); [discriminate|]. injection Hr as <-. reflexivity.
Qed.

Lemma X16_required_membership_witness :
  exists s req,
    GenerateSchema personType = OK s /\ Required s = Some req /\ In "name" req.
Proof.
  eexists.
  destruct (X16_required_membership (defined "main" "main" "Person")
              [nameField; ageField] _ eq_refl eq_refl eq_refl "name")
    as [[_ Hname] _].
  destruct Hname as (req & Hr & Hin).
  { exists nameField. split; [left; reflexivity|].
    split; vm_compute; reflexivity. }
  exists req. split; [reflexivity|]. split; [exact Hr | exact Hin].
Defined.
